(** * Validator engine: rule-schema validation of tabular data

    A shallow embedding of the three validation scripts of the repository
    ([file_validation.py], [validator.new.py], [validator.py]) together with
    the properties their specification states about them.

    Conventions of the embedding.
    - Python [str] values are Rocq [string]s, read as sequences of code
      points 0..255.  On that range the regular-expression class [\d] is
      exactly [0-9] and [str.isspace] is the set listed in [isspace].
    - A Python exception is a value [Raise e] of the [result] type; every
      function that can fault returns a [result].
    - Python [dict]s that are iterated are association lists in insertion
      order; dictionaries and sets that are only queried are [gmap]s and
      [gset]s.
    - The warehouse client (sessions, data frames, column expressions) is
      not part of the repository; it is modelled by the small set of
      operations the scripts call, evaluated eagerly on materialised rows. *)

From Stdlib Require Import ZArith String Ascii List Bool Lia DecimalString.
From Stdlib Require Import Sorting.Sorted Floats.SpecFloat.
From stdpp Require Import base option gmap strings list.

Open Scope string_scope.
Open Scope list_scope.
Import ListNotations.
Set Warnings "-register-all".
#[local] Arguments String.append : simpl nomatch.

(** ** Python runtime primitives *)

Module Py.

(** Exceptions the scripts can meet. *)
Inductive exn : Type :=
| TypeError
| ValueError
| KeyError
| SQLError
| AttributeError.

Inductive result (A : Type) : Type :=
| Ok (a : A)
| Raise (e : exn).
Arguments Ok {A} a.
Arguments Raise {A} e.

Definition bind {A B : Type} (m : result A) (f : A -> result B) : result B :=
  match m with
  | Ok a => f a
  | Raise e => Raise e
  end.

Definition is_ok {A : Type} (m : result A) : bool :=
  match m with
  | Ok _ => true
  | Raise _ => false
  end.

(** *** Strings

    A [str] is a text of code points below 256, one [ascii] for each.
    On such texts the classes of the scripts are what the definitions
    say: [\d] is the ten digits 0 to 9, and [str.isspace] and
    [str.upper] are as given.  Texts with code points from 256 on, where
    [\d] also takes the decimal digits of other scripts, are outside
    the model. *)

Definition LF : ascii := ascii_of_nat 10.

Definition in_range_ascii (lo hi : nat) (a : ascii) : bool :=
  (lo <=? nat_of_ascii a)%nat && (nat_of_ascii a <=? hi)%nat.

(** [str.isspace] on code points below 256: TAB..CR, FS..US, space, NEL and
    the no-break space. *)
Definition isspace (a : ascii) : bool :=
  in_range_ascii 9 13 a || in_range_ascii 28 32 a
  || (nat_of_ascii a =? 133)%nat || (nat_of_ascii a =? 160)%nat.

Definition is_digit (a : ascii) : bool := in_range_ascii 48 57 a.

Definition is_alnum (a : ascii) : bool :=
  in_range_ascii 97 122 a || in_range_ascii 65 90 a || in_range_ascii 48 57 a.

Fixpoint lstrip (s : string) : string :=
  match s with
  | String a s' => if isspace a then lstrip s' else s
  | EmptyString => EmptyString
  end.

Fixpoint rstrip (s : string) : string :=
  match s with
  | String a s' =>
      match rstrip s' with
      | EmptyString => if isspace a then EmptyString else String a EmptyString
      | r => String a r
      end
  | EmptyString => EmptyString
  end.

(** [s.strip()] *)
Definition strip (s : string) : string := rstrip (lstrip s).

(** [s.split(sep)] for a one-character separator. *)
Fixpoint split (sep : ascii) (s : string) : list string :=
  match s with
  | EmptyString => [EmptyString]
  | String a s' =>
      if Ascii.eqb a sep then EmptyString :: split sep s'
      else match split sep s' with
           | h :: t => String a h :: t
           | [] => [String a EmptyString]
           end
  end.

Fixpoint all_chars (p : ascii -> bool) (s : string) : bool :=
  match s with
  | EmptyString => true
  | String a s' => p a && all_chars p s'
  end.

(** [s.find(c) != -1] *)
Definition has_char (c : ascii) (s : string) : bool :=
  negb (all_chars (fun a => negb (Ascii.eqb a c)) s).

(** Longest prefix of characters in a class, and what follows it. *)
Fixpoint take_while (p : ascii -> bool) (s : string) : string :=
  match s with
  | String a s' => if p a then String a (take_while p s') else EmptyString
  | EmptyString => EmptyString
  end.

Fixpoint drop_while (p : ascii -> bool) (s : string) : string :=
  match s with
  | String a s' => if p a then drop_while p s' else s
  | EmptyString => EmptyString
  end.

(** [str(n)] for an [int]. *)
Definition str_of_nat (n : nat) : string :=
  NilEmpty.string_of_uint (Nat.to_uint n).

Definition str_of_Z (z : Z) : string :=
  NilEmpty.string_of_int (Z.to_int z).

(** Truthiness of a [str]. *)
Definition nonempty (s : string) : bool :=
  match s with
  | EmptyString => false
  | String _ _ => true
  end.

(** *** Regular expressions ([re])

    The fragment of the pattern language the scripts use: anchors,
    literals, a character class under a counted repetition, sequencing,
    an optional sub-pattern and numbered capturing groups.  Matching is
    the backtracking search of [re], greedy first. *)

Inductive regex : Type :=
| Empty
| Bol
| Eol
| Chr (a : ascii)
| Rep (cls : ascii -> bool) (lo : nat) (hi : option nat)
| Seq (r1 r2 : regex)
| Opt (r : regex)
| Grp (n : nat) (r : regex).

Definition captures : Type := list (nat * string).

(** [$] without MULTILINE: at the end, or just before a final newline. *)
Definition at_eol (rest : string) : bool :=
  match rest with
  | EmptyString => true
  | String a EmptyString => Ascii.eqb a LF
  | _ => false
  end.

Definition below (n : nat) (hi : option nat) : bool :=
  match hi with
  | Some h => (n <? h)%nat
  | None => true
  end.

(** [cls{lo,hi}] with [n] repetitions already taken: take one more if
    possible, fall back to stopping here. *)
Fixpoint rep {A : Type} (cls : ascii -> bool) (lo : nat) (hi : option nat)
    (n pos : nat) (rest : string) (k : nat -> string -> option A) : option A :=
  let stop := if (lo <=? n)%nat then k pos rest else None in
  match rest with
  | String a rest' =>
      if cls a && below n hi then
        match rep cls lo hi (S n) (S pos) rest' k with
        | Some c => Some c
        | None => stop
        end
      else stop
  | EmptyString => stop
  end.

Fixpoint exec (r : regex) (pos : nat) (rest : string) (caps : captures)
    (k : nat -> string -> captures -> option captures) : option captures :=
  match r with
  | Empty => k pos rest caps
  | Bol => if (pos =? 0)%nat then k pos rest caps else None
  | Eol => if at_eol rest then k pos rest caps else None
  | Chr a =>
      match rest with
      | String b rest' => if Ascii.eqb a b then k (S pos) rest' caps else None
      | EmptyString => None
      end
  | Rep cls lo hi => rep cls lo hi 0 pos rest (fun p r' => k p r' caps)
  | Seq r1 r2 => exec r1 pos rest caps (fun p r' c => exec r2 p r' c k)
  | Opt r1 =>
      match exec r1 pos rest caps k with
      | Some c => Some c
      | None => k pos rest caps
      end
  | Grp n r1 =>
      exec r1 pos rest caps
        (fun p r' c => k p r' ((n, substring 0 (p - pos) rest) :: c))
  end.

(** [re.match(pattern, s)]: a match object (its groups) or [None]. *)
Definition re_match (pattern : regex) (s : string) : option captures :=
  exec pattern 0 s [] (fun _ _ c => Some c).

(** [m.group(n)]: [None] when the group took no part in the match. *)
Fixpoint group (m : captures) (n : nat) : option string :=
  match m with
  | [] => None
  | (i, s) :: m' => if (i =? n)%nat then Some s else group m' n
  end.

(** [bool(m)] for the result of [re.match]. *)
Definition matched (m : option captures) : bool :=
  match m with
  | Some _ => true
  | None => false
  end.

(** Warehouse [RLIKE]: the pattern has to cover the whole subject. *)
Definition rlike (pattern : regex) (s : string) : bool :=
  matched (exec pattern 0 s []
             (fun _ r' c => match r' with EmptyString => Some c | _ => None end)).

(** *** Numbers: [int], [float] and [float(str)]

    An [int] is a [Z].  A [float] is a binary64 value in the Standard
    Library's [spec_float]; [float(s)] parses the decimal text and rounds
    it to the nearest binary64 (ties to even), as CPython does. *)

Inductive number : Type :=
| Int (z : Z)
| Float (f : spec_float).

Definition prec : Z := 53.
Definition emax : Z := 1024.

Definition lower (a : ascii) : ascii :=
  if in_range_ascii 65 90 a then ascii_of_nat (nat_of_ascii a + 32) else a.

Fixpoint lower_str (s : string) : string :=
  match s with
  | String a s' => String (lower a) (lower_str s')
  | EmptyString => EmptyString
  end.

(** Digits after the first one of a digit run; a single underscore may
    sit between two digits. *)
Fixpoint digitpart_tail (s : string) : string * string :=
  match s with
  | String a s' =>
      if is_digit a then
        let (d, r) := digitpart_tail s' in (String a d, r)
      else if Ascii.eqb a "_" then
        match s' with
        | String b s'' =>
            if is_digit b then
              let (d, r) := digitpart_tail s'' in (String b d, r)
            else (EmptyString, s)
        | EmptyString => (EmptyString, s)
        end
      else (EmptyString, s)
  | EmptyString => (EmptyString, EmptyString)
  end.

Definition digitpart (s : string) : option (string * string) :=
  match s with
  | String a s' =>
      if is_digit a then
        let (d, r) := digitpart_tail s' in Some (String a d, r)
      else None
  | EmptyString => None
  end.

Definition parse_sign (s : string) : bool * string :=
  match s with
  | String a s' =>
      if Ascii.eqb a "-" then (true, s')
      else if Ascii.eqb a "+" then (false, s')
      else (false, s)
  | EmptyString => (false, s)
  end.

Fixpoint digits_acc (acc : Z) (d : string) : Z :=
  match d with
  | String a d' => digits_acc (10 * acc + Z.of_nat (nat_of_ascii a - 48)) d'
  | EmptyString => acc
  end.

Definition parse_exponent (s : string) : option Z :=
  match s with
  | EmptyString => Some 0%Z
  | String a s' =>
      if Ascii.eqb (lower a) "e" then
        let (neg, s'') := parse_sign s' in
        match digitpart s'' with
        | Some (d, EmptyString) => Some (cond_Zopp neg (digits_acc 0 d))
        | _ => None
        end
      else None
  end.

(** Decimal text to (digits, power of ten). *)
Definition parse_decimal (s : string) : option (Z * Z) :=
  let (ip, r1) :=
    match digitpart s with
    | Some (d, r) => (d, r)
    | None => (EmptyString, s)
    end in
  let (fp, r2) :=
    match r1 with
    | String a r =>
        if Ascii.eqb a "." then
          match digitpart r with
          | Some (d, r') => (d, r')
          | None => (EmptyString, r)
          end
        else (EmptyString, r1)
    | EmptyString => (EmptyString, r1)
    end in
  if nonempty ip || nonempty fp then
    match parse_exponent r2 with
    | Some e => Some (digits_acc 0 (ip +:+ fp), (e - Z.of_nat (String.length fp))%Z)
    | None => None
    end
  else None.

(** The binary64 nearest to [(-1)^neg * m * 10^e10]. *)
Definition float_of_decimal (neg : bool) (m e10 : Z) : spec_float :=
  match m with
  | Zpos p =>
      if (0 <=? e10)%Z then
        binary_round prec emax neg (Z.to_pos (Zpos p * 10 ^ e10)) 0
      else
        SFdiv prec emax (S754_finite neg p 0)
          (S754_finite false (Z.to_pos (10 ^ (- e10))) 0)
  | _ => S754_zero neg
  end.

(** [float(s)] *)
Definition float (s : string) : result spec_float :=
  let (neg, body) := parse_sign (strip s) in
  let l := lower_str body in
  if String.eqb l "inf" || String.eqb l "infinity" then Ok (S754_infinity neg)
  else if String.eqb l "nan" then Ok S754_nan
  else match parse_decimal body with
       | Some (m, e10) => Ok (float_of_decimal neg m e10)
       | None => Raise ValueError
       end.

(** Exact comparison of a float with an int. *)
Definition compare_float_Z (f : spec_float) (z : Z) : option comparison :=
  match f with
  | S754_zero _ => Some (0 ?= z)%Z
  | S754_infinity s => Some (if s then Lt else Gt)
  | S754_nan => None
  | S754_finite s m e =>
      let v := cond_Zopp s (Zpos m) in
      Some (if (0 <=? e)%Z then (v * 2 ^ e ?= z)%Z else (v ?= z * 2 ^ (- e))%Z)
  end.

Definition num_compare (a b : number) : option comparison :=
  match a, b with
  | Int x, Int y => Some (x ?= y)%Z
  | Float f, Int y => compare_float_Z f y
  | Int x, Float g => option_map CompOpp (compare_float_Z g x)
  | Float f, Float g => SFcompare f g
  end.

(** [a <= b]; false as soon as a NaN is involved. *)
Definition num_le (a b : number) : bool :=
  match num_compare a b with
  | Some Lt | Some Eq => true
  | _ => false
  end.

End Py.


(** ** The warehouse validate-and-insert pipeline ([file_validation.py]) *)

Module FileValidation.
Import Py.

(** What a cell of a collected row can hold.  A [float] is carried by its
    [str()] text, which determines it. *)
Inductive value : Type :=
| VNone
| VStr (s : string)
| VInt (z : Z)
| VFloat (text : string)
| VBool (b : bool).

(** [str(value)] *)
Definition str (v : value) : string :=
  match v with
  | VNone => "None"
  | VStr s => s
  | VInt z => str_of_Z z
  | VFloat text => text
  | VBool b => if b then "True" else "False"
  end.

Definition is_none (v : value) : bool :=
  match v with
  | VNone => true
  | _ => false
  end.

(** [value == ''] *)
Definition eq_empty (v : value) : bool :=
  match v with
  | VStr s => negb (nonempty s)
  | _ => false
  end.

(** [value == 0] *)
Definition eq_zero (v : value) : bool :=
  match v with
  | VInt z => (z =? 0)%Z
  | VFloat text => String.eqb text "0.0" || String.eqb text "-0.0"
  | VBool b => negb b
  | _ => false
  end.

Definition value_eqb (a b : value) : bool :=
  match a, b with
  | VNone, VNone => true
  | VStr x, VStr y => String.eqb x y
  | VInt x, VInt y => (x =? y)%Z
  | VFloat x, VFloat y => String.eqb x y
  | VBool x, VBool y => Bool.eqb x y
  | _, _ => false
  end.

(** The [patterns] table of [check_pattern]. *)
Definition pattern_alpha_numeric : regex :=
  Seq Bol (Seq (Rep is_alnum 1 None) Eol).

Definition pattern_numeric : regex :=
  Seq Bol (Seq (Rep is_digit 1 None) Eol).

Definition pattern_decimal : regex :=
  Seq Bol
    (Seq (Rep is_digit 1 (Some 10))
       (Seq (Opt (Grp 1 (Seq (Chr ".") (Rep is_digit 1 (Some 10))))) Eol)).

Definition patterns (field_type : string) : option regex :=
  if String.eqb field_type "alpha_numeric" then Some pattern_alpha_numeric
  else if String.eqb field_type "numeric" then Some pattern_numeric
  else if String.eqb field_type "decimal" then Some pattern_decimal
  else None.

(** [bool(re.match(patterns.get(field_type, ''), value))]: [re.match]
    takes a [str] subject and raises [TypeError] on anything else. *)
Definition check_pattern (v : value) (field_type : string) : result bool :=
  let pattern := default Empty (patterns field_type) in
  match v with
  | VStr s => Ok (matched (re_match pattern s))
  | _ => Raise TypeError
  end.

Record field_rule : Type := {
  type : string;
  required : bool;
  size : option Z;
  size_before_decimal : option Z;
  size_after_decimal : option Z
}.

Record validation_rules : Type := {
  duplicate_field_check : bool;
  columns : list string;
  fields : list (string * field_rule)
}.

(** A collected row: column names with their values. *)
Definition row : Type := list (string * value).

Record dataframe : Type := {
  df_columns : list string;
  df_rows : list row
}.

(** [row[field]], defined when [field in row.asDict()]. *)
Fixpoint row_get (r : row) (field : string) : option value :=
  match r with
  | [] => None
  | (name, v) :: r' => if String.eqb name field then Some v else row_get r' field
  end.

(** *** Column names

    The client resolves a column name the way the warehouse reads an
    identifier: a name in double quotes stands for what is between the
    quotes; a name without quotes that is made of letters, digits, [_]
    and [$] and starts with a letter or [_] is folded to upper case; any
    other name stands for itself.  The keys of a collected row are the
    identifiers. *)

Definition dquote : ascii := ascii_of_nat 34.

Definition upper (a : ascii) : ascii :=
  if in_range_ascii 97 122 a then ascii_of_nat (nat_of_ascii a - 32) else a.

Fixpoint upper_str (s : string) : string :=
  match s with
  | String a s' => String (upper a) (upper_str s')
  | EmptyString => EmptyString
  end.

Definition is_name_start (a : ascii) : bool :=
  Ascii.eqb a "_" || in_range_ascii 65 90 a || in_range_ascii 97 122 a.

Definition is_name_char (a : ascii) : bool :=
  is_name_start a || is_digit a || Ascii.eqb a "$".

(** A name that needs no quotes. *)
Definition unquoted (name : string) : bool :=
  match name with
  | String a s => is_name_start a && all_chars is_name_char s
  | EmptyString => false
  end.

Fixpoint ends_with (c : ascii) (s : string) : bool :=
  match s with
  | EmptyString => false
  | String a EmptyString => Ascii.eqb a c
  | String _ s' => ends_with c s'
  end.

(** A name given in double quotes, with something between them. *)
Definition quoted (name : string) : bool :=
  match name with
  | String a s =>
      Ascii.eqb a dquote && (2 <=? String.length s)%nat && ends_with dquote s
  | EmptyString => false
  end.

(** Between quotes, a doubled quote stands for one. *)
Fixpoint undouble (s : string) : string :=
  match s with
  | EmptyString => EmptyString
  | String a t =>
      match t with
      | String b s' =>
          if Ascii.eqb a dquote && Ascii.eqb b dquote
          then String dquote (undouble s')
          else String a (undouble t)
      | EmptyString => String a EmptyString
      end
  end.

Fixpoint double (s : string) : string :=
  match s with
  | EmptyString => EmptyString
  | String a s' =>
      if Ascii.eqb a dquote then String dquote (String dquote (double s'))
      else String a (double s')
  end.

(** The identifier that a column name stands for. *)
Definition identifier (name : string) : string :=
  if quoted name then undouble (substring 1 (String.length name - 2) name)
  else if unquoted name then upper_str name
  else name.

Definition is_upper_start (a : ascii) : bool :=
  Ascii.eqb a "_" || in_range_ascii 65 90 a.

Definition is_upper_char (a : ascii) : bool :=
  is_upper_start a || is_digit a || Ascii.eqb a "$".

(** The name under which [data.columns] lists an identifier: as it is
    when it is made of capital letters, digits, [_] and [$] and starts
    with a capital letter or [_], or is [$] followed by digits; in
    double quotes otherwise. *)
Definition column_name (key : string) : string :=
  match key with
  | String a s =>
      if (is_upper_start a && all_chars is_upper_char s)
         || (Ascii.eqb a "$" && nonempty s && all_chars is_digit s)
      then key
      else String dquote (double key +:+ String dquote EmptyString)
  | EmptyString => String dquote (String dquote EmptyString)
  end.

(** Column expressions: [col(name)] and [c.isin(cols)]. *)
Inductive column : Type :=
| Col (name : string)
| IsIn (c : column) (vals : list column).

(** SQL [x IN (v1, ..., vn)], three-valued; the empty list gives FALSE. *)
Definition sql_in (x : value) (vs : list value) : value :=
  match vs with
  | [] => VBool false
  | _ :: _ =>
      if is_none x then VNone
      else if existsb (value_eqb x) vs then VBool true
      else if existsb is_none vs then VNone
      else VBool false
  end.

Fixpoint eval (c : column) (r : row) : value :=
  match c with
  | Col name => default VNone (row_get r (identifier name))
  | IsIn c' vals => sql_in (eval c' r) (List.map (fun v => eval v r) vals)
  end.

Definition without (name : string) (r : row) : row :=
  List.filter (fun kv => negb (String.eqb (fst kv) name)) r.

(** [data.withColumn(name, c)]: the column of the identifier that
    [name] stands for is added, or replaces the one there is. *)
Definition withColumn (data : dataframe) (name : string) (c : column) : dataframe :=
  let key := identifier name in
  {| df_columns :=
       List.filter (fun n => negb (String.eqb n (column_name key))) (df_columns data)
       ++ [column_name key];
     df_rows :=
       List.map (fun r => without key r ++ [(key, eval c r)]) (df_rows data) |}.

(** [data.collect()] *)
Definition collect (data : dataframe) : list row := df_rows data.

(** The session: the warehouse tables, and the writes made so far. *)
Record session : Type := {
  tables : gmap string dataframe;
  writes : list (string * list row)
}.

(** [session.table(name)] followed by a read of its columns. *)
Definition table (s : session) (name : string) : result dataframe :=
  match tables s !! name with
  | Some t => Ok t
  | None => Raise SQLError
  end.

(** [data.write.mode("append").save_as_table(name)] *)
Definition save_as_table_append (s : session) (data : dataframe) (name : string)
    : session :=
  let t' :=
    match tables s !! name with
    | Some t => {| df_columns := df_columns t;
                   df_rows := df_rows t ++ df_rows data |}
    | None => data
    end in
  {| tables := <[name := t']> (tables s);
     writes := writes s ++ [(name, df_rows data)] |}.

(** The violations [validate_data] reports, and their texts. *)
Inductive error : Type :=
| RequiredNull (field : string)
| ExceedsSize (field : string)
| PatternMismatch (field : string) (field_type : string)
| ZeroValue (field : string)
| DigitsBefore (field : string)
| DigitsAfter (field : string).

Definition message (e : error) : string :=
  match e with
  | RequiredNull field =>
      "Field " +:+ field +:+ " is required but is null or empty."
  | ExceedsSize field =>
      "Field " +:+ field +:+ " exceeds the allowed size."
  | PatternMismatch field field_type =>
      "Field " +:+ field +:+ " does not match the expected pattern ("
        +:+ field_type +:+ ")."
  | ZeroValue field =>
      "Field " +:+ field +:+ " cannot have zero value."
  | DigitsBefore field =>
      "Field " +:+ field +:+ " exceeds the allowed number of digits before decimal."
  | DigitsAfter field =>
      "Field " +:+ field +:+ " exceeds the allowed number of digits after decimal."
  end.

Definition len (s : string) : Z := Z.of_nat (String.length s).

(** [errors.append(e)] when the condition holds. *)
Definition append_if (c : bool) (e : error) (errors : list error) : list error :=
  if c then errors ++ [e] else errors.

(** The duplicate-flag loop over [validation_rules["columns"]]. *)
Fixpoint flag_duplicates (cols : list string) (data : dataframe)
    (seen : list column) : dataframe :=
  match cols with
  | [] => data
  | field :: cols' =>
      if bool_decide (field ∈ df_columns data) then
        flag_duplicates cols'
          (withColumn data (field +:+ "_duplicate") (IsIn (Col field) seen))
          (seen ++ [Col field])
      else flag_duplicates cols' data seen
  end.

(** The range check of a [decimal] field, entered for [float] values. *)
Definition check_decimal (field : string) (field_rule : field_rule) (v : value)
    (errors : list error) : result (list error) :=
  match v with
  | VFloat value_str =>
      let size_before_decimal := default 0%Z (size_before_decimal field_rule) in
      let size_after_decimal := default 0%Z (size_after_decimal field_rule) in
      bind
        (if has_char "." value_str then
           match split "." value_str with
           | [b; a] => Ok (b, a)
           | _ => Raise ValueError
           end
         else Ok (value_str, EmptyString))
        (fun parts =>
           let errors :=
             append_if (len (fst parts) >? size_before_decimal)%Z
               (DigitsBefore field) errors in
           Ok (append_if (len (snd parts) >? size_after_decimal)%Z
                 (DigitsAfter field) errors))
  | _ => Ok errors
  end.

(** The body of the loop over [validation_rules['fields'].items()]. *)
Definition validate_field (r : row) (errors : list error)
    (field : string) (field_rule : field_rule) : result (list error) :=
  match row_get r field with
  | None => Ok errors
  | Some v =>
      let errors :=
        append_if (required field_rule && (is_none v || eq_empty v))
          (RequiredNull field) errors in
      let errors :=
        append_if (String.eqb (type field_rule) "alpha_numeric"
                   && (len (str v) >? default 0%Z (size field_rule))%Z)
          (ExceedsSize field) errors in
      bind (check_pattern v (type field_rule)) (fun ok =>
        let errors :=
          append_if (negb ok) (PatternMismatch field (type field_rule)) errors in
        let errors :=
          append_if (String.eqb (type field_rule) "numeric" && eq_zero v)
            (ZeroValue field) errors in
        if String.eqb (type field_rule) "decimal"
        then check_decimal field field_rule v errors
        else Ok errors)
  end.

Fixpoint validate_fields (r : row) (rules : list (string * field_rule))
    (errors : list error) : result (list error) :=
  match rules with
  | [] => Ok errors
  | (field, field_rule) :: rules' =>
      bind (validate_field r errors field field_rule)
        (validate_fields r rules')
  end.

Fixpoint validate_rows (rows : list row) (rules : list (string * field_rule))
    (errors : list error) : result (list error) :=
  match rows with
  | [] => Ok errors
  | r :: rows' =>
      bind (validate_fields r rules errors) (validate_rows rows' rules)
  end.

(** [validate_data] with the violations still structured. *)
Definition violations (s : session) (data : dataframe)
    (validation_rules : validation_rules) (snowpark_table : string)
    : result (list error) :=
  bind (table s snowpark_table) (fun _ =>
    let data :=
      if duplicate_field_check validation_rules
      then flag_duplicates (columns validation_rules) data []
      else data in
    validate_rows (collect data) (fields validation_rules) []).

Definition validate_data (s : session) (data : dataframe)
    (validation_rules : validation_rules) (snowpark_table : string)
    : result (list string) :=
  bind (violations s data validation_rules snowpark_table)
    (fun errors => Ok (List.map message errors)).

(** What [insert_valid_records] hands back: the error list or the
    success text. *)
Inductive outcome : Type :=
| Errors (errors : list string)
| Success (text : string).

Definition insert_valid_records (s : session) (data : dataframe)
    (snowpark_table : string) (validation_rules : validation_rules)
    : result (outcome * session) :=
  bind (validate_data s data validation_rules snowpark_table)
    (fun validation_errors =>
       match validation_errors with
       | _ :: _ => Ok (Errors validation_errors, s)
       | [] =>
           let s' := save_as_table_append s data snowpark_table in
           Ok (Success ("Successfully inserted "
                        +:+ str_of_nat (length (collect data))
                        +:+ " valid records into " +:+ snowpark_table +:+ "."),
               s')
       end).

End FileValidation.

(** ** The standalone record validator ([validator.new.py]) *)

Module ValidatorNew.
Import Py.

(** A field rule of the JSON configuration.  [size], [type] and
    [required] are read with [field_spec[...]], the others are optional. *)
Record field_spec : Type := {
  size : Z;
  type : string;
  required : bool;
  size_before_decimal : option Z;
  size_after_decimal : option Z;
  allowed_values : option (list string);
  range : option (number * number);
  zero_check : bool
}.

Record json_data : Type := {
  fields : gmap string field_spec;
  duplicate_field_check : bool;
  columns : list string
}.

(** A record: the items of a [dict] from field name to raw text, in
    insertion order. *)
Definition record : Type := list (string * string).

(** [d[k] = v] *)
Fixpoint dict_set (d : record) (k v : string) : record :=
  match d with
  | [] => [(k, v)]
  | (k', v') :: d' =>
      if String.eqb k' k then (k, v) :: d' else (k', v') :: dict_set d' k v
  end.

(** [dict(items)] *)
Definition dict (items : list (string * string)) : record :=
  fold_left (fun d kv => dict_set d (fst kv) (snd kv)) items [].

(** [dict(zip(headers, row.split(",")))] *)
Definition record_of_line (headers : list string) (line : string) : record :=
  dict (combine headers (split "," line)).

(** The module-level parsing of the table text: header, column check,
    records. *)
Definition table_records (table_data_str : string) (columns : list string)
    : result (list record) :=
  let table_lines := split LF (strip table_data_str) in
  let headers := split "," (hd EmptyString table_lines) in
  if bool_decide (list_to_set headers ≠@{gset string} list_to_set columns)
  then Raise ValueError
  else Ok (List.map (record_of_line headers) (tl table_lines)).

(** *** Validation functions *)

Definition re_alpha_numeric : regex :=
  Seq Bol (Seq (Rep is_alnum 0 None) Eol).

(** [^\d+$], with [\d] on code points below 256: the digits 0 to 9. *)
Definition re_numeric : regex :=
  Seq Bol (Seq (Rep is_digit 1 None) Eol).

Definition re_decimal : regex :=
  Seq Bol
    (Seq (Grp 1 (Rep is_digit 1 None))
       (Seq (Opt (Grp 2 (Seq (Chr ".") (Rep is_digit 1 None)))) Eol)).

Definition is_alpha_numeric (value : string) : bool :=
  matched (re_match re_alpha_numeric value).

Definition is_numeric (value : string) : bool :=
  matched (re_match re_numeric value).

Definition len (s : string) : Z := Z.of_nat (String.length s).

(** [s[1:]] *)
Definition tail (s : string) : string :=
  match s with
  | String _ s' => s'
  | EmptyString => EmptyString
  end.

(** Group 1 takes part in every match of [re_decimal]; group 2 is [None]
    when the fraction is missing. *)
Definition is_decimal (value : string) (before_decimal after_decimal : Z) : bool :=
  match re_match re_decimal value with
  | Some m =>
      let int_part := default EmptyString (group m 1) in
      let dec_part := group m 2 in
      (len int_part <=? before_decimal)%Z
      && ((match dec_part with
           | Some d => if nonempty d then len (tail d) else 0%Z
           | None => 0%Z
           end) <=? after_decimal)%Z
  | None => false
  end.

(** One constructor for each message [validate_record] appends. *)
Inductive violation : Type :=
| UnexpectedField (field : string)
| RequiredMissing (field : string)
| ExceedsMaxSize (field : string) (size : Z)
| NotAlphanumeric (field : string)
| NotNumeric (field : string)
| NotDecimal (field : string) (before_decimal after_decimal : Z)
| OutOfRange (field : string) (num_value : spec_float) (min_val max_val : number)
| NotANumber (field : string)
| IsZero (field : string)
| InvalidValue (field : string) (value : string) (allowed : list string).

(** The field a violation names. *)
Definition field_of (v : violation) : string :=
  match v with
  | UnexpectedField f | RequiredMissing f | ExceedsMaxSize f _
  | NotAlphanumeric f | NotNumeric f | NotDecimal f _ _
  | OutOfRange f _ _ _ | NotANumber f | IsZero f | InvalidValue f _ _ => f
  end.

Definition append_if (c : bool) (v : violation) (errors : list violation)
    : list violation :=
  if c then errors ++ [v] else errors.

(** [not (min_val <= num_value <= max_val)] *)
Definition out_of_range (min_val max_val : number) (num_value : spec_float) : bool :=
  negb (num_le min_val (Float num_value) && num_le (Float num_value) max_val).

Section Rules.

Variable field_definitions : gmap string field_spec.

(** The type validation, an [if]/[elif] chain. *)
Definition check_type (field value : string) (field_spec : field_spec)
    (errors : list violation) : list violation :=
  if String.eqb (type field_spec) "alpha_numeric" && nonempty value
     && negb (is_alpha_numeric value)
  then errors ++ [NotAlphanumeric field]
  else if String.eqb (type field_spec) "numeric" && nonempty value
          && negb (is_numeric value)
  then errors ++ [NotNumeric field]
  else if String.eqb (type field_spec) "decimal" && nonempty value
  then
    let before_decimal := default 10%Z (size_before_decimal field_spec) in
    let after_decimal := default 10%Z (size_after_decimal field_spec) in
    append_if (negb (is_decimal value before_decimal after_decimal))
      (NotDecimal field before_decimal after_decimal) errors
  else errors.

(** The range check; [float] can only fail with [ValueError], which the
    [except] clause turns into a violation. *)
Definition check_range (field value : string) (field_spec : field_spec)
    (errors : list violation) : list violation :=
  match range field_spec with
  | Some (min_val, max_val) =>
      if nonempty value then
        match float value with
        | Ok num_value =>
            append_if (out_of_range min_val max_val num_value)
              (OutOfRange field num_value min_val max_val) errors
        | Raise _ => errors ++ [NotANumber field]
        end
      else errors
  | None => errors
  end.

(** The body of the loop over [record.items()]. *)
Definition validate_item (errors : list violation) (item : string * string)
    : list violation :=
  let (field, value) := item in
  match field_definitions !! field with
  | None => errors ++ [UnexpectedField field]
  | Some field_spec =>
      let value := strip value in
      let errors :=
        append_if (required field_spec && negb (nonempty value))
          (RequiredMissing field) errors in
      let errors :=
        append_if (len value >? size field_spec)%Z
          (ExceedsMaxSize field (size field_spec)) errors in
      let errors := check_type field value field_spec errors in
      let errors := check_range field value field_spec errors in
      let errors :=
        append_if (zero_check field_spec && String.eqb value "0")
          (IsZero field) errors in
      match allowed_values field_spec with
      | Some allowed =>
          append_if (nonempty value && negb (existsb (String.eqb value) allowed))
            (InvalidValue field value allowed) errors
      | None => errors
      end
  end.

(** [validate_record], the violations before they are put into words. *)
Definition violations (record : record) : list violation :=
  fold_left validate_item record [].

(** *** The texts

    [repr] of a [float] and of a [str] belong to the interpreter; the
    messages are built over them. *)

Variable repr_float : spec_float -> string.
Variable repr_str : string -> string.

Definition str_number (n : number) : string :=
  match n with
  | Int z => str_of_Z z
  | Float f => repr_float f
  end.

Fixpoint join (sep : string) (l : list string) : string :=
  match l with
  | [] => EmptyString
  | [x] => x
  | x :: l' => x +:+ sep +:+ join sep l'
  end.

(** [str(l)] for a list of strings. *)
Definition str_list (l : list string) : string :=
  "[" +:+ join ", " (List.map repr_str l) +:+ "]".

Definition message (row_idx : nat) (v : violation) : string :=
  let row := "Row " +:+ str_of_nat row_idx +:+ ": " in
  match v with
  | UnexpectedField field => row +:+ "Unexpected field '" +:+ field +:+ "'"
  | RequiredMissing field => row +:+ "'" +:+ field +:+ "' is required but missing."
  | ExceedsMaxSize field size =>
      row +:+ "'" +:+ field +:+ "' exceeds max size " +:+ str_of_Z size +:+ "."
  | NotAlphanumeric field => row +:+ "'" +:+ field +:+ "' should be alphanumeric."
  | NotNumeric field => row +:+ "'" +:+ field +:+ "' should be numeric."
  | NotDecimal field before_decimal after_decimal =>
      row +:+ "'" +:+ field +:+ "' should be decimal with "
        +:+ str_of_Z before_decimal +:+ " digits before and "
        +:+ str_of_Z after_decimal +:+ " digits after decimal."
  | OutOfRange field num_value min_val max_val =>
      row +:+ "'" +:+ field +:+ "' value " +:+ repr_float num_value
        +:+ " out of range " +:+ str_number min_val +:+ "-"
        +:+ str_number max_val +:+ "."
  | NotANumber field =>
      row +:+ "'" +:+ field +:+ "' should be a number for range check."
  | IsZero field => row +:+ "'" +:+ field +:+ "' should not be zero."
  | InvalidValue field value allowed =>
      row +:+ "'" +:+ field +:+ "' has an invalid value '" +:+ value
        +:+ "'. Allowed values: " +:+ str_list allowed +:+ "."
  end.

Definition validate_record (record : record) (row_idx : nat) : list string :=
  List.map (message row_idx) (violations record).

End Rules.

(** *** Duplicate rows *)

Definition duplicate_message (i : nat) : string :=
  "Row " +:+ str_of_nat i +:+ " is a duplicate.".

(** The loop of [check_duplicates], entered at row [i] with the records
    seen so far. *)
Fixpoint check_duplicates_loop (i : nat) (records : list record)
    (seen : gset record) (duplicates : list string) : list string :=
  match records with
  | [] => duplicates
  | record :: records' =>
      let record_tuple := record in
      let duplicates :=
        if bool_decide (record_tuple ∈ seen)
        then duplicates ++ [duplicate_message i]
        else duplicates in
      check_duplicates_loop (S i) records' ({[record_tuple]} ∪ seen) duplicates
  end.

Definition check_duplicates (records : list record) : list string :=
  check_duplicates_loop 1 records ∅ [].

(** *** [main]: what is printed *)

Fixpoint validate_all (field_definitions : gmap string field_spec)
    (repr_float : spec_float -> string) (repr_str : string -> string)
    (row_idx : nat) (records : list record) : list string :=
  match records with
  | [] => []
  | row :: records' =>
      validate_record field_definitions repr_float repr_str row row_idx
      ++ validate_all field_definitions repr_float repr_str (S row_idx) records'
  end.

Definition main (json_data : json_data)
    (repr_float : spec_float -> string) (repr_str : string -> string)
    (table_records : list record) : list string :=
  let validation_errors :=
    validate_all (fields json_data) repr_float repr_str 1 table_records in
  let validation_errors :=
    if duplicate_field_check json_data
    then validation_errors ++ check_duplicates table_records
    else validation_errors in
  match validation_errors with
  | _ :: _ => "Validation Errors:" :: validation_errors
  | [] => ["Table data is valid according to JSON specifications."]
  end.

(** *** The embedded sample *)

Definition fixture_json : json_data :=
  {| fields :=
       <["FIELD1" :=
           {| size := 500; type := "alpha_numeric"; required := true;
              size_before_decimal := None; size_after_decimal := None;
              allowed_values := None; range := None; zero_check := false |}]>
       (<["FIELD2" :=
           {| size := 100; type := "alpha_numeric"; required := true;
              size_before_decimal := None; size_after_decimal := None;
              allowed_values := Some ["ValidText"; "XYZ789"];
              range := None; zero_check := false |}]>
       (<["FIELD_DEC1" :=
           {| size := 21; type := "decimal"; required := false;
              size_before_decimal := Some 10%Z; size_after_decimal := Some 10%Z;
              allowed_values := None; range := Some (Int 0, Int 1000);
              zero_check := false |}]>
       (<["FIELD_NUMERIC1" :=
           {| size := 21; type := "numeric"; required := false;
              size_before_decimal := None; size_after_decimal := None;
              allowed_values := None; range := None; zero_check := true |}]>
        ∅)));
     duplicate_field_check := true;
     columns := ["FIELD1"; "FIELD2"; "FIELD_DEC1"; "FIELD_NUMERIC1"] |}.

Definition table_data_str : string :=
"
FIELD1,FIELD2,FIELD_DEC1,FIELD_NUMERIC1
ABC123,XYZ789,123.45,9876543210
ABC123,XYZ789,123.45,9876543210
LONG_TEXT_EXCEEDING_LIMIT,ValidText,12.34,5678
,,456.78,90
Value123,InvalidValue,1500.99,0
".

End ValidatorNew.

(** ** The warehouse structural validator ([validator.py]) *)

Module Validator.
Import Py.

Record field : Type := {
  type : string;
  required : bool;
  size : Z;
  size_before_decimal : option nat;
  size_after_decimal : option nat
}.

Record template : Type := {
  fields : gmap string field;
  columns : list string;
  duplicate_field_check : bool
}.

(** A CSV read without type inference: every cell is text or NULL.  A
    row gives the cell of each column under the name that
    [csv_df.columns] has for it, which is the name [col(column)] is
    called with once the column sets have been compared. *)
Definition row : Type := list (string * option string).

Record dataframe : Type := {
  df_columns : list string;
  df_rows : list row
}.

Global Instance row_eq_dec : EqDecision row.
Proof. solve_decision. Defined.

(** The value of a column in a row. *)
Fixpoint cell (r : row) (column : string) : option string :=
  match r with
  | [] => None
  | (name, v) :: r' => if String.eqb name column then v else cell r' column
  end.

(** [df.filter(p)]: a row stays when the SQL condition is TRUE, and goes
    when it is FALSE or NULL. *)
Definition filter (p : row -> option bool) (df : dataframe) : dataframe :=
  {| df_columns := df_columns df;
     df_rows := List.filter (fun r => default false (p r)) (df_rows df) |}.

(** [df.count()] *)
Definition count (df : dataframe) : nat := length (df_rows df).

(** The conditions of the script, over [col(column)]. *)
Definition isNotNull (column : string) (r : row) : option bool :=
  Some (bool_decide (is_Some (cell r column))).

Definition isNull (column : string) (r : row) : option bool :=
  Some (bool_decide (cell r column = None)).

(** [~col(column).rlike(pattern)] *)
Definition not_rlike (column : string) (pattern : regex) (r : row) : option bool :=
  option_map (fun s => negb (rlike pattern s)) (cell r column).

(** [col(column).rlength()]: a [Column] has no attribute [rlength], so
    the look-up raises [AttributeError] in the client, before any
    condition is built or sent to the warehouse. *)
Definition rlength (column : string) : result (row -> option Z) :=
  Raise AttributeError.

(** [e > n] over a numeric column expression. *)
Definition gt (e : row -> option Z) (n : Z) (r : row) : option bool :=
  option_map (fun z => (z >? n)%Z) (e r).

Definition re_alpha_numeric : regex :=
  Seq Bol (Seq (Rep is_alnum 0 None) Eol).

(** [^[0-9]{0,before}(\.[0-9]{0,after})?$] *)
Definition re_decimal (before after : nat) : regex :=
  Seq Bol
    (Seq (Rep is_digit 0 (Some before))
       (Seq (Opt (Grp 1 (Seq (Chr ".") (Rep is_digit 0 (Some after))))) Eol)).

(** The grouping of the rows by all the CSV columns, counted where a
    group has more than one member: the number of distinct rows that
    occur more than once. *)
Definition duplicate_count (df : dataframe) : nat :=
  length (List.filter (fun r => (1 <? count_occ row_eq_dec (df_rows df) r)%nat)
            (nodup row_eq_dec (df_rows df))).

(** The session: the CSV files that can be read and the columns of the
    warehouse tables. *)
Record session : Type := {
  files : gmap string dataframe;
  tables : gmap string (list string)
}.

Definition read_csv (s : session) (file_name : string) : result dataframe :=
  match files s !! file_name with
  | Some df => Ok df
  | None => Raise SQLError
  end.

Definition table_columns (s : session) (table_name : string) : result (list string) :=
  match tables s !! table_name with
  | Some cols => Ok cols
  | None => Raise SQLError
  end.

(** What the function prints before it returns. *)
Inductive report : Type :=
| ColumnsDoNotMatch (csv_columns expected_columns : list string)
| NotInTemplate (column : string)
| MissingColumn (column : string)
| InvalidAlphaNumeric (column : string)
| ExceedsSizeLimit (column : string) (column_size : Z)
| BadDecimalFormat (column : string) (size_before_decimal size_after_decimal : nat)
| RequiredHasNulls (column : string) (null_count : nat)
| DuplicateRows
| TableColumnsDoNotMatch (snowflake_columns csv_columns : list string)
| Valid.

Definition same_set (a b : list string) : bool :=
  bool_decide (list_to_set a =@{gset string} list_to_set b).

(** Step 3a for one column: [inl] is a failed check, [inr] the data frame
    the function goes on with; the size check faults where it builds its
    condition. *)
Definition check_type (column : string) (field : field) (csv_df : dataframe)
    : result (report + dataframe) :=
  let column_size := size field in
  if String.eqb (type field) "alpha_numeric" then
    let csv_df := filter (isNotNull column) csv_df in
    let invalid_alpha_numeric := count (filter (not_rlike column re_alpha_numeric) csv_df) in
    if (0 <? invalid_alpha_numeric)%nat then Ok (inl (InvalidAlphaNumeric column))
    else
      bind (rlength column) (fun rlen =>
        let invalid_size := count (filter (gt rlen column_size) csv_df) in
        if (0 <? invalid_size)%nat then Ok (inl (ExceedsSizeLimit column column_size))
        else Ok (inr csv_df))
  else if String.eqb (type field) "decimal" then
    let size_before_decimal := default 0%nat (size_before_decimal field) in
    let size_after_decimal := default 0%nat (size_after_decimal field) in
    let invalid_decimal :=
      count (filter (not_rlike column (re_decimal size_before_decimal size_after_decimal))
               csv_df) in
    if (0 <? invalid_decimal)%nat
    then Ok (inl (BadDecimalFormat column size_before_decimal size_after_decimal))
    else
      bind (rlength column) (fun rlen =>
        let invalid_size := count (filter (gt rlen column_size) csv_df) in
        if (0 <? invalid_size)%nat then Ok (inl (ExceedsSizeLimit column column_size))
        else Ok (inr csv_df))
  else Ok (inr csv_df).

(** Step 3, the loop over [expected_columns]. *)
Fixpoint check_columns (fields : gmap string field) (csv_columns : list string)
    (expected_columns : list string) (csv_df : dataframe)
    : result (report + dataframe) :=
  match expected_columns with
  | [] => Ok (inr csv_df)
  | column :: expected_columns' =>
      match fields !! column with
      | None => Ok (inl (NotInTemplate column))
      | Some field =>
          if negb (bool_decide (column ∈ csv_columns))
          then Ok (inl (MissingColumn column))
          else
            match check_type column field csv_df with
            | Raise e => Raise e
            | Ok (inl failed) => Ok (inl failed)
            | Ok (inr csv_df) =>
                let null_count := count (filter (isNull column) csv_df) in
                if required field && (0 <? null_count)%nat
                then Ok (inl (RequiredHasNulls column null_count))
                else check_columns fields csv_columns expected_columns' csv_df
            end
      end
  end.

(** [validate_csv_against_table], from the parsed template on: the
    verdict, with what was printed. *)
Definition validate_csv_against_table (file_name table_name : string)
    (template : template) (s : session) : result (bool * report) :=
  let expected_columns := columns template in
  match expected_columns with
  | [] => Raise ValueError
  | _ :: _ =>
      bind (read_csv s file_name) (fun csv_df =>
        let csv_columns := df_columns csv_df in
        if negb (same_set expected_columns csv_columns)
        then Ok (false, ColumnsDoNotMatch csv_columns expected_columns)
        else
          bind (check_columns (fields template) csv_columns expected_columns csv_df)
            (fun checked =>
               match checked with
               | inl failed => Ok (false, failed)
               | inr csv_df =>
                   if duplicate_field_check template && (0 <? duplicate_count csv_df)%nat
                   then Ok (false, DuplicateRows)
                   else
                     bind (table_columns s table_name) (fun snowflake_columns =>
                       if negb (same_set csv_columns snowflake_columns)
                       then Ok (false, TableColumnsDoNotMatch snowflake_columns csv_columns)
                       else Ok (true, Valid))
               end))
  end.

End Validator.

(** ** Readings of the specification

    The notions the properties below are stated with. *)

Module Spec.
Import Py.

(** [s] is [w], possibly followed by one line feed. *)
Definition ends_line (w s : string) : Prop :=
  s = w \/ s = w +:+ String LF EmptyString.

Definition at_most (n : nat) (hi : option nat) : Prop :=
  match hi with
  | Some h => n <= h
  | None => True
  end.

(** [w] consists of between [lo] and [hi] characters of the class. *)
Definition run_of (cls : ascii -> bool) (lo : nat) (hi : option nat)
    (w : string) : Prop :=
  all_chars cls w = true /\ lo <= String.length w /\ at_most (String.length w) hi.

(** Integer digits, then possibly a point and fraction digits. *)
Definition decimal_text (ip : string) (fp : option string) : string :=
  ip +:+ match fp with
         | Some d => "." +:+ d
         | None => EmptyString
         end.

Definition frac_len (fp : option string) : nat :=
  match fp with
  | Some d => String.length d
  | None => 0
  end.

(** The whole of [value] is a decimal numeral whose parts respect the
    two digit limits. *)
Definition wholly_decimal (value : string) (before_decimal after_decimal : Z)
    : Prop :=
  exists ip fp,
    value = decimal_text ip fp
    /\ run_of is_digit 1 None ip
    /\ (forall d, fp = Some d -> run_of is_digit 1 None d)
    /\ (Z.of_nat (String.length ip) <= before_decimal)%Z
    /\ (Z.of_nat (frac_len fp) <= after_decimal)%Z.

(** What follows the longest run of a class does not start in it. *)
Definition stops (p : ascii -> bool) (rest : string) : Prop :=
  match rest with
  | String a _ => p a = false
  | EmptyString => True
  end.

Definition within (n : nat) (hi : option nat) : bool :=
  match hi with
  | Some h => (n <=? h)%nat
  | None => true
  end.

(** The outcome of [(\.\d{1,hi})?$] as group [n], on the subject [r]
    with the captures [c] made before it. *)
Definition fraction_match (n : nat) (hi : option nat) (r : string)
    (c : captures) : option captures :=
  match r with
  | String b r' =>
      if Ascii.eqb "." b then
        let w := take_while is_digit r' in
        if (1 <=? String.length w)%nat && within (String.length w) hi
           && at_eol (drop_while is_digit r')
        then Some ((n, String "." w) :: c)
        else None
      else if at_eol r then Some c else None
  | EmptyString => Some c
  end.

(** The text and the capture of an optional fraction. *)
Definition frac_text (fp : option string) : string :=
  match fp with
  | Some d => String "." d
  | None => EmptyString
  end.

Definition frac_caps (n : nat) (fp : option string) : captures :=
  match fp with
  | Some d => [(n, String "." d)]
  | None => []
  end.

(** The outcome of [^\d{1,hi1}(\.\d{1,hi2})?$] on [s], the integer part
    leaving the captures [c]. *)
Definition decimal_match (hi1 hi2 : option nat) (n : nat) (c : string -> captures)
    (s : string) : option captures :=
  let w := take_while is_digit s in
  if (1 <=? String.length w)%nat && within (String.length w) hi1
  then fraction_match n hi2 (drop_while is_digit s) (c w)
  else None.

(** The record at the 1-based position [i] has the content of an
    earlier record. *)
Definition repeats_earlier (records : list ValidatorNew.record) (i : nat) : Prop :=
  exists j r,
    1 <= i /\ j < i - 1
    /\ records !! j = Some r /\ records !! (i - 1) = Some r.

(** The positions, from [i] on, of the records of [rs] that repeat a
    record of [pre] or an earlier one of [rs]. *)
Fixpoint repeat_positions (i : nat) (pre rs : list ValidatorNew.record)
    : list nat :=
  match rs with
  | [] => []
  | r :: rs' =>
      (if bool_decide (r ∈ pre) then [i] else [])
      ++ repeat_positions (S i) (pre ++ [r]) rs'
  end.

(** What [validate_record] appends for one item of the record. *)
Definition item_violations (field_definitions : gmap string ValidatorNew.field_spec)
    (item : string * string) : list ValidatorNew.violation :=
  ValidatorNew.validate_item field_definitions [] item.

Definition is_required_missing (field : string) (v : ValidatorNew.violation) : bool :=
  match v with
  | ValidatorNew.RequiredMissing f => String.eqb f field
  | _ => false
  end.

(** The number of required-field violations for [field]. *)
Definition required_count (field : string) (l : list ValidatorNew.violation) : nat :=
  length (List.filter (is_required_missing field) l).

(** [min_val <= num_value <= max_val] *)
Definition inside (min_val max_val : number) (num_value : spec_float) : Prop :=
  num_le min_val (Float num_value) = true /\ num_le (Float num_value) max_val = true.

(** What [validate_data] appends for a field whose value is the text [s]. *)
Definition text_errors (field : string) (rule : FileValidation.field_rule)
    (s : string) : list FileValidation.error :=
  (if FileValidation.required rule && negb (nonempty s)
   then [FileValidation.RequiredNull field] else [])
  ++ (if String.eqb (FileValidation.type rule) "alpha_numeric"
         && (FileValidation.len s >? default 0%Z (FileValidation.size rule))%Z
      then [FileValidation.ExceedsSize field] else [])
  ++ (if matched (re_match (default Empty (FileValidation.patterns (FileValidation.type rule))) s)
      then [] else [FileValidation.PatternMismatch field (FileValidation.type rule)]).

(** A value that is not a [str]. *)
Definition non_text (v : FileValidation.value) : Prop :=
  match v with
  | FileValidation.VStr _ => False
  | _ => True
  end.

Definition is_required_null (field : string) (e : FileValidation.error) : bool :=
  match e with
  | FileValidation.RequiredNull f => String.eqb f field
  | _ => false
  end.

(** The number of required-field violations for [field]. *)
Definition required_null_count (field : string) (l : list FileValidation.error) : nat :=
  length (List.filter (is_required_null field) l).

(** The row supplies the empty string for [field]. *)
Definition supplies_empty (field : string) (r : FileValidation.row) : bool :=
  match FileValidation.row_get r field with
  | Some (FileValidation.VStr s) => negb (nonempty s)
  | _ => false
  end.

(** The key, in a collected row, of the flag column that the duplicate
    check derives from a column: the identifier that the name
    [<column>_duplicate] stands for, in upper case when the name needs no
    quotes. *)
Definition flag_name (c : string) : string :=
  FileValidation.identifier (c +:+ "_duplicate").

(** The errors of one row of text values, field by field in the order
    of the rules. *)
Definition row_text_errors (rules : list (string * FileValidation.field_rule))
    (r : FileValidation.row) : list FileValidation.error :=
  flat_map (fun fr =>
              match FileValidation.row_get r (fst fr) with
              | Some (FileValidation.VStr s) => text_errors (fst fr) (snd fr) s
              | _ => []
              end) rules.

(** Every cell of the row that a rule looks at holds text. *)
Definition text_only (rules : list (string * FileValidation.field_rule))
    (r : FileValidation.row) : Prop :=
  forall f v, f ∈ List.map fst rules -> FileValidation.row_get r f = Some v ->
              exists s, v = FileValidation.VStr s.

(** The trimmed value [t] passes every check of its rule. *)
Definition value_ok (spec : ValidatorNew.field_spec) (t : string) : Prop :=
  (ValidatorNew.required spec = true -> t <> EmptyString)
  /\ (ValidatorNew.len t <= ValidatorNew.size spec)%Z
  /\ (t <> EmptyString ->
      (ValidatorNew.type spec = "alpha_numeric" -> all_chars is_alnum t = true)
      /\ (ValidatorNew.type spec = "numeric" -> all_chars is_digit t = true)
      /\ (ValidatorNew.type spec = "decimal" ->
          wholly_decimal t
            (default 10%Z (ValidatorNew.size_before_decimal spec))
            (default 10%Z (ValidatorNew.size_after_decimal spec)))
      /\ (forall lo hi, ValidatorNew.range spec = Some (lo, hi) ->
          exists x, float t = Ok x /\ inside lo hi x)
      /\ (forall allowed, ValidatorNew.allowed_values spec = Some allowed ->
          t ∈ allowed))
  /\ (ValidatorNew.zero_check spec = true -> t <> "0").

(** The item names a field that has a rule, and its trimmed value passes
    every check of that rule. *)
Definition item_ok (field_definitions : gmap string ValidatorNew.field_spec)
    (item : string * string) : Prop :=
  exists spec,
    field_definitions !! fst item = Some spec
    /\ value_ok spec (strip (snd item)).

(** The violations that a text value can show. *)
Definition of_text (e : FileValidation.error) : bool :=
  match e with
  | FileValidation.RequiredNull _ | FileValidation.ExceedsSize _
  | FileValidation.PatternMismatch _ _ => true
  | _ => false
  end.

(** The rule has a type for which the structural validator makes
    neither the pattern nor the size check. *)
Definition unchecked (f : Validator.field) : Prop :=
  Validator.type f <> "alpha_numeric" /\ Validator.type f <> "decimal".

(** The number of rows that have a NULL in the column. *)
Definition null_rows (c : string) (df : Validator.dataframe) : nat :=
  length (List.filter (fun r => bool_decide (Validator.cell r c = None))
            (Validator.df_rows df)).

(** Some row has a value in the column that the pattern does not cover. *)
Definition mismatch (c : string) (pattern : regex) (df : Validator.dataframe) : Prop :=
  exists r s, r ∈ Validator.df_rows df /\ Validator.cell r c = Some s
              /\ rlike pattern s = false.

End Spec.

(** * Properties *)

Import Py Spec.

(** ** Strings and patterns *)

Lemma append_nil_r (s : string) : s +:+ EmptyString = s.
Proof. induction s as [|a s IH]; simpl; [reflexivity | now rewrite IH]. Qed.

Lemma append_assoc (a b c : string) : (a +:+ b) +:+ c = a +:+ (b +:+ c).
Proof. induction a as [|x a IH]; simpl; [reflexivity | now rewrite IH]. Qed.

Lemma length_append (a b : string) :
  String.length (a +:+ b) = String.length a + String.length b.
Proof. induction a as [|x a IH]; simpl; [reflexivity | now rewrite IH]. Qed.

Lemma take_drop_while (p : ascii -> bool) (s : string) :
  take_while p s +:+ drop_while p s = s.
Proof.
  induction s as [|a s IH]; simpl; [reflexivity|].
  destruct (p a); simpl; [now rewrite IH | reflexivity].
Qed.

Lemma all_chars_take_while (p : ascii -> bool) (s : string) :
  all_chars p (take_while p s) = true.
Proof.
  induction s as [|a s IH]; simpl; [reflexivity|].
  destruct (p a) eqn:E; simpl; [now rewrite E | reflexivity].
Qed.

Lemma stops_drop_while (p : ascii -> bool) (s : string) :
  stops p (drop_while p s).
Proof.
  induction s as [|a s IH]; simpl; [exact I|].
  destruct (p a) eqn:E; simpl; [exact IH | exact E].
Qed.

Lemma take_while_append (p : ascii -> bool) (w rest : string) :
  all_chars p w = true -> stops p rest ->
  take_while p (w +:+ rest) = w /\ drop_while p (w +:+ rest) = rest.
Proof.
  intros Hw Hr. induction w as [|a w IH]; simpl in *.
  - destruct rest as [|b rest]; simpl in *; [auto|]. now rewrite Hr.
  - apply andb_prop in Hw as [Ha Hw]. rewrite Ha.
    destruct (IH Hw) as [-> ->]. auto.
Qed.

Lemma substring_take_while (p : ascii -> bool) (s : string) :
  substring 0 (String.length (take_while p s)) s = take_while p s.
Proof.
  induction s as [|a s IH]; simpl; [reflexivity|].
  destruct (p a); simpl; [now rewrite IH | reflexivity].
Qed.

(** A counted repetition whose continuation refuses a subject that
    starts in the class takes the longest run, or nothing. *)
Lemma rep_span {A : Type} (cls : ascii -> bool) (lo : nat) (hi : option nat)
    (k : nat -> string -> option A) :
  (forall p a r, cls a = true -> k p (String a r) = None) ->
  forall rest n pos,
    within n hi = true ->
    rep cls lo hi n pos rest k =
      let w := take_while cls rest in
      let m := n + String.length w in
      if (lo <=? m)%nat && within m hi
      then k (pos + String.length w) (drop_while cls rest)
      else None.
Proof.
  intros Hk rest. induction rest as [|a rest IH]; intros n pos Hn; simpl.
  - rewrite !Nat.add_0_r, Hn, andb_true_r. reflexivity.
  - destruct (cls a) eqn:Ea; simpl.
    + destruct (below n hi) eqn:Eb.
      * assert (Hn' : within (S n) hi = true).
        { destruct hi as [h|]; [|reflexivity]. unfold within, below in *.
          apply Nat.leb_le. apply Nat.ltb_lt in Eb. lia. }
        rewrite (IH (S n) (S pos) Hn'). cbv zeta.
        replace (S n + String.length (take_while cls rest))
          with (n + S (String.length (take_while cls rest))) by lia.
        replace (S pos + String.length (take_while cls rest))
          with (pos + S (String.length (take_while cls rest))) by lia.
        destruct ((lo <=? n + S (String.length (take_while cls rest)))%nat
                  && within (n + S (String.length (take_while cls rest))) hi).
        -- destruct (k _ _); [reflexivity|].
           rewrite Hk by exact Ea. now destruct (lo <=? n)%nat.
        -- rewrite Hk by exact Ea. now destruct (lo <=? n)%nat.
      * rewrite Hk by exact Ea.
        destruct hi as [h|]; [|discriminate]. unfold within, below in *.
        apply Nat.ltb_ge in Eb. apply Nat.leb_le in Hn.
        replace (n + S (String.length (take_while cls rest)) <=? h)%nat with false
          by (symmetry; apply Nat.leb_gt; lia).
        rewrite andb_false_r. now destruct (lo <=? n)%nat.
    + rewrite !Nat.add_0_r, Hn, andb_true_r. reflexivity.
Qed.

Lemma at_eol_spec (rest : string) :
  at_eol rest = true <-> rest = EmptyString \/ rest = String LF EmptyString.
Proof.
  destruct rest as [|a [|b rest]]; simpl.
  - intuition.
  - rewrite Ascii.eqb_eq. split.
    + intros ->. now right.
    + intros [H|H]; [discriminate | now inversion H].
  - split; [discriminate | intros [H|H]; discriminate].
Qed.

Lemma at_eol_class (cls : ascii -> bool) (a : ascii) (r : string) :
  cls LF = false -> cls a = true -> at_eol (String a r) = false.
Proof.
  intros HLF Ha. destruct r; simpl; [|reflexivity].
  apply Ascii.eqb_neq. intros ->. congruence.
Qed.

Lemma within_at_most (n : nat) (hi : option nat) :
  within n hi = true <-> at_most n hi.
Proof. destruct hi; simpl; [apply Nat.leb_le | tauto]. Qed.

(** The value of [re.match] on [^cls{lo,hi}$]. *)
Lemma match_line (cls : ascii -> bool) (lo : nat) (hi : option nat) (s : string) :
  cls LF = false ->
  matched (re_match (Seq Bol (Seq (Rep cls lo hi) Eol)) s) =
    (lo <=? String.length (take_while cls s))%nat
    && within (String.length (take_while cls s)) hi
    && at_eol (drop_while cls s).
Proof.
  intros HLF. unfold re_match. simpl.
  rewrite rep_span.
  - cbv zeta. simpl.
    destruct ((lo <=? _)%nat && within _ hi); simpl; [|reflexivity].
    now destruct (at_eol _).
  - intros p a r Ha. now rewrite (at_eol_class cls a r HLF Ha).
  - now destruct hi.
Qed.

Lemma line_spec (cls : ascii -> bool) (lo : nat) (hi : option nat) (s : string) :
  cls LF = false ->
  (lo <=? String.length (take_while cls s))%nat
  && within (String.length (take_while cls s)) hi
  && at_eol (drop_while cls s) = true
  <-> exists w, ends_line w s /\ run_of cls lo hi w.
Proof.
  intros HLF. rewrite !andb_true_iff, Nat.leb_le, within_at_most, at_eol_spec.
  split.
  - intros [[Hlo Hhi] Hend]. exists (take_while cls s). split.
    + pose proof (take_drop_while cls s) as E.
      destruct Hend as [H | H]; rewrite H in E; [left | right]; [|now symmetry].
      now rewrite append_nil_r in E.
    + split; [apply all_chars_take_while | split; assumption].
  - intros (w & Hend & Hall & Hlo & Hhi).
    assert (E : exists nl, s = w +:+ nl /\ stops cls nl
                           /\ (nl = EmptyString \/ nl = String LF EmptyString)).
    { destruct Hend as [-> | ->].
      - exists EmptyString. rewrite append_nil_r. simpl. auto.
      - exists (String LF EmptyString). simpl. auto. }
    destruct E as (nl & -> & Hstop & Hnl).
    destruct (take_while_append cls w nl Hall Hstop) as [-> ->]. auto.
Qed.

Lemma is_digit_LF : is_digit LF = false.
Proof. reflexivity. Qed.

Lemma is_alnum_LF : is_alnum LF = false.
Proof. reflexivity. Qed.

Lemma is_digit_not_point (a : ascii) : is_digit a = true -> Ascii.eqb "." a = false.
Proof.
  intros Ha. apply Ascii.eqb_neq. intros <-. discriminate.
Qed.

(** An optional fraction in group [n], then the end of the line. *)
Lemma exec_fraction (n : nat) (hi : option nat) (p : nat) (r : string) (c : captures) :
  exec (Seq (Opt (Grp n (Seq (Chr ".") (Rep is_digit 1 hi)))) Eol) p r c
    (fun _ _ c' => Some c')
  = fraction_match n hi r c.
Proof.
  remember (fraction_match n hi r c) as R eqn:HR. cbn [exec].
  destruct r as [|b r']; [now subst R|].
  destruct (Ascii.eqb "." b) eqn:Eb.
  - apply Ascii.eqb_eq in Eb. subst b.
    rewrite rep_span.
    + cbv zeta. simpl Nat.add.
      replace (S (p + String.length (take_while is_digit r')) - p)
        with (S (String.length (take_while is_digit r'))) by lia.
      simpl substring. rewrite substring_take_while.
      assert (Hp : at_eol (String "." r') = false) by now destruct r'.
      rewrite Hp. subst R. unfold fraction_match.
      replace (Ascii.eqb "." ".") with true by reflexivity. cbv zeta.
      set (A := (1 <=? _)%nat && within _ hi).
      now destruct A, (at_eol (drop_while is_digit r')).
    + intros q a r0 Ha. now rewrite (at_eol_class is_digit a r0 is_digit_LF Ha).
    + now destruct hi.
  - subst R. unfold fraction_match. now rewrite Eb.
Qed.

Lemma fraction_match_digit (n : nat) (hi : option nat) (a : ascii) (r : string)
    (c : captures) :
  is_digit a = true -> fraction_match n hi (String a r) c = None.
Proof.
  intros Ha. unfold fraction_match.
  rewrite (is_digit_not_point a Ha).
  now rewrite (at_eol_class is_digit a r is_digit_LF Ha).
Qed.

Lemma decimal_text_frac (ip : string) (fp : option string) :
  decimal_text ip fp = ip +:+ frac_text fp.
Proof. now destruct fp. Qed.

Lemma line_end_cases (nl : string) :
  nl = EmptyString \/ nl = String LF EmptyString ->
  stops is_digit nl /\ at_eol nl = true /\ Ascii.eqb "." (match nl with
                                                          | String a _ => a
                                                          | EmptyString => LF
                                                          end) = false.
Proof. intros [-> | ->]; repeat split. Qed.

Lemma fraction_match_spec (n : nat) (hi : option nat) (r : string)
    (c m : captures) :
  fraction_match n hi r c = Some m
  <-> exists fp nl,
        r = frac_text fp +:+ nl
        /\ (nl = EmptyString \/ nl = String LF EmptyString)
        /\ (forall d, fp = Some d -> run_of is_digit 1 hi d)
        /\ m = frac_caps n fp ++ c.
Proof.
  unfold fraction_match. split.
  - destruct r as [|b r'].
    + intros [= <-]. exists None, EmptyString.
      split; [reflexivity|]. split; [now left|]. split; [discriminate|reflexivity].
    + destruct (Ascii.eqb "." b) eqn:Eb.
      * apply Ascii.eqb_eq in Eb. subst b. cbv zeta.
        destruct (_ && _) eqn:E; [|discriminate]. intros [= <-].
        apply andb_prop in E as [E Heol]. apply andb_prop in E as [Hlo Hhi].
        exists (Some (take_while is_digit r')), (drop_while is_digit r').
        simpl. rewrite take_drop_while.
        split; [reflexivity|]. split; [now apply at_eol_spec|].
        split; [|reflexivity].
        intros d [= <-]. split; [apply all_chars_take_while|].
        split; [now apply Nat.leb_le | now apply within_at_most].
      * destruct (at_eol (String b r')) eqn:Heol; [|discriminate]. intros [= <-].
        exists None, (String b r'). simpl.
        split; [reflexivity|]. split; [now apply at_eol_spec|].
        split; [discriminate|reflexivity].
  - intros (fp & nl & -> & Hnl & Hfp & ->).
    destruct (line_end_cases nl Hnl) as (Hstop & Heol & Hpt).
    destruct fp as [d|]; cbn [frac_text frac_caps String.append].
    + destruct (Hfp d eq_refl) as (Hall & Hlo & Hhi).
      rewrite Ascii.eqb_refl. cbv zeta.
      destruct (take_while_append is_digit d nl Hall Hstop) as [-> ->].
      apply Nat.leb_le in Hlo. apply within_at_most in Hhi.
      now rewrite Hlo, Hhi, Heol.
    + destruct nl as [|a nl']; [reflexivity|].
      now rewrite Hpt, Heol.
Qed.

Lemma stops_frac (fp : option string) (nl : string) :
  nl = EmptyString \/ nl = String LF EmptyString ->
  stops is_digit (frac_text fp +:+ nl).
Proof.
  intros Hnl. destruct fp as [d|]; simpl; [reflexivity|].
  now destruct Hnl as [-> | ->].
Qed.

Lemma decimal_match_spec (hi1 hi2 : option nat) (n : nat)
    (c : string -> captures) (s : string) (m : captures) :
  decimal_match hi1 hi2 n c s = Some m
  <-> exists ip fp nl,
        s = decimal_text ip fp +:+ nl
        /\ (nl = EmptyString \/ nl = String LF EmptyString)
        /\ run_of is_digit 1 hi1 ip
        /\ (forall d, fp = Some d -> run_of is_digit 1 hi2 d)
        /\ m = frac_caps n fp ++ c ip.
Proof.
  unfold decimal_match. cbv zeta. split.
  - destruct (_ && _) eqn:E; [|discriminate].
    apply andb_prop in E as [Hlo Hhi].
    intros H. apply fraction_match_spec in H as (fp & nl & Hr & Hnl & Hfp & ->).
    exists (take_while is_digit s), fp, nl.
    split; [|split; [assumption|split; [|split; [assumption|reflexivity]]]].
    + rewrite decimal_text_frac, append_assoc, <- Hr. symmetry.
      apply take_drop_while.
    + split; [apply all_chars_take_while|].
      split; [now apply Nat.leb_le | now apply within_at_most].
  - intros (ip & fp & nl & -> & Hnl & (Hall & Hlo & Hhi) & Hfp & ->).
    rewrite decimal_text_frac, append_assoc.
    destruct (take_while_append is_digit ip _ Hall (stops_frac fp nl Hnl)) as [-> ->].
    apply Nat.leb_le in Hlo. apply within_at_most in Hhi. rewrite Hlo, Hhi. simpl.
    apply fraction_match_spec. exists fp, nl. auto.
Qed.

Lemma re_match_pipeline_decimal (s : string) :
  re_match FileValidation.pattern_decimal s
  = decimal_match (Some 10) (Some 10) 1 (fun _ => []) s.
Proof.
  change (re_match FileValidation.pattern_decimal s)
    with (rep is_digit 1 (Some 10) 0 0 s
            (fun p r' =>
               exec (Seq (Opt (Grp 1 (Seq (Chr ".") (Rep is_digit 1 (Some 10))))) Eol)
                 p r' [] (fun _ _ c => Some c))).
  unfold decimal_match. rewrite rep_span.
  - cbv zeta. simpl Nat.add. destruct (_ && _); [|reflexivity].
    apply exec_fraction.
  - intros p a r Ha. rewrite exec_fraction. now apply fraction_match_digit.
  - reflexivity.
Qed.

Lemma re_match_standalone_decimal (s : string) :
  re_match ValidatorNew.re_decimal s
  = decimal_match None None 2 (fun w => [(1, w)]) s.
Proof.
  change (re_match ValidatorNew.re_decimal s)
    with (rep is_digit 1 None 0 0 s
            (fun p r' =>
               exec (Seq (Opt (Grp 2 (Seq (Chr ".") (Rep is_digit 1 None)))) Eol)
                 p r' [(1, substring 0 (p - 0) s)] (fun _ _ c => Some c))).
  unfold decimal_match. rewrite rep_span.
  - cbv zeta. simpl Nat.add. rewrite Nat.sub_0_r, substring_take_while.
    destruct (_ && _); [|reflexivity].
    apply exec_fraction.
  - intros p a r Ha. rewrite exec_fraction. now apply fraction_match_digit.
  - reflexivity.
Qed.

Lemma all_chars_append (p : ascii -> bool) (a b : string) :
  all_chars p (a +:+ b) = all_chars p a && all_chars p b.
Proof.
  induction a as [|x a IH]; simpl; [reflexivity|].
  now rewrite IH, andb_assoc.
Qed.

Lemma all_chars_weaken (p q : ascii -> bool) (s : string) :
  (forall a, p a = true -> q a = true) ->
  all_chars p s = true -> all_chars q s = true.
Proof.
  intros Hpq. induction s as [|a s IH]; simpl; [reflexivity|].
  intros H. apply andb_prop in H as [Ha Hs]. now rewrite (Hpq a Ha), IH.
Qed.

(** A decimal numeral holds digits and points only. *)
Lemma wholly_decimal_chars (value : string) (b a : Z) :
  wholly_decimal value b a ->
  all_chars (fun c => is_digit c || Ascii.eqb c ".") value = true.
Proof.
  intros (ip & fp & -> & (Hip & _) & Hfp & _).
  rewrite decimal_text_frac, all_chars_append.
  apply andb_true_intro. split.
  - apply (all_chars_weaken is_digit); [|exact Hip].
    intros c ->. reflexivity.
  - destruct fp as [d|]; [|reflexivity]. simpl.
    destruct (Hfp d eq_refl) as (Hd & _).
    apply (all_chars_weaken is_digit); [|exact Hd].
    intros c ->. reflexivity.
Qed.

(** ** [check_pattern] (warehouse pipeline) *)

Lemma check_pattern_line (cls : ascii -> bool) (lo : nat) (hi : option nat)
    (s : string) :
  cls LF = false ->
  matched (re_match (Seq Bol (Seq (Rep cls lo hi) Eol)) s) = true
  <-> exists w, ends_line w s /\ run_of cls lo hi w.
Proof.
  intros HLF. rewrite match_line by exact HLF. now apply line_spec.
Qed.

Lemma ok_inj {A : Type} (x y : A) : Ok x = Ok y <-> x = y.
Proof. split; [now intros [= ->] | now intros ->]. Qed.

Lemma matched_true (m : option captures) :
  matched m = true <-> exists c, m = Some c.
Proof.
  destruct m as [c|]; simpl; split; eauto; try discriminate.
  intros [c H]. discriminate.
Qed.

Lemma ends_line_append (w s : string) :
  ends_line w s
  <-> exists nl, s = w +:+ nl /\ (nl = EmptyString \/ nl = String LF EmptyString).
Proof.
  unfold ends_line. split.
  - intros [-> | ->].
    + exists EmptyString. now rewrite append_nil_r; auto.
    + exists (String LF EmptyString). auto.
  - intros (nl & -> & [-> | ->]); [left | right]; [|reflexivity].
    now rewrite append_nil_r.
Qed.

Lemma patterns_unknown (t : string) :
  t <> "alpha_numeric" -> t <> "numeric" -> t <> "decimal" ->
  FileValidation.patterns t = None.
Proof.
  intros H1 H2 H3. unfold FileValidation.patterns.
  apply String.eqb_neq in H1, H2, H3. now rewrite H1, H2, H3.
Qed.

(** C3 is refuted as stated: a field type outside the three known ones
    falls back to the empty pattern, and the empty pattern matches at the
    start of every string, so [check_pattern] answers true. *)
Lemma check_pattern_unknown_type_matches :
  FileValidation.patterns "boolean" = None
  /\ FileValidation.check_pattern (FileValidation.VStr "abc") "boolean" = Ok true.
Proof. split; reflexivity. Qed.

(** C3 (amended): on a [str] value, [check_pattern] answers true exactly
    when the value, up to one final line feed that [$] lets through, is
    one or more alphanumeric characters for [alpha_numeric] (so the empty
    string is refused), one or more digits for [numeric], 1 to 10 digits
    with an optional point and 1 to 10 digits for [decimal]; and for every
    other field type it answers true. *)
Theorem check_pattern_on_text (s : string) :
  (FileValidation.check_pattern (FileValidation.VStr s) "alpha_numeric" = Ok true
   <-> exists w, ends_line w s /\ run_of is_alnum 1 None w)
  /\ FileValidation.check_pattern (FileValidation.VStr "") "alpha_numeric" = Ok false
  /\ (FileValidation.check_pattern (FileValidation.VStr s) "numeric" = Ok true
      <-> exists w, ends_line w s /\ run_of is_digit 1 None w)
  /\ (FileValidation.check_pattern (FileValidation.VStr s) "decimal" = Ok true
      <-> exists ip fp,
            ends_line (decimal_text ip fp) s
            /\ run_of is_digit 1 (Some 10) ip
            /\ (forall d, fp = Some d -> run_of is_digit 1 (Some 10) d))
  /\ (forall t, FileValidation.patterns t = None ->
        FileValidation.check_pattern (FileValidation.VStr s) t = Ok true)
  /\ (forall t, t <> "alpha_numeric" -> t <> "numeric" -> t <> "decimal" ->
        FileValidation.patterns t = None).
Proof.
  split; [|split; [reflexivity|split; [|split; [|split]]]].
  - unfold FileValidation.check_pattern. simpl. rewrite ok_inj.
    apply check_pattern_line. exact is_alnum_LF.
  - unfold FileValidation.check_pattern. simpl. rewrite ok_inj.
    apply check_pattern_line. exact is_digit_LF.
  - unfold FileValidation.check_pattern. simpl default. rewrite ok_inj.
    rewrite re_match_pipeline_decimal, matched_true. split.
    + intros [c H]. apply decimal_match_spec in H as (ip & fp & nl & Hs & Hnl & Hip & Hfp & _).
      exists ip, fp. split; [|split; assumption].
      apply ends_line_append. eauto.
    + intros (ip & fp & Hs & Hip & Hfp).
      apply ends_line_append in Hs as (nl & Hs & Hnl).
      exists (frac_caps 1 fp ++ []). apply decimal_match_spec.
      exists ip, fp, nl. auto.
  - intros t Ht. unfold FileValidation.check_pattern. rewrite Ht. reflexivity.
  - exact patterns_unknown.
Qed.

(** The fallback at work on a type the table does not list. *)
Lemma check_pattern_on_text_witness :
  FileValidation.check_pattern (FileValidation.VStr "12-34") "date" = Ok true.
Proof.
  destruct (check_pattern_on_text "12-34") as (_ & _ & _ & _ & H & Hnone).
  apply H. apply Hnone; discriminate.
Defined.

(** ** [is_decimal] (standalone validator) *)

Lemma group_frac_caps (fp : option string) (w : string) :
  group (frac_caps 2 fp ++ [(1, w)]) 1 = Some w
  /\ group (frac_caps 2 fp ++ [(1, w)]) 2 = option_map (String ".") fp.
Proof. destruct fp; split; reflexivity. Qed.

(** [is_decimal] on a subject that has the shape of the pattern. *)
Lemma is_decimal_on_match (ip : string) (fp : option string) (nl : string) (b a : Z) :
  (nl = EmptyString \/ nl = String LF EmptyString) ->
  run_of is_digit 1 None ip ->
  (forall d, fp = Some d -> run_of is_digit 1 None d) ->
  ValidatorNew.is_decimal (decimal_text ip fp +:+ nl) b a
  = (Z.of_nat (String.length ip) <=? b)%Z && (Z.of_nat (frac_len fp) <=? a)%Z.
Proof.
  intros Hnl Hip Hfp. unfold ValidatorNew.is_decimal.
  rewrite re_match_standalone_decimal.
  assert (H : decimal_match None None 2 (fun w => [(1, w)])
                (decimal_text ip fp +:+ nl) = Some (frac_caps 2 fp ++ [(1, ip)])).
  { apply decimal_match_spec. exists ip, fp, nl. auto. }
  rewrite H. destruct (group_frac_caps fp ip) as [-> ->].
  destruct fp as [d|]; reflexivity.
Qed.

(** C8 is refuted as stated: [$] also matches just before a final line
    feed, so a numeral followed by a line feed is accepted although the
    whole of it is no decimal numeral. *)
Lemma is_decimal_trailing_newline :
  ValidatorNew.is_decimal (String "1" (String LF EmptyString)) 10 10 = true
  /\ ~ wholly_decimal (String "1" (String LF EmptyString)) 10 10.
Proof.
  split; [reflexivity|].
  intros H. apply wholly_decimal_chars in H. discriminate.
Qed.

(** C8 (amended): [is_decimal value before after] is true exactly when
    [value], or [value] without one final line feed, is wholly a decimal
    numeral (digits, then possibly a point and digits) with at most
    [before] integer digits and at most [after] fraction digits (none
    when there is no fraction); [is_decimal "123.45" 10 10] is true and
    [is_decimal "123.45" 10 1] is false. *)
Theorem is_decimal_spec :
  (forall (value : string) (before_decimal after_decimal : Z),
     ValidatorNew.is_decimal value before_decimal after_decimal = true
     <-> exists w, ends_line w value
                   /\ wholly_decimal w before_decimal after_decimal)
  /\ ValidatorNew.is_decimal "123.45" 10 10 = true
  /\ ValidatorNew.is_decimal "123.45" 10 1 = false.
Proof.
  split; [|split; reflexivity].
  intros value b a. split.
  - unfold ValidatorNew.is_decimal. rewrite re_match_standalone_decimal.
    destruct (decimal_match _ _ _ _ _) as [m|] eqn:E; [|discriminate].
    apply decimal_match_spec in E as (ip & fp & nl & -> & Hnl & Hip & Hfp & ->).
    destruct (group_frac_caps fp ip) as [-> ->].
    intros H. apply andb_prop in H as [Hb Ha].
    exists (decimal_text ip fp). split; [apply ends_line_append; eauto|].
    exists ip, fp. split; [reflexivity|]. split; [assumption|]. split; [assumption|].
    apply Z.leb_le in Hb. split; [exact Hb|].
    destruct fp as [d|]; simpl in Ha |- *; now apply Z.leb_le in Ha.
  - intros (w & Hend & ip & fp & -> & Hip & Hfp & Hb & Ha).
    apply ends_line_append in Hend as (nl & -> & Hnl).
    rewrite is_decimal_on_match by assumption.
    apply andb_true_intro. split; now apply Z.leb_le.
Qed.

(** ** [check_duplicates] (standalone validator) *)

Lemma check_duplicates_loop_positions (rs : list ValidatorNew.record) :
  forall i pre duplicates,
    ValidatorNew.check_duplicates_loop i rs (list_to_set pre) duplicates
    = duplicates ++ List.map ValidatorNew.duplicate_message (repeat_positions i pre rs).
Proof.
  induction rs as [|r rs IH]; intros i pre duplicates; simpl.
  - now rewrite app_nil_r.
  - replace ({[r]} ∪ list_to_set pre : gset ValidatorNew.record)
      with (list_to_set (pre ++ [r]) : gset ValidatorNew.record).
    2:{ apply set_eq. intros x.
        rewrite elem_of_list_to_set, elem_of_app, elem_of_union, elem_of_singleton,
          elem_of_list_to_set, list_elem_of_singleton. tauto. }
    rewrite IH.
    rewrite (bool_decide_ext (r ∈ (list_to_set pre : gset ValidatorNew.record)) (r ∈ pre))
      by apply elem_of_list_to_set.
    destruct (bool_decide (r ∈ pre)); simpl; [|reflexivity].
    now rewrite <- app_assoc.
Qed.

Lemma repeat_positions_spec (rs : list ValidatorNew.record) :
  forall pre i p,
    i = S (length pre) ->
    p ∈ repeat_positions i pre rs
    <-> i <= p /\ exists j r, j < p - 1 /\ (pre ++ rs) !! j = Some r
                              /\ (pre ++ rs) !! (p - 1) = Some r.
Proof.
  induction rs as [|r0 rs IH]; intros pre i p Hi; simpl.
  - split; [intros H; inversion H|].
    intros (Hp & j & r & _ & _ & Hr). rewrite app_nil_r in Hr.
    apply lookup_lt_Some in Hr. lia.
  - rewrite elem_of_app, (IH (pre ++ [r0]) (S i) p)
      by (rewrite length_app; simpl; lia).
    rewrite <- app_assoc. simpl. split.
    + intros [H | (Hp & j & r & Hj & Hjr & Hpr)].
      * destruct (bool_decide (r0 ∈ pre)) eqn:E; [|inversion H].
        apply bool_decide_eq_true in E. apply list_elem_of_singleton in H. subst p.
        split; [lia|]. apply list_elem_of_lookup in E as [j Hj].
        exists j, r0. split; [apply lookup_lt_Some in Hj; lia|].
        split; [now apply lookup_app_l_Some|].
        rewrite Hi. simpl. rewrite Nat.sub_0_r.
        now rewrite list_lookup_middle.
      * split; [lia|]. exists j, r. auto.
    + intros (Hp & j & r & Hj & Hjr & Hpr).
      destruct (decide (p = i)) as [-> | Hne].
      * left. subst i. simpl in Hj, Hpr. rewrite Nat.sub_0_r in Hj, Hpr.
        rewrite list_lookup_middle in Hpr by reflexivity. injection Hpr as <-.
        rewrite lookup_app_l in Hjr by exact Hj.
        rewrite bool_decide_eq_true_2; [apply list_elem_of_singleton; reflexivity|].
        apply list_elem_of_lookup. eauto.
      * right. split; [lia|]. exists j, r. auto.
Qed.

Lemma repeat_positions_sorted (rs : list ValidatorNew.record) :
  forall pre i, i = S (length pre) -> StronglySorted lt (repeat_positions i pre rs).
Proof.
  induction rs as [|r0 rs IH]; intros pre i Hi; simpl; [constructor|].
  assert (Hrest : StronglySorted lt (repeat_positions (S i) (pre ++ [r0]) rs)).
  { apply IH. rewrite length_app. simpl. lia. }
  destruct (bool_decide (r0 ∈ pre)); simpl; [|exact Hrest].
  constructor; [exact Hrest|].
  apply Forall_forall. intros p Hp.
  apply (repeat_positions_spec rs (pre ++ [r0]) (S i) p) in Hp; [lia|].
  rewrite length_app. simpl. lia.
Qed.

(** C6: [check_duplicates] reports, in increasing order and one message
    [Row i is a duplicate.] each, exactly the 1-based positions [i] whose
    record has the content (the sequence of its field/value pairs) of an
    earlier record; on the embedded five-row sample it reports row 2 and
    nothing else. *)
Theorem check_duplicates_spec :
  (forall records : list ValidatorNew.record,
     exists l : list nat,
       ValidatorNew.check_duplicates records
       = List.map (fun i => "Row " +:+ str_of_nat i +:+ " is a duplicate.") l
       /\ StronglySorted lt l
       /\ forall i, i ∈ l <-> repeats_earlier records i)
  /\ bind (ValidatorNew.table_records ValidatorNew.table_data_str
             (ValidatorNew.columns ValidatorNew.fixture_json))
          (fun records => Ok (ValidatorNew.check_duplicates records))
     = Ok ["Row 2 is a duplicate."].
Proof.
  split; [|vm_compute; reflexivity].
  intros records. exists (repeat_positions 1 [] records). split; [|split].
  - unfold ValidatorNew.check_duplicates.
    change (∅ : gset ValidatorNew.record) with (list_to_set [] : gset ValidatorNew.record).
    now rewrite check_duplicates_loop_positions.
  - now apply repeat_positions_sorted.
  - intros i. rewrite (repeat_positions_spec records [] 1 i) by reflexivity.
    unfold repeats_earlier. simpl. split.
    + intros (Hi & j & r & Hj & Hjr & Hir). exists j, r. auto.
    + intros (j & r & Hi & Hj & Hjr & Hir). split; [exact Hi|]. exists j, r. auto.
Qed.

(** ** [validate_record] (standalone validator) *)

Section RecordValidation.

Variable defs : gmap string ValidatorNew.field_spec.

Lemma append_if_app (c : bool) (v : ValidatorNew.violation)
    (errors : list ValidatorNew.violation) :
  ValidatorNew.append_if c v errors = errors ++ (if c then [v] else []).
Proof. destruct c; simpl; [reflexivity | now rewrite app_nil_r]. Qed.

Lemma check_type_app (field value : string) (spec : ValidatorNew.field_spec)
    (errors : list ValidatorNew.violation) :
  ValidatorNew.check_type field value spec errors
  = errors ++ ValidatorNew.check_type field value spec [].
Proof.
  unfold ValidatorNew.check_type.
  repeat match goal with
         | |- context [if ?c then _ else _] => destruct c
         end; cbv zeta; rewrite ?append_if_app, ?app_nil_r; reflexivity.
Qed.

Lemma check_range_app (field value : string) (spec : ValidatorNew.field_spec)
    (errors : list ValidatorNew.violation) :
  ValidatorNew.check_range field value spec errors
  = errors ++ ValidatorNew.check_range field value spec [].
Proof.
  unfold ValidatorNew.check_range.
  destruct (ValidatorNew.range spec) as [[lo hi]|]; [|now rewrite app_nil_r].
  destruct (nonempty value); [|now rewrite app_nil_r].
  destruct (float value); [|reflexivity].
  now rewrite !append_if_app.
Qed.

(** The violations of one item whose field has a rule, kind by kind. *)
Lemma validate_item_known (errors : list ValidatorNew.violation)
    (field value : string) (spec : ValidatorNew.field_spec) :
  defs !! field = Some spec ->
  ValidatorNew.validate_item defs errors (field, value)
  = errors
    ++ (if ValidatorNew.required spec && negb (nonempty (strip value))
        then [ValidatorNew.RequiredMissing field] else [])
    ++ (if (ValidatorNew.len (strip value) >? ValidatorNew.size spec)%Z
        then [ValidatorNew.ExceedsMaxSize field (ValidatorNew.size spec)] else [])
    ++ ValidatorNew.check_type field (strip value) spec []
    ++ ValidatorNew.check_range field (strip value) spec []
    ++ (if ValidatorNew.zero_check spec && String.eqb (strip value) "0"
        then [ValidatorNew.IsZero field] else [])
    ++ match ValidatorNew.allowed_values spec with
       | Some allowed =>
           if nonempty (strip value)
              && negb (existsb (String.eqb (strip value)) allowed)
           then [ValidatorNew.InvalidValue field (strip value) allowed] else []
       | None => []
       end.
Proof.
  intros Hspec. unfold ValidatorNew.validate_item. rewrite Hspec. cbv zeta.
  destruct (ValidatorNew.allowed_values spec) as [allowed|].
  - rewrite append_if_app, append_if_app, check_range_app, check_type_app,
      append_if_app, append_if_app.
    now rewrite <- !app_assoc.
  - rewrite append_if_app, check_range_app, check_type_app,
      append_if_app, append_if_app.
    now rewrite <- !app_assoc, app_nil_r.
Qed.

Lemma validate_item_app (errors : list ValidatorNew.violation) (item : string * string) :
  ValidatorNew.validate_item defs errors item = errors ++ item_violations defs item.
Proof.
  destruct item as [field value]. unfold item_violations.
  destruct (defs !! field) as [spec|] eqn:E.
  - now rewrite !(validate_item_known _ field value spec E).
  - unfold ValidatorNew.validate_item. now rewrite E.
Qed.

Lemma violations_flat_map (record : ValidatorNew.record) :
  ValidatorNew.violations defs record = flat_map (item_violations defs) record.
Proof.
  unfold ValidatorNew.violations.
  assert (H : forall errors,
             fold_left (ValidatorNew.validate_item defs) record errors
             = errors ++ flat_map (item_violations defs) record).
  { induction record as [|item record IH]; intros errors; simpl.
    - now rewrite app_nil_r.
    - now rewrite IH, validate_item_app, <- app_assoc. }
  apply H.
Qed.

Lemma check_type_field (field value : string) (spec : ValidatorNew.field_spec)
    (v : ValidatorNew.violation) :
  v ∈ ValidatorNew.check_type field value spec [] ->
  v = ValidatorNew.NotAlphanumeric field \/ v = ValidatorNew.NotNumeric field
  \/ exists b a, v = ValidatorNew.NotDecimal field b a.
Proof.
  unfold ValidatorNew.check_type, ValidatorNew.append_if.
  repeat match goal with
         | |- context [if ?c then _ else _] => destruct c
         end; cbv zeta; simpl; intros H;
    try (apply list_elem_of_singleton in H; subst v); try (now inversion H); eauto.
Qed.

Lemma check_range_elem (field value : string) (spec : ValidatorNew.field_spec)
    (v : ValidatorNew.violation) :
  v ∈ ValidatorNew.check_range field value spec [] <->
  exists lo hi,
    ValidatorNew.range spec = Some (lo, hi) /\ nonempty value = true
    /\ match float value with
       | Ok x => ValidatorNew.out_of_range lo hi x = true
                 /\ v = ValidatorNew.OutOfRange field x lo hi
       | Raise _ => v = ValidatorNew.NotANumber field
       end.
Proof.
  unfold ValidatorNew.check_range, ValidatorNew.append_if.
  destruct (ValidatorNew.range spec) as [[lo hi]|].
  2:{ split; [intros H; inversion H | intros (? & ? & ? & _); discriminate]. }
  destruct (nonempty value).
  2:{ split; [intros H; inversion H | intros (? & ? & _ & ? & _); discriminate]. }
  destruct (float value) as [x|e].
  - destruct (ValidatorNew.out_of_range lo hi x) eqn:E; simpl.
    + rewrite list_elem_of_singleton. split.
      * intros ->. exists lo, hi. auto.
      * intros (lo' & hi' & [= <- <-] & _ & _ & ->). reflexivity.
    + split; [intros H; inversion H|].
      intros (lo' & hi' & [= <- <-] & _ & H & _). congruence.
  - simpl. rewrite list_elem_of_singleton. split.
    + intros ->. exists lo, hi. auto.
    + intros (lo' & hi' & _ & _ & ->). reflexivity.
Qed.

(** Every violation of an item names the field of that item. *)
Lemma item_violations_field (item : string * string) (v : ValidatorNew.violation) :
  v ∈ item_violations defs item -> ValidatorNew.field_of v = fst item.
Proof.
  destruct item as [field value]. unfold item_violations. cbn [fst].
  destruct (defs !! field) as [spec|] eqn:E.
  - rewrite (validate_item_known [] field value spec E). cbn [app].
    rewrite !elem_of_app.
    intros [H | [H | [H | [H | [H | H]]]]].
    + destruct (_ && _); [|inversion H].
      apply list_elem_of_singleton in H. now subst v.
    + destruct (_ >? _)%Z; [|inversion H].
      apply list_elem_of_singleton in H. now subst v.
    + apply check_type_field in H as [-> | [-> | (b & a & ->)]]; reflexivity.
    + apply check_range_elem in H as (lo & hi & _ & _ & H).
      destruct (float (strip value)) as [x|e]; [destruct H as [_ ->] | subst v]; reflexivity.
    + destruct (_ && _); [|inversion H].
      apply list_elem_of_singleton in H. now subst v.
    + destruct (ValidatorNew.allowed_values spec) as [allowed|]; [|inversion H].
      destruct (_ && _); [|inversion H].
      apply list_elem_of_singleton in H. now subst v.
  - unfold ValidatorNew.validate_item. rewrite E. simpl.
    intros H. apply list_elem_of_singleton in H. now subst v.
Qed.

Lemma violations_elem (record : ValidatorNew.record) (v : ValidatorNew.violation) :
  v ∈ ValidatorNew.violations defs record
  <-> exists item, item ∈ record /\ v ∈ item_violations defs item.
Proof.
  rewrite violations_flat_map, list_elem_of_In, in_flat_map.
  split; intros (item & H1 & H2); exists item; split;
    first [now apply list_elem_of_In | now apply list_elem_of_In in H1
          | now apply list_elem_of_In in H2].
Qed.

(** The violations of a record name fields of the record only. *)
Lemma violations_fields (record : ValidatorNew.record) (v : ValidatorNew.violation) :
  v ∈ ValidatorNew.violations defs record ->
  ValidatorNew.field_of v ∈ List.map fst record.
Proof.
  intros H. apply violations_elem in H as (item & Hitem & Hv).
  rewrite (item_violations_field item v Hv).
  apply list_elem_of_In, in_map, list_elem_of_In, Hitem.
Qed.

(** In a record, which is a [dict], a field has one value. *)
Lemma record_item_unique (record : ValidatorNew.record) (field value value' : string) :
  NoDup (List.map fst record) ->
  (field, value) ∈ record -> (field, value') ∈ record -> value = value'.
Proof.
  induction record as [|[f x] record IH]; intros Hnd H1 H2; [inversion H1|].
  simpl in Hnd. apply NoDup_cons in Hnd as [Hnotin Hnd].
  assert (Hkey : forall y, (field, y) ∈ record -> field ∈ List.map fst record).
  { intros y Hy. apply list_elem_of_In.
    change field with (fst (field, y)). apply in_map. now apply list_elem_of_In. }
  apply elem_of_cons in H1 as [H1 | H1]; apply elem_of_cons in H2 as [H2 | H2].
  - congruence.
  - exfalso. injection H1 as <- <-. eauto.
  - exfalso. injection H2 as <- <-. eauto.
  - eauto.
Qed.

End RecordValidation.

Lemma out_of_range_inside (lo hi : number) (x : spec_float) :
  ValidatorNew.out_of_range lo hi x = true <-> ~ inside lo hi x.
Proof.
  unfold ValidatorNew.out_of_range, inside.
  destruct (num_le lo (Float x)), (num_le (Float x) hi); simpl;
    split; intros H; try reflexivity; try discriminate; try tauto.
  - intros [? ?]; discriminate.
  - intros [? ?]; discriminate.
  - intros [? ?]; discriminate.
Qed.




(** ** Records built from short lines *)

Lemma dict_set_fresh (d : ValidatorNew.record) (k v : string) :
  k ∉ List.map fst d -> ValidatorNew.dict_set d k v = d ++ [(k, v)].
Proof.
  induction d as [|[k' v'] d IH]; simpl; intros Hk; [reflexivity|].
  apply not_elem_of_cons in Hk as [Hne Hk].
  destruct (String.eqb_spec k' k) as [-> | _]; [congruence|].
  now rewrite IH.
Qed.

(** With distinct keys, [dict] keeps the items as they come. *)
Lemma dict_distinct (items : list (string * string)) :
  NoDup (List.map fst items) -> ValidatorNew.dict items = items.
Proof.
  unfold ValidatorNew.dict.
  assert (H : forall acc,
             NoDup (List.map fst (acc ++ items)) ->
             fold_left (fun d kv => ValidatorNew.dict_set d (fst kv) (snd kv)) items acc
             = acc ++ items).
  { induction items as [|[k v] items IH]; intros acc Hnd; simpl.
    - now rewrite app_nil_r.
    - rewrite dict_set_fresh.
      + rewrite IH; rewrite <- app_assoc; [reflexivity | exact Hnd].
      + rewrite map_app in Hnd. apply NoDup_app in Hnd as (_ & Hdis & _).
        intros Hk. apply (Hdis k Hk). simpl. apply list_elem_of_here. }
  intros Hnd. apply (H []). exact Hnd.
Qed.

Lemma combine_keys (headers values : list string) :
  List.map fst (combine headers values) = take (length values) headers.
Proof.
  revert values. induction headers as [|h headers IH]; intros [|v values]; simpl;
    try reflexivity.
  now rewrite IH.
Qed.

Lemma record_of_line_keys (headers : list string) (line : string) :
  NoDup headers ->
  List.map fst (ValidatorNew.record_of_line headers line)
  = take (length (split "," line)) headers.
Proof.
  intros Hnd. unfold ValidatorNew.record_of_line.
  assert (Hk : NoDup (List.map fst (combine headers (split "," line)))).
  { rewrite combine_keys. rewrite <- (take_drop (length (split "," line)) headers) in Hnd.
    now apply NoDup_app in Hnd as (H & _ & _). }
  rewrite dict_distinct by exact Hk. apply combine_keys.
Qed.

(** C10 is refuted as stated: nothing keeps a header from naming a
    field twice, since the header check compares sets.  With the header
    A,B,A the line [,y] has two values for three header fields; the
    record still holds A, the trailing header field, with the empty
    first value, and a required A is reported as missing. *)
Lemma short_line_repeated_header_reported :
  let headers := ["A"; "B"; "A"] in
  let line := ",y" in
  let field_definitions : gmap string ValidatorNew.field_spec :=
    <["A" := {| ValidatorNew.size := 5; ValidatorNew.type := "alpha_numeric";
                ValidatorNew.required := true;
                ValidatorNew.size_before_decimal := None;
                ValidatorNew.size_after_decimal := None;
                ValidatorNew.allowed_values := None;
                ValidatorNew.range := None;
                ValidatorNew.zero_check := false |}]>
    (<["B" := {| ValidatorNew.size := 5; ValidatorNew.type := "alpha_numeric";
                 ValidatorNew.required := false;
                 ValidatorNew.size_before_decimal := None;
                 ValidatorNew.size_after_decimal := None;
                 ValidatorNew.allowed_values := None;
                 ValidatorNew.range := None;
                 ValidatorNew.zero_check := false |}]> ∅) in
  ValidatorNew.table_records "A,B,A
,y" ["A"; "B"]
  = Ok [ValidatorNew.record_of_line headers line]
  /\ length (split "," line) < length headers
  /\ "A" ∈ drop (length (split "," line)) headers
  /\ ValidatorNew.record_of_line headers line = [("A", ""); ("B", "y")]
  /\ ValidatorNew.violations field_definitions
       (ValidatorNew.record_of_line headers line)
     = [ValidatorNew.RequiredMissing "A"].
Proof.
  cbv zeta. split; [vm_compute; reflexivity|].
  split; [vm_compute; lia|].
  split; [apply list_elem_of_here|].
  split; vm_compute; reflexivity.
Qed.

(** C10 (amended): when the header names pairwise different fields, a
    data line with fewer values than the header has fields gives a
    record that holds the leading header fields only; the trailing ones
    are absent from it, and [validate_record] reports no violation of any
    kind that names one of them, a missing required field included. *)
Theorem short_line_fields_unreported
    (defs : gmap string ValidatorNew.field_spec)
    (headers : list string) (line : string) :
  NoDup headers ->
  length (split "," line) < length headers ->
  List.map fst (ValidatorNew.record_of_line headers line)
  = take (length (split "," line)) headers
  /\ forall field,
       field ∈ drop (length (split "," line)) headers ->
       (field ∉ List.map fst (ValidatorNew.record_of_line headers line))
       /\ forall v,
            v ∈ ValidatorNew.violations defs (ValidatorNew.record_of_line headers line) ->
            ValidatorNew.field_of v <> field.
Proof.
  intros Hnd Hshort.
  pose proof (record_of_line_keys headers line Hnd) as Hkeys.
  split; [exact Hkeys|].
  intros field Hfield.
  assert (Habsent : field ∉ List.map fst (ValidatorNew.record_of_line headers line)).
  { rewrite Hkeys.
    rewrite <- (take_drop (length (split "," line)) headers) in Hnd.
    apply NoDup_app in Hnd as (_ & Hdis & _).
    intros Hin. exact (Hdis field Hin Hfield). }
  split; [exact Habsent|].
  intros v Hv Heq. apply Habsent. rewrite <- Heq.
  now apply violations_fields in Hv.
Qed.

(** The sample header with a line that stops after the first value:
    the required FIELD2 is absent and nothing is reported for it. *)
Lemma short_line_fields_unreported_witness :
  ("FIELD2" ∉ List.map fst
     (ValidatorNew.record_of_line
        ["FIELD1"; "FIELD2"; "FIELD_DEC1"; "FIELD_NUMERIC1"] "ABC123"))
  /\ forall v,
       v ∈ ValidatorNew.violations (ValidatorNew.fields ValidatorNew.fixture_json)
             (ValidatorNew.record_of_line
                ["FIELD1"; "FIELD2"; "FIELD_DEC1"; "FIELD_NUMERIC1"] "ABC123") ->
       ValidatorNew.field_of v <> "FIELD2".
Proof.
  assert (Hnd : NoDup ["FIELD1"; "FIELD2"; "FIELD_DEC1"; "FIELD_NUMERIC1"]).
  { apply (bool_decide_unpack _). vm_compute. exact I. }
  assert (Hshort : length (split "," "ABC123")
                   < length ["FIELD1"; "FIELD2"; "FIELD_DEC1"; "FIELD_NUMERIC1"]).
  { vm_compute. lia. }
  destruct (short_line_fields_unreported
              (ValidatorNew.fields ValidatorNew.fixture_json)
              ["FIELD1"; "FIELD2"; "FIELD_DEC1"; "FIELD_NUMERIC1"] "ABC123"
              Hnd Hshort) as [_ H].
  apply H. change (length (split "," "ABC123")) with 1. simpl.
  apply list_elem_of_here.
Defined.

(** ** [validate_data] (warehouse pipeline) *)

Lemma wh_append_if_app (c : bool) (e : FileValidation.error)
    (errors : list FileValidation.error) :
  FileValidation.append_if c e errors = errors ++ (if c then [e] else []).
Proof. destruct c; simpl; [reflexivity | now rewrite app_nil_r]. Qed.

(** A field the row does not hold is skipped. *)
Lemma validate_field_absent (r : FileValidation.row) (errors : list FileValidation.error)
    (field : string) (rule : FileValidation.field_rule) :
  FileValidation.row_get r field = None ->
  FileValidation.validate_field r errors field rule = Ok errors.
Proof. intros H. unfold FileValidation.validate_field. now rewrite H. Qed.

(** A text value goes through the required, size and pattern checks. *)
Lemma validate_field_text (r : FileValidation.row) (errors : list FileValidation.error)
    (field : string) (rule : FileValidation.field_rule) (s : string) :
  FileValidation.row_get r field = Some (FileValidation.VStr s) ->
  FileValidation.validate_field r errors field rule
  = Ok (errors ++ text_errors field rule s).
Proof.
  intros H. unfold FileValidation.validate_field, text_errors. rewrite H.
  unfold FileValidation.check_pattern. cbn [bind FileValidation.is_none
    FileValidation.eq_empty FileValidation.eq_zero FileValidation.str orb].
  rewrite andb_false_r. cbn [FileValidation.append_if].
  rewrite !wh_append_if_app.
  assert (E : forall e0 : list FileValidation.error,
             (if String.eqb (FileValidation.type rule) "decimal"
              then FileValidation.check_decimal field rule (FileValidation.VStr s) e0
              else Ok e0) = Ok e0).
  { intros e0. now destruct (String.eqb _ "decimal"). }
  rewrite E. f_equal. rewrite <- !app_assoc. do 2 f_equal.
  now destruct (matched _).
Qed.

(** Any other value makes [re.match] raise. *)
Lemma validate_field_non_text (r : FileValidation.row) (errors : list FileValidation.error)
    (field : string) (rule : FileValidation.field_rule) (v : FileValidation.value) :
  FileValidation.row_get r field = Some v -> non_text v ->
  FileValidation.validate_field r errors field rule = Raise TypeError.
Proof.
  intros H Hv. unfold FileValidation.validate_field. rewrite H.
  destruct v; try reflexivity. destruct Hv.
Qed.




(** A rule whose field holds a value that is not text makes the row fault. *)
Lemma validate_fields_non_text (r : FileValidation.row)
    (rules : list (string * FileValidation.field_rule)) (f : string)
    (v : FileValidation.value) :
  f ∈ List.map fst rules ->
  FileValidation.row_get r f = Some v -> non_text v ->
  forall errors, is_ok (FileValidation.validate_fields r rules errors) = false.
Proof.
  induction rules as [|[g rule] rules IH]; intros Hf Hr Hv errors; [inversion Hf|].
  simpl in Hf |- *. apply elem_of_cons in Hf as [<- | Hf].
  - now rewrite (validate_field_non_text r errors f rule v Hr Hv).
  - destruct (FileValidation.validate_field r errors g rule); simpl; [|reflexivity].
    now apply IH.
Qed.

(** *** The duplicate-flag columns *)

Lemma row_get_with (r : FileValidation.row) (name f : string) (v : FileValidation.value) :
  FileValidation.row_get (FileValidation.without name r ++ [(name, v)]) f
  = if String.eqb name f then Some v else FileValidation.row_get r f.
Proof.
  induction r as [|[k x] r IH]; simpl; [now destruct (String.eqb name f)|].
  destruct (String.eqb_spec k name) as [-> | Hk]; simpl.
  - rewrite IH. now destruct (String.eqb name f).
  - rewrite IH. destruct (String.eqb_spec k f) as [-> | Hf]; [|reflexivity].
    destruct (String.eqb_spec name f) as [-> | _]; [congruence | reflexivity].
Qed.

Lemma sql_in_non_text (x : FileValidation.value) (vs : list FileValidation.value) :
  non_text (FileValidation.sql_in x vs).
Proof.
  unfold FileValidation.sql_in. destruct vs; [exact I|].
  destruct (FileValidation.is_none x); [exact I|].
  destruct (existsb _ _); [exact I|].
  destruct (existsb _ _); exact I.
Qed.

(** The flagged frame has the rows of the given one, each with flag
    columns added: a field reads as before, or it carries the name of a
    flag and reads a value that is not text. *)
Lemma flag_duplicates_rows (cols : list string) :
  forall (data : FileValidation.dataframe) (seen : list FileValidation.column),
  exists g : FileValidation.row -> FileValidation.row,
    FileValidation.df_rows (FileValidation.flag_duplicates cols data seen)
    = List.map g (FileValidation.df_rows data)
    /\ forall r f,
         FileValidation.row_get (g r) f = FileValidation.row_get r f
         \/ exists c v, c ∈ cols /\ f = flag_name c
                        /\ FileValidation.row_get (g r) f = Some v /\ non_text v.
Proof.
  induction cols as [|c cols IH]; intros data seen; simpl.
  - exists (fun r => r). split; [now rewrite map_id | auto].
  - destruct (bool_decide (c ∈ FileValidation.df_columns data)).
    + destruct (IH (FileValidation.withColumn data (c +:+ "_duplicate")
                      (FileValidation.IsIn (FileValidation.Col c) seen))
                   (seen ++ [FileValidation.Col c])) as (g & Hrows & Hg).
      exists (fun r => g (FileValidation.without (flag_name c) r
                          ++ [(flag_name c,
                               FileValidation.eval
                                 (FileValidation.IsIn (FileValidation.Col c) seen) r)])).
      split.
      * rewrite Hrows. unfold FileValidation.withColumn, flag_name.
        cbn [FileValidation.df_rows]. now rewrite map_map.
      * intros r f.
        destruct (Hg (FileValidation.without (flag_name c) r
                        ++ [(flag_name c,
                             FileValidation.eval
                               (FileValidation.IsIn (FileValidation.Col c) seen) r)]) f)
          as [Heq | (c' & v & Hc' & Hf & Hv & Hnt)].
        -- rewrite Heq, row_get_with.
           destruct (String.eqb_spec (flag_name c) f) as [<- | _]; [|now left].
           right. exists c, (FileValidation.eval
                               (FileValidation.IsIn (FileValidation.Col c) seen) r).
           split; [apply list_elem_of_here|]. split; [reflexivity|].
           split; [reflexivity|]. simpl. apply sql_in_non_text.
        -- right. exists c', v. split; [now apply list_elem_of_further | auto].
    + destruct (IH data seen) as (g & Hrows & Hg). exists g. split; [exact Hrows|].
      intros r f. destruct (Hg r f) as [Heq | (c' & v & Hc' & H)]; [now left|].
      right. exists c', v. split; [now apply list_elem_of_further | exact H].
Qed.




(** ** Required fields *)

Lemma required_count_app (f : string) (l k : list ValidatorNew.violation) :
  required_count f (l ++ k) = required_count f l + required_count f k.
Proof. unfold required_count. now rewrite List.filter_app, length_app. Qed.

Lemma required_count_cons (f : string) (v : ValidatorNew.violation)
    (l : list ValidatorNew.violation) :
  required_count f (v :: l)
  = (if is_required_missing f v then 1 else 0) + required_count f l.
Proof. unfold required_count. simpl. now destruct (is_required_missing f v). Qed.

Lemma required_count_zero (f : string) (l : list ValidatorNew.violation) :
  (forall v, v ∈ l -> is_required_missing f v = false) -> required_count f l = 0.
Proof.
  induction l as [|v l IH]; intros H; [reflexivity|].
  rewrite required_count_cons, (H v) by apply list_elem_of_here.
  apply IH. intros w Hw. apply H. now apply list_elem_of_further.
Qed.

Lemma required_count_none (f : string) (l : list ValidatorNew.violation) :
  (forall v, v ∈ l -> ValidatorNew.field_of v <> f) -> required_count f l = 0.
Proof.
  intros H. apply required_count_zero. intros v Hv.
  destruct v; try reflexivity. simpl. apply String.eqb_neq.
  exact (H _ Hv).
Qed.

(** An item whose trimmed value is empty and whose field is required
    counts once. *)
Lemma item_required_once (defs : gmap string ValidatorNew.field_spec)
    (field value : string) (spec : ValidatorNew.field_spec) :
  defs !! field = Some spec ->
  ValidatorNew.required spec = true ->
  strip value = EmptyString ->
  required_count field (item_violations defs (field, value)) = 1.
Proof.
  intros Hspec Hreq Hempty. unfold item_violations.
  rewrite (validate_item_known defs [] field value spec Hspec), Hempty, Hreq.
  cbn [app nonempty negb andb].
  rewrite required_count_cons. cbn [is_required_missing].
  rewrite String.eqb_refl. cbn [Nat.add]. f_equal.
  apply required_count_zero. intros v Hv.
  rewrite !elem_of_app in Hv.
  unfold ValidatorNew.check_type, ValidatorNew.check_range in Hv.
  cbn [nonempty andb] in Hv. rewrite !andb_false_r in Hv.
  destruct (ValidatorNew.range spec) as [[lo hi]|];
    destruct (ValidatorNew.allowed_values spec) as [allowed|];
    destruct (_ >? _)%Z; simpl in Hv;
    repeat match type of Hv with
           | _ \/ _ => destruct Hv as [Hv | Hv]
           end;
    try (now inversion Hv);
    apply list_elem_of_singleton in Hv; subst v; reflexivity.
Qed.

Lemma record_required_once (defs : gmap string ValidatorNew.field_spec)
    (record : ValidatorNew.record) (field value : string)
    (spec : ValidatorNew.field_spec) :
  NoDup (List.map fst record) ->
  (field, value) ∈ record ->
  defs !! field = Some spec ->
  ValidatorNew.required spec = true ->
  strip value = EmptyString ->
  required_count field (ValidatorNew.violations defs record) = 1.
Proof.
  intros Hnd Hin Hspec Hreq Hempty. rewrite violations_flat_map.
  induction record as [|[f x] record IH]; [inversion Hin|].
  cbn [List.map fst] in Hnd. cbn [flat_map].
  apply NoDup_cons in Hnd as [Hnotin Hnd].
  rewrite required_count_app.
  apply elem_of_cons in Hin as [Hin | Hin].
  - injection Hin as <- <-.
    rewrite (item_required_once defs field value spec Hspec Hreq Hempty).
    rewrite required_count_none; [reflexivity|].
    intros v Hv Hf. apply Hnotin. rewrite <- Hf.
    rewrite <- violations_flat_map in Hv. now apply violations_fields in Hv.
  - rewrite (IH Hnd Hin).
    rewrite required_count_none; [reflexivity|].
    intros v Hv Hf. apply item_violations_field in Hv. simpl in Hv.
    apply Hnotin. rewrite <- Hv, Hf.
    apply list_elem_of_In. change field with (fst (field, value)).
    apply in_map. now apply list_elem_of_In.
Qed.

Lemma required_null_count_app (f : string) (l k : list FileValidation.error) :
  required_null_count f (l ++ k) = required_null_count f l + required_null_count f k.
Proof. unfold required_null_count. now rewrite List.filter_app, length_app. Qed.

(** The required-field violations a text value adds. *)
Lemma text_errors_required (g : string) (rule : FileValidation.field_rule)
    (s f : string) :
  required_null_count f (text_errors g rule s)
  = if String.eqb g f && FileValidation.required rule && negb (nonempty s)
    then 1 else 0.
Proof.
  unfold text_errors. rewrite !required_null_count_app.
  assert (H2 : required_null_count f
                 (if String.eqb (FileValidation.type rule) "alpha_numeric"
                     && (FileValidation.len s >? default 0%Z (FileValidation.size rule))%Z
                  then [FileValidation.ExceedsSize g] else []) = 0)
    by now destruct (_ && _).
  assert (H3 : required_null_count f
                 (if matched (re_match (default Empty (FileValidation.patterns
                                                         (FileValidation.type rule))) s)
                  then [] else [FileValidation.PatternMismatch g (FileValidation.type rule)]) = 0)
    by now destruct (matched _).
  rewrite H2, H3, !Nat.add_0_r.
  destruct (FileValidation.required rule), (nonempty s); simpl;
    rewrite ?andb_false_r, ?andb_true_r; try reflexivity.
  unfold required_null_count. simpl. now destruct (String.eqb g f).
Qed.

(** What a successful pass over one field returns. *)
Lemma validate_field_ok (r : FileValidation.row) (errors errors' : list FileValidation.error)
    (g : string) (rule : FileValidation.field_rule) :
  FileValidation.validate_field r errors g rule = Ok errors' ->
  (FileValidation.row_get r g = None /\ errors' = errors)
  \/ exists s, FileValidation.row_get r g = Some (FileValidation.VStr s)
               /\ errors' = errors ++ text_errors g rule s.
Proof.
  destruct (FileValidation.row_get r g) as [v|] eqn:E.
  - destruct v as [|s|z|t|b];
      try (rewrite (validate_field_non_text r errors g rule _ E I); discriminate).
    rewrite (validate_field_text r errors g rule s E). intros [= <-]. right. eauto.
  - rewrite (validate_field_absent r errors g rule E). intros [= <-]. now left.
Qed.

Lemma validate_fields_other (r : FileValidation.row)
    (rules : list (string * FileValidation.field_rule)) (f : string) :
  f ∉ List.map fst rules ->
  forall errors errors',
    FileValidation.validate_fields r rules errors = Ok errors' ->
    required_null_count f errors' = required_null_count f errors.
Proof.
  induction rules as [|[g rule] rules IH]; intros Hf errors errors'; simpl.
  - now intros [= <-].
  - simpl in Hf. apply not_elem_of_cons in Hf as [Hne Hf].
    destruct (FileValidation.validate_field r errors g rule) as [e1|] eqn:E1;
      simpl; [|discriminate].
    intros H. rewrite (IH Hf e1 errors' H).
    apply validate_field_ok in E1 as [[_ ->] | (s & _ & ->)]; [reflexivity|].
    rewrite required_null_count_app, text_errors_required.
    assert (Hgf : String.eqb g f = false) by (apply String.eqb_neq; congruence).
    rewrite Hgf. simpl. lia.
Qed.

(** One row: a required field that holds the empty string counts once. *)
Lemma validate_fields_required (r : FileValidation.row)
    (rules : list (string * FileValidation.field_rule)) (f : string)
    (rule : FileValidation.field_rule) :
  NoDup (List.map fst rules) ->
  (f, rule) ∈ rules ->
  FileValidation.required rule = true ->
  forall errors errors',
    FileValidation.validate_fields r rules errors = Ok errors' ->
    required_null_count f errors'
    = required_null_count f errors + (if supplies_empty f r then 1 else 0).
Proof.
  induction rules as [|[g rule0] rules IH]; intros Hnd Hin Hreq errors errors';
    [inversion Hin|].
  cbn [List.map fst] in Hnd. apply NoDup_cons in Hnd as [Hnotin Hnd].
  simpl.
  destruct (FileValidation.validate_field r errors g rule0) as [e1|] eqn:E1;
    simpl; [|discriminate].
  intros H. apply elem_of_cons in Hin as [Hin | Hin].
  - injection Hin as <- <-.
    rewrite (validate_fields_other r rules f Hnotin e1 errors' H).
    unfold supplies_empty.
    apply validate_field_ok in E1 as [[-> ->] | (s & -> & ->)]; [lia|].
    rewrite required_null_count_app, text_errors_required, String.eqb_refl, Hreq.
    reflexivity.
  - rewrite (IH Hnd Hin Hreq e1 errors' H). f_equal.
    assert (Hgf : String.eqb g f = false).
    { apply String.eqb_neq. intros ->. apply Hnotin.
      apply list_elem_of_In. change f with (fst (f, rule)).
      apply in_map. now apply list_elem_of_In. }
    apply validate_field_ok in E1 as [[_ ->] | (s & _ & ->)]; [reflexivity|].
    rewrite required_null_count_app, text_errors_required, Hgf. simpl. lia.
Qed.

(** All rows, read through the flag columns. *)
Lemma validate_rows_required (g : FileValidation.row -> FileValidation.row)
    (rules : list (string * FileValidation.field_rule)) (f : string)
    (rule : FileValidation.field_rule) :
  NoDup (List.map fst rules) ->
  (f, rule) ∈ rules ->
  FileValidation.required rule = true ->
  (forall r, FileValidation.row_get (g r) f = FileValidation.row_get r f
             \/ exists v, FileValidation.row_get (g r) f = Some v /\ non_text v) ->
  forall rows errors errors',
    FileValidation.validate_rows (List.map g rows) rules errors = Ok errors' ->
    required_null_count f errors'
    = required_null_count f errors + length (List.filter (supplies_empty f) rows).
Proof.
  intros Hnd Hin Hreq Hg. induction rows as [|r rows IH]; intros errors errors'; simpl.
  - intros [= <-]. lia.
  - destruct (FileValidation.validate_fields (g r) rules errors) as [e1|] eqn:E1;
      simpl; [|discriminate].
    intros H. rewrite (IH e1 errors' H).
    rewrite (validate_fields_required (g r) rules f rule Hnd Hin Hreq errors e1 E1).
    assert (Hsame : supplies_empty f (g r) = supplies_empty f r).
    { destruct (Hg r) as [Heq | (v & Hv & Hnt)].
      - unfold supplies_empty. now rewrite Heq.
      - exfalso.
        assert (Hkey : f ∈ List.map fst rules).
        { apply list_elem_of_In. change f with (fst (f, rule)).
          apply in_map. now apply list_elem_of_In. }
        pose proof (validate_fields_non_text (g r) rules f v Hkey Hv Hnt errors) as Hbad.
        rewrite E1 in Hbad. discriminate. }
    rewrite Hsame. destruct (supplies_empty f r); simpl; lia.
Qed.

(** C7 is refuted as stated: a record that omits a required field gets
    no required-field violation from [validate_record] (only the items
    of the record are looked at), and a whitespace-only value is not
    empty for [validate_data], which reports a pattern mismatch and no
    required-field violation. *)
Lemma required_field_omitted_unreported :
  (ValidatorNew.required <$> ValidatorNew.fields ValidatorNew.fixture_json !! "FIELD1")
  = Some true
  /\ required_count "FIELD1"
       (ValidatorNew.violations (ValidatorNew.fields ValidatorNew.fixture_json)
          [("FIELD2", "XYZ789"); ("FIELD_DEC1", "12.34"); ("FIELD_NUMERIC1", "5")]) = 0
  /\ FileValidation.violations
       {| FileValidation.tables :=
            <["T" := {| FileValidation.df_columns := ["A"];
                        FileValidation.df_rows := [] |}]> ∅;
          FileValidation.writes := [] |}
       {| FileValidation.df_columns := ["A"];
          FileValidation.df_rows := [[("A", FileValidation.VStr "  ")]] |}
       {| FileValidation.duplicate_field_check := false;
          FileValidation.columns := ["A"];
          FileValidation.fields :=
            [("A", {| FileValidation.type := "alpha_numeric";
                      FileValidation.required := true;
                      FileValidation.size := Some 10%Z;
                      FileValidation.size_before_decimal := None;
                      FileValidation.size_after_decimal := None |})] |} "T"
     = Ok [FileValidation.PatternMismatch "A" "alpha_numeric"].
Proof. repeat split; vm_compute; reflexivity. Qed.

(** C7 (amended): in [validate_record], a record that supplies an empty
    or whitespace-only string for a field whose rule marks it required
    yields exactly one required-field violation for that field, whatever
    the type of the field; in [validate_data], when it returns its
    errors, the number of required-field violations for a required field
    is the number of rows that supply the empty string for it, one for
    each. *)
Theorem required_field_empty_value :
  (forall (defs : gmap string ValidatorNew.field_spec)
          (record : ValidatorNew.record) (field value : string)
          (spec : ValidatorNew.field_spec),
     NoDup (List.map fst record) ->
     (field, value) ∈ record ->
     defs !! field = Some spec ->
     ValidatorNew.required spec = true ->
     strip value = EmptyString ->
     required_count field (ValidatorNew.violations defs record) = 1)
  /\ (forall (s : FileValidation.session) (data : FileValidation.dataframe)
             (rules : FileValidation.validation_rules) (snowpark_table : string)
             (errors : list FileValidation.error) (field : string)
             (rule : FileValidation.field_rule),
        FileValidation.violations s data rules snowpark_table = Ok errors ->
        NoDup (List.map fst (FileValidation.fields rules)) ->
        (field, rule) ∈ FileValidation.fields rules ->
        FileValidation.required rule = true ->
        required_null_count field errors
        = length (List.filter (supplies_empty field) (FileValidation.df_rows data))).
Proof.
  split; [exact record_required_once|].
  intros s data rules table errors field rule Hok Hnd Hin Hreq.
  unfold FileValidation.violations in Hok.
  destruct (FileValidation.table s table); simpl in Hok; [|discriminate].
  unfold FileValidation.collect in Hok.
  destruct (FileValidation.duplicate_field_check rules).
  - destruct (flag_duplicates_rows (FileValidation.columns rules) data [])
      as (g & Hrows & Hg).
    rewrite Hrows in Hok.
    assert (Hg' : forall r,
               FileValidation.row_get (g r) field = FileValidation.row_get r field
               \/ exists v, FileValidation.row_get (g r) field = Some v /\ non_text v).
    { intros r. destruct (Hg r field) as [H | (c & v & _ & _ & H)];
        [now left | right; eauto]. }
    exact (validate_rows_required g (FileValidation.fields rules) field rule
             Hnd Hin Hreq Hg' (FileValidation.df_rows data) [] errors Hok).
  - rewrite <- (map_id (FileValidation.df_rows data)) in Hok.
    assert (Hid : forall r : FileValidation.row,
               FileValidation.row_get r field = FileValidation.row_get r field
               \/ exists v, FileValidation.row_get r field = Some v /\ non_text v)
      by (intros r; now left).
    exact (validate_rows_required (fun r => r) (FileValidation.fields rules) field rule
             Hnd Hin Hreq Hid (FileValidation.df_rows data) [] errors Hok).
Qed.

(** Row 4 of the sample: FIELD1 is empty. *)
Lemma required_field_empty_value_witness :
  required_count "FIELD1"
    (ValidatorNew.violations (ValidatorNew.fields ValidatorNew.fixture_json)
       [("FIELD1", ""); ("FIELD2", ""); ("FIELD_DEC1", "456.78");
        ("FIELD_NUMERIC1", "90")]) = 1.
Proof.
  apply (proj1 required_field_empty_value
           (ValidatorNew.fields ValidatorNew.fixture_json)
           [("FIELD1", ""); ("FIELD2", ""); ("FIELD_DEC1", "456.78");
            ("FIELD_NUMERIC1", "90")]
           "FIELD1" ""
           {| ValidatorNew.size := 500; ValidatorNew.type := "alpha_numeric";
              ValidatorNew.required := true;
              ValidatorNew.size_before_decimal := None;
              ValidatorNew.size_after_decimal := None;
              ValidatorNew.allowed_values := None;
              ValidatorNew.range := None;
              ValidatorNew.zero_check := false |}).
  - apply (bool_decide_unpack _). vm_compute. exact I.
  - apply list_elem_of_here.
  - reflexivity.
  - reflexivity.
  - reflexivity.
Defined.

(** ** [insert_valid_records] (warehouse pipeline) *)

(** C1: [insert_valid_records] is all-or-nothing.  When [validate_data]
    returns at least one error, that list is handed back as it is and
    the session is untouched, so no write is made; when it returns no
    error, exactly one write is made, appending all the rows of the data
    to the table, and the success text states the number of rows; a
    fault of [validate_data] leaves through the function. *)
Theorem insert_valid_records_all_or_nothing (s : FileValidation.session)
    (data : FileValidation.dataframe) (snowpark_table : string)
    (validation_rules : FileValidation.validation_rules) :
  match FileValidation.validate_data s data validation_rules snowpark_table with
  | Ok (e :: errors) =>
      FileValidation.insert_valid_records s data snowpark_table validation_rules
      = Ok (FileValidation.Errors (e :: errors), s)
  | Ok [] =>
      exists s',
        FileValidation.insert_valid_records s data snowpark_table validation_rules
        = Ok (FileValidation.Success
                ("Successfully inserted "
                 +:+ str_of_nat (length (FileValidation.df_rows data))
                 +:+ " valid records into " +:+ snowpark_table +:+ "."), s')
        /\ FileValidation.writes s'
           = FileValidation.writes s ++ [(snowpark_table, FileValidation.df_rows data)]
        /\ (exists t t',
              FileValidation.tables s !! snowpark_table = Some t
              /\ FileValidation.tables s' !! snowpark_table = Some t'
              /\ FileValidation.df_rows t'
                 = FileValidation.df_rows t ++ FileValidation.df_rows data)
        /\ forall other, other <> snowpark_table ->
             FileValidation.tables s' !! other = FileValidation.tables s !! other
  | Raise e =>
      FileValidation.insert_valid_records s data snowpark_table validation_rules
      = Raise e
  end.
Proof.
  unfold FileValidation.insert_valid_records.
  destruct (FileValidation.validate_data s data validation_rules snowpark_table)
    as [[|e errors]|e] eqn:E; simpl; try reflexivity.
  exists (FileValidation.save_as_table_append s data snowpark_table).
  split; [reflexivity|]. split; [reflexivity|]. split.
  - unfold FileValidation.validate_data, FileValidation.violations,
      FileValidation.table in E.
    unfold FileValidation.save_as_table_append. simpl.
    destruct (FileValidation.tables s !! snowpark_table) as [t|]; [|discriminate].
    exists t, {| FileValidation.df_columns := FileValidation.df_columns t;
                 FileValidation.df_rows :=
                   FileValidation.df_rows t ++ FileValidation.df_rows data |}.
    split; [reflexivity|]. split; [apply lookup_insert_eq | reflexivity].
  - intros other Hother. unfold FileValidation.save_as_table_append. simpl.
    now apply lookup_insert_ne.
Qed.

(** C2, the failing input: one row whose optional field is null.  The
    required check and the size check pass over the value, then
    [check_pattern] hands it to [re.match], which raises [TypeError];
    [validate_data] returns no error list. *)
Theorem validate_data_faults_on_null :
  (forall field_type,
     FileValidation.check_pattern FileValidation.VNone field_type = Raise TypeError)
  /\ FileValidation.validate_data
       {| FileValidation.tables :=
            <["T" := {| FileValidation.df_columns := ["NAME"];
                        FileValidation.df_rows := [] |}]> ∅;
          FileValidation.writes := [] |}
       {| FileValidation.df_columns := ["NAME"];
          FileValidation.df_rows := [[("NAME", FileValidation.VNone)]] |}
       {| FileValidation.duplicate_field_check := false;
          FileValidation.columns := ["NAME"];
          FileValidation.fields :=
            [("NAME", {| FileValidation.type := "alpha_numeric";
                         FileValidation.required := false;
                         FileValidation.size := Some 10%Z;
                         FileValidation.size_before_decimal := None;
                         FileValidation.size_after_decimal := None |})] |} "T"
     = Raise TypeError.
Proof. split; [reflexivity | vm_compute; reflexivity]. Qed.

(** * Further properties *)

(** ** [validate_data]: text data and other data *)

Lemma validate_fields_text (r : FileValidation.row)
    (rules : list (string * FileValidation.field_rule)) :
  text_only rules r ->
  forall errors,
    FileValidation.validate_fields r rules errors
    = Ok (errors ++ row_text_errors rules r).
Proof.
  induction rules as [|[f rule] rules IH]; intros Htext errors.
  - simpl. now rewrite app_nil_r.
  - assert (Htail : text_only rules r).
    { intros g v Hg. apply Htext. simpl. now apply list_elem_of_further. }
    cbn [FileValidation.validate_fields row_text_errors flat_map fst snd].
    destruct (FileValidation.row_get r f) as [v|] eqn:E.
    + destruct (Htext f v) as [s ->]; [simpl; apply list_elem_of_here | exact E |].
      rewrite (validate_field_text r errors f rule s E). cbn [bind].
      rewrite (IH Htail). now rewrite <- app_assoc.
    + rewrite (validate_field_absent r errors f rule E). cbn [bind].
      now rewrite (IH Htail).
Qed.

Lemma validate_rows_text (rules : list (string * FileValidation.field_rule))
    (rows : list FileValidation.row) :
  (forall r, r ∈ rows -> text_only rules r) ->
  forall errors,
    FileValidation.validate_rows rows rules errors
    = Ok (errors ++ flat_map (row_text_errors rules) rows).
Proof.
  induction rows as [|r rows IH]; intros Htext errors.
  - simpl. now rewrite app_nil_r.
  - cbn [FileValidation.validate_rows flat_map].
    rewrite (validate_fields_text r rules) by (apply Htext; apply list_elem_of_here).
    cbn [bind]. rewrite IH by (intros r0 Hr0; apply Htext; now apply list_elem_of_further).
    now rewrite <- app_assoc.
Qed.

(** On a frame whose validated cells all hold text, [validate_data]
    never faults: it returns, row by row and within a row in the order
    of the rules, the required, size and pattern errors of each cell. *)
Theorem validate_data_on_text (s : FileValidation.session)
    (data : FileValidation.dataframe) (rules : FileValidation.validation_rules)
    (snowpark_table : string) :
  is_Some (FileValidation.tables s !! snowpark_table) ->
  FileValidation.duplicate_field_check rules = false ->
  (forall r, r ∈ FileValidation.df_rows data ->
             text_only (FileValidation.fields rules) r) ->
  FileValidation.validate_data s data rules snowpark_table
  = Ok (List.map FileValidation.message
          (flat_map (row_text_errors (FileValidation.fields rules))
             (FileValidation.df_rows data))).
Proof.
  intros [t Ht] Hflag Htext.
  unfold FileValidation.validate_data, FileValidation.violations,
    FileValidation.table, FileValidation.collect.
  rewrite Ht, Hflag. cbn [bind].
  now rewrite (validate_rows_text _ _ Htext).
Qed.

(** Two rows of the sample kind, with an empty required cell. *)
Lemma validate_data_on_text_witness :
  FileValidation.validate_data
    {| FileValidation.tables :=
         <["T" := {| FileValidation.df_columns := ["A"; "B"];
                     FileValidation.df_rows := [] |}]> ∅;
       FileValidation.writes := [] |}
    {| FileValidation.df_columns := ["A"; "B"];
       FileValidation.df_rows :=
         [[("A", FileValidation.VStr "ABC123"); ("B", FileValidation.VStr "12")];
          [("A", FileValidation.VStr ""); ("B", FileValidation.VStr "x")]] |}
    {| FileValidation.duplicate_field_check := false;
       FileValidation.columns := ["A"; "B"];
       FileValidation.fields :=
         [("A", {| FileValidation.type := "alpha_numeric";
                   FileValidation.required := true;
                   FileValidation.size := Some 5%Z;
                   FileValidation.size_before_decimal := None;
                   FileValidation.size_after_decimal := None |});
          ("B", {| FileValidation.type := "numeric";
                   FileValidation.required := false;
                   FileValidation.size := None;
                   FileValidation.size_before_decimal := None;
                   FileValidation.size_after_decimal := None |})] |} "T"
  = Ok ["Field A exceeds the allowed size.";
        "Field A is required but is null or empty.";
        "Field A does not match the expected pattern (alpha_numeric).";
        "Field B does not match the expected pattern (numeric)."].
Proof.
  rewrite validate_data_on_text.
  - vm_compute. reflexivity.
  - vm_compute. eauto.
  - reflexivity.
  - intros r Hr f v Hf Hv. simpl in Hr, Hf.
    repeat (apply elem_of_cons in Hr as [-> | Hr]);
      [| | inversion Hr];
      repeat (apply elem_of_cons in Hf as [-> | Hf]);
      try (now inversion Hf);
      vm_compute in Hv; injection Hv as <-; eauto.
Defined.

Lemma validate_field_raises (r : FileValidation.row) (errors : list FileValidation.error)
    (f : string) (rule : FileValidation.field_rule) (x : exn) :
  FileValidation.validate_field r errors f rule = Raise x -> x = TypeError.
Proof.
  destruct (FileValidation.row_get r f) as [v|] eqn:E.
  - destruct v as [|s|z|t|b];
      try (rewrite (validate_field_non_text r errors f rule _ E I); congruence).
    rewrite (validate_field_text r errors f rule s E). discriminate.
  - rewrite (validate_field_absent r errors f rule E). discriminate.
Qed.

Lemma validate_fields_raises (r : FileValidation.row)
    (rules : list (string * FileValidation.field_rule)) (x : exn) :
  forall errors,
    FileValidation.validate_fields r rules errors = Raise x -> x = TypeError.
Proof.
  induction rules as [|[f rule] rules IH]; intros errors; simpl; [discriminate|].
  destruct (FileValidation.validate_field r errors f rule) as [e1|y] eqn:E; simpl.
  - apply IH.
  - intros [= <-]. now apply validate_field_raises in E.
Qed.

(** The fault of a row is the fault of the frame. *)
Lemma validate_rows_fault (rules : list (string * FileValidation.field_rule))
    (rows : list FileValidation.row) (r : FileValidation.row) :
  r ∈ rows ->
  (forall errors, is_ok (FileValidation.validate_fields r rules errors) = false) ->
  forall errors, FileValidation.validate_rows rows rules errors = Raise TypeError.
Proof.
  intros Hr Hbad. induction rows as [|r0 rows IH]; intros errors; [inversion Hr|].
  simpl. destruct (FileValidation.validate_fields r0 rules errors) as [e1|x] eqn:E; simpl.
  - apply elem_of_cons in Hr as [-> | Hr].
    + specialize (Hbad errors). rewrite E in Hbad. discriminate.
    + now apply IH.
  - now apply validate_fields_raises in E as ->.
Qed.

(** A validated cell that holds anything but text (a null, a number, a
    boolean) makes [validate_data] raise [TypeError], whatever the other
    cells hold and whether or not duplicates are flagged. *)
Theorem validate_data_non_text_faults (s : FileValidation.session)
    (data : FileValidation.dataframe) (rules : FileValidation.validation_rules)
    (snowpark_table : string) (r : FileValidation.row) (f : string)
    (v : FileValidation.value) :
  is_Some (FileValidation.tables s !! snowpark_table) ->
  r ∈ FileValidation.df_rows data ->
  f ∈ List.map fst (FileValidation.fields rules) ->
  FileValidation.row_get r f = Some v ->
  non_text v ->
  FileValidation.validate_data s data rules snowpark_table = Raise TypeError.
Proof.
  intros [t Ht] Hr Hf Hv Hnt.
  unfold FileValidation.validate_data, FileValidation.violations,
    FileValidation.table, FileValidation.collect.
  rewrite Ht. cbn [bind].
  destruct (FileValidation.duplicate_field_check rules).
  - destruct (flag_duplicates_rows (FileValidation.columns rules) data [])
      as (g & Hrows & Hg).
    rewrite Hrows.
    rewrite (validate_rows_fault (FileValidation.fields rules)
               (List.map g (FileValidation.df_rows data)) (g r)); [reflexivity | |].
    + apply list_elem_of_In, in_map, list_elem_of_In, Hr.
    + destruct (Hg r f) as [Heq | (c & w & _ & _ & Hw & Hwnt)].
      * rewrite <- Heq in Hv.
        exact (validate_fields_non_text (g r) _ f v Hf Hv Hnt).
      * exact (validate_fields_non_text (g r) _ f w Hf Hw Hwnt).
  - rewrite (validate_rows_fault (FileValidation.fields rules)
               (FileValidation.df_rows data) r Hr); [reflexivity|].
    exact (validate_fields_non_text r _ f v Hf Hv Hnt).
Qed.

(** An integer cell, as type inference produces for a numeric column. *)
Lemma validate_data_non_text_faults_witness :
  FileValidation.validate_data
    {| FileValidation.tables :=
         <["T" := {| FileValidation.df_columns := ["N"];
                     FileValidation.df_rows := [] |}]> ∅;
       FileValidation.writes := [] |}
    {| FileValidation.df_columns := ["N"];
       FileValidation.df_rows := [[("N", FileValidation.VInt 42)]] |}
    {| FileValidation.duplicate_field_check := true;
       FileValidation.columns := ["N"];
       FileValidation.fields :=
         [("N", {| FileValidation.type := "numeric";
                   FileValidation.required := true;
                   FileValidation.size := None;
                   FileValidation.size_before_decimal := None;
                   FileValidation.size_after_decimal := None |})] |} "T"
  = Raise TypeError.
Proof.
  apply (validate_data_non_text_faults _ _ _ _
           [("N", FileValidation.VInt 42)] "N" (FileValidation.VInt 42)).
  - vm_compute. eauto.
  - apply list_elem_of_here.
  - apply list_elem_of_here.
  - reflexivity.
  - exact I.
Defined.

(** ** The standalone validator: trimmed values *)

Lemma rstrip_last (s w : string) (a : ascii) :
  rstrip s = w +:+ String a EmptyString -> isspace a = false.
Proof.
  revert w. induction s as [|b s IH]; intros w; simpl.
  - destruct w; discriminate.
  - destruct (rstrip s) as [|c r] eqn:E.
    + destruct (isspace b) eqn:Hb.
      * destruct w; discriminate.
      * destruct w as [|b' w]; simpl.
        -- intros [= ->]. exact Hb.
        -- intros [= _ H]. destruct w; discriminate.
    + destruct w as [|b' w]; simpl.
      * intros [= _ H].
      * intros [= _ H]. apply (IH w). exact H.
Qed.

(** A trimmed value does not end in a line feed. *)
Lemma strip_ends_line (v w : string) : ends_line w (strip v) -> w = strip v.
Proof.
  intros [H | H]; [now symmetry|].
  apply rstrip_last in H. vm_compute in H. discriminate.
Qed.

Lemma nonempty_true (t : string) : nonempty t = true <-> t <> EmptyString.
Proof. destruct t; simpl; split; congruence. Qed.

Lemma nonempty_false (t : string) : nonempty t = false <-> t = EmptyString.
Proof. destruct t; simpl; split; congruence. Qed.

Lemma is_alpha_numeric_lines (s : string) :
  ValidatorNew.is_alpha_numeric s = true
  <-> exists w, ends_line w s /\ all_chars is_alnum w = true.
Proof.
  unfold ValidatorNew.is_alpha_numeric, ValidatorNew.re_alpha_numeric.
  rewrite check_pattern_line by exact is_alnum_LF.
  split; intros (w & Hw & H); exists w; (split; [exact Hw|]).
  - apply H.
  - split; [exact H|]. split; [lia | exact I].
Qed.

Lemma is_numeric_lines (s : string) :
  ValidatorNew.is_numeric s = true
  <-> exists w, ends_line w s /\ w <> EmptyString /\ all_chars is_digit w = true.
Proof.
  unfold ValidatorNew.is_numeric, ValidatorNew.re_numeric.
  rewrite check_pattern_line by exact is_digit_LF.
  split; intros (w & Hw & H); exists w; (split; [exact Hw|]).
  - destruct H as (Hall & Hlen & _). split; [|exact Hall].
    intros ->. simpl in Hlen. lia.
  - destruct H as [Hne Hall]. split; [exact Hall|]. split; [|exact I].
    destruct w; [congruence | simpl; lia].
Qed.

Lemma is_decimal_lines (value : string) (b a : Z) :
  ValidatorNew.is_decimal value b a = true
  <-> exists w, ends_line w value /\ wholly_decimal w b a.
Proof.
  split.
  - unfold ValidatorNew.is_decimal. rewrite re_match_standalone_decimal.
    destruct (decimal_match _ _ _ _ _) as [m|] eqn:E; [|discriminate].
    apply decimal_match_spec in E as (ip & fp & nl & -> & Hnl & Hip & Hfp & ->).
    destruct (group_frac_caps fp ip) as [-> ->].
    intros H. apply andb_prop in H as [Hb Ha].
    exists (decimal_text ip fp). split; [apply ends_line_append; eauto|].
    exists ip, fp. split; [reflexivity|]. split; [assumption|]. split; [assumption|].
    apply Z.leb_le in Hb. split; [exact Hb|].
    destruct fp as [d|]; simpl in Ha |- *; now apply Z.leb_le in Ha.
  - intros (w & Hend & ip & fp & -> & Hip & Hfp & Hb & Ha).
    apply ends_line_append in Hend as (nl & -> & Hnl).
    rewrite is_decimal_on_match by assumption.
    apply andb_true_intro. split; now apply Z.leb_le.
Qed.

Lemma is_alpha_numeric_trimmed (v : string) :
  ValidatorNew.is_alpha_numeric (strip v) = all_chars is_alnum (strip v).
Proof.
  apply Bool.eq_true_iff_eq. rewrite is_alpha_numeric_lines. split.
  - intros (w & Hw & H). apply strip_ends_line in Hw. now rewrite <- Hw.
  - intros H. exists (strip v). split; [now left | exact H].
Qed.

Lemma is_numeric_trimmed (v : string) :
  ValidatorNew.is_numeric (strip v)
  = nonempty (strip v) && all_chars is_digit (strip v).
Proof.
  apply Bool.eq_true_iff_eq. rewrite is_numeric_lines, andb_true_iff, nonempty_true.
  split.
  - intros (w & Hw & H). apply strip_ends_line in Hw. now rewrite <- Hw.
  - intros H. exists (strip v). split; [now left | exact H].
Qed.

Lemma is_decimal_trimmed (v : string) (b a : Z) :
  ValidatorNew.is_decimal (strip v) b a = true <-> wholly_decimal (strip v) b a.
Proof.
  rewrite is_decimal_lines. split.
  - intros (w & Hw & H). apply strip_ends_line in Hw. now rewrite <- Hw.
  - intros H. exists (strip v). split; [now left | exact H].
Qed.

(** On texts of code points below 256, where [\d] stands for the ten
    digits 0 to 9: [is_alpha_numeric] accepts exactly the texts made of
    ASCII letters and digits, the empty text among them, and
    [is_numeric] exactly the non-empty texts made of the digits 0 to 9;
    both also accept such a text followed by one line feed. *)
Theorem type_predicates_spec (value : string) :
  (ValidatorNew.is_alpha_numeric value = true
   <-> exists w, ends_line w value /\ all_chars is_alnum w = true)
  /\ (ValidatorNew.is_numeric value = true
      <-> exists w, ends_line w value /\ w <> EmptyString
                    /\ all_chars is_digit w = true).
Proof. split; [apply is_alpha_numeric_lines | apply is_numeric_lines]. Qed.

(** ** The standalone validator: the checks of one field *)

(** The [if]/[elif] chain of the type validation, by type. *)
Lemma check_type_cases (field t : string) (spec : ValidatorNew.field_spec) :
  ValidatorNew.check_type field t spec []
  = if nonempty t then
      if String.eqb (ValidatorNew.type spec) "alpha_numeric" then
        if ValidatorNew.is_alpha_numeric t then []
        else [ValidatorNew.NotAlphanumeric field]
      else if String.eqb (ValidatorNew.type spec) "numeric" then
        if ValidatorNew.is_numeric t then [] else [ValidatorNew.NotNumeric field]
      else if String.eqb (ValidatorNew.type spec) "decimal" then
        if ValidatorNew.is_decimal t
             (default 10%Z (ValidatorNew.size_before_decimal spec))
             (default 10%Z (ValidatorNew.size_after_decimal spec))
        then []
        else [ValidatorNew.NotDecimal field
                (default 10%Z (ValidatorNew.size_before_decimal spec))
                (default 10%Z (ValidatorNew.size_after_decimal spec))]
      else []
    else [].
Proof.
  unfold ValidatorNew.check_type, ValidatorNew.append_if. cbv zeta.
  destruct (String.eqb_spec (ValidatorNew.type spec) "alpha_numeric") as [E|E].
  - rewrite E. cbn [String.eqb Ascii.eqb Bool.eqb andb].
    destruct (nonempty t), (ValidatorNew.is_alpha_numeric t); reflexivity.
  - destruct (String.eqb_spec (ValidatorNew.type spec) "numeric") as [E1|E1].
    + rewrite E1. cbn [String.eqb Ascii.eqb Bool.eqb andb].
      destruct (nonempty t), (ValidatorNew.is_numeric t); reflexivity.
    + destruct (String.eqb_spec (ValidatorNew.type spec) "decimal") as [E2|E2];
        destruct (nonempty t); try reflexivity.
      destruct (ValidatorNew.is_decimal _ _ _); reflexivity.
Qed.

Lemma if_singleton_elem {A : Type} (c : bool) (x v : A) :
  v ∈ (if c then [x] else []) <-> c = true /\ v = x.
Proof.
  destruct c.
  - rewrite list_elem_of_singleton. tauto.
  - split; [intros H; inversion H | intros [? _]; discriminate].
Qed.

Lemma if_singleton_nil {A : Type} (c : bool) (x : A) :
  (if c then [x] else []) = [] <-> c = false.
Proof. destruct c; split; congruence. Qed.

Lemma existsb_eqb_elem (t : string) (allowed : list string) :
  existsb (String.eqb t) allowed = true <-> t ∈ allowed.
Proof.
  rewrite existsb_exists. split.
  - intros (x & Hx & E). apply String.eqb_eq in E as ->. now apply list_elem_of_In.
  - intros H. exists t. split; [now apply list_elem_of_In | apply String.eqb_refl].
Qed.

(** What one item of a record with a rule can be reported for. *)
Lemma item_violations_elem (defs : gmap string ValidatorNew.field_spec)
    (field value : string) (spec : ValidatorNew.field_spec)
    (v : ValidatorNew.violation) :
  defs !! field = Some spec ->
  v ∈ item_violations defs (field, value)
  <-> (v = ValidatorNew.RequiredMissing field
       /\ ValidatorNew.required spec = true /\ strip value = EmptyString)
      \/ (v = ValidatorNew.ExceedsMaxSize field (ValidatorNew.size spec)
          /\ (ValidatorNew.len (strip value) > ValidatorNew.size spec)%Z)
      \/ v ∈ ValidatorNew.check_type field (strip value) spec []
      \/ v ∈ ValidatorNew.check_range field (strip value) spec []
      \/ (v = ValidatorNew.IsZero field
          /\ ValidatorNew.zero_check spec = true /\ strip value = "0")
      \/ (exists allowed,
            ValidatorNew.allowed_values spec = Some allowed
            /\ v = ValidatorNew.InvalidValue field (strip value) allowed
            /\ strip value <> EmptyString /\ (strip value ∉ allowed)).
Proof.
  intros Hspec. unfold item_violations.
  rewrite (validate_item_known defs [] field value spec Hspec).
  cbn [app]. rewrite !elem_of_app, !if_singleton_elem.
  rewrite !andb_true_iff, negb_true_iff, nonempty_false, String.eqb_eq, Z.gtb_gt.
  assert (Hallowed :
    v ∈ match ValidatorNew.allowed_values spec with
        | Some allowed =>
            if nonempty (strip value)
               && negb (existsb (String.eqb (strip value)) allowed)
            then [ValidatorNew.InvalidValue field (strip value) allowed] else []
        | None => []
        end
    <-> exists allowed,
          ValidatorNew.allowed_values spec = Some allowed
          /\ v = ValidatorNew.InvalidValue field (strip value) allowed
          /\ strip value <> EmptyString /\ (strip value ∉ allowed)).
  { destruct (ValidatorNew.allowed_values spec) as [allowed|].
    - rewrite if_singleton_elem, andb_true_iff, negb_true_iff, nonempty_true.
      rewrite <- Bool.not_true_iff_false, existsb_eqb_elem. split.
      + intros [[? ?] ->]. exists allowed. auto.
      + intros (l & [= <-] & -> & ? & ?). auto.
    - split; [intros H; inversion H | intros (l & ? & _); discriminate]. }
  rewrite Hallowed. tauto.
Qed.

(** With distinct keys, what is reported for a field comes from the one
    item of that field. *)
Lemma violations_of_field (defs : gmap string ValidatorNew.field_spec)
    (record : ValidatorNew.record) (field value : string)
    (v : ValidatorNew.violation) :
  NoDup (List.map fst record) ->
  (field, value) ∈ record ->
  ValidatorNew.field_of v = field ->
  v ∈ ValidatorNew.violations defs record
  <-> v ∈ item_violations defs (field, value).
Proof.
  intros Hnd Hin Hfield. rewrite violations_elem. split.
  - intros ([f x] & Hitem & Hv).
    pose proof (item_violations_field defs (f, x) v Hv) as Hf. simpl in Hf.
    rewrite Hfield in Hf. subst f.
    now rewrite <- (record_item_unique record field x value Hnd Hitem Hin).
  - intros Hv. exists (field, value). auto.
Qed.

Ltac other_checks :=
  repeat match goal with
         | H : _ \/ _ |- _ => destruct H as [H | H]
         | H : _ /\ _ |- _ => destruct H as [? ?]
         | H : exists _, _ |- _ => destruct H as [? H]
         | H : _ ∈ ValidatorNew.check_type _ _ _ [] |- _ =>
             apply check_type_field in H
         | H : _ ∈ ValidatorNew.check_range _ _ _ [] |- _ =>
             apply check_range_elem in H
         | H : match ?x with Ok _ => _ | Raise _ => _ end |- _ => destruct x
         end;
  try discriminate.

(** For a field of the record that has a rule, the type violations are
    decided on the trimmed value as a whole: not-alphanumeric exactly
    when the type is alpha_numeric and some character of it is no ASCII
    letter or digit; not-numeric exactly when the type is numeric and it
    is not empty and some character is no digit; not-decimal, with the
    limits of the rule (10 by default), exactly when the type is decimal
    and it is not empty and no decimal numeral within the limits. *)
Theorem type_check_on_trimmed_value (defs : gmap string ValidatorNew.field_spec)
    (record : ValidatorNew.record) (field value : string)
    (spec : ValidatorNew.field_spec) :
  NoDup (List.map fst record) ->
  (field, value) ∈ record ->
  defs !! field = Some spec ->
  (ValidatorNew.NotAlphanumeric field ∈ ValidatorNew.violations defs record
   <-> ValidatorNew.type spec = "alpha_numeric"
       /\ all_chars is_alnum (strip value) = false)
  /\ (ValidatorNew.NotNumeric field ∈ ValidatorNew.violations defs record
      <-> ValidatorNew.type spec = "numeric"
          /\ strip value <> EmptyString
          /\ all_chars is_digit (strip value) = false)
  /\ (forall b a,
        ValidatorNew.NotDecimal field b a ∈ ValidatorNew.violations defs record
        <-> ValidatorNew.type spec = "decimal"
            /\ b = default 10%Z (ValidatorNew.size_before_decimal spec)
            /\ a = default 10%Z (ValidatorNew.size_after_decimal spec)
            /\ strip value <> EmptyString
            /\ ~ wholly_decimal (strip value) b a).
Proof.
  intros Hnd Hin Hspec.
  assert (Hty : forall v,
            ValidatorNew.field_of v = field ->
            (v = ValidatorNew.NotAlphanumeric field \/ v = ValidatorNew.NotNumeric field
             \/ exists b a, v = ValidatorNew.NotDecimal field b a) ->
            v ∈ ValidatorNew.violations defs record
            <-> v ∈ ValidatorNew.check_type field (strip value) spec []).
  { intros v Hf Hkind.
    rewrite (violations_of_field defs record field value v Hnd Hin Hf).
    rewrite (item_violations_elem defs field value spec v Hspec).
    split; [|tauto].
    intros H. destruct H as [H | [H | [H | H]]]; [| |exact H|].
    - exfalso. destruct H as [-> _]. other_checks.
    - exfalso. destruct H as [-> _]. other_checks.
    - exfalso. destruct H as [H | [H | H]].
      + apply check_range_elem in H as (lo & hi & _ & _ & H).
        destruct (float (strip value)); [destruct H as [_ ->] | subst v]; other_checks.
      + destruct H as [-> _]. other_checks.
      + destruct H as (l & _ & -> & _). other_checks. }
  rewrite Hty by (simpl; eauto).
  rewrite Hty by (simpl; eauto).
  split; [|split; [|intros b a; rewrite Hty by (simpl; eauto)]];
    rewrite check_type_cases.
  - destruct (nonempty (strip value)) eqn:Hne.
    + destruct (String.eqb_spec (ValidatorNew.type spec) "alpha_numeric") as [E|E].
      * rewrite is_alpha_numeric_trimmed.
        destruct (all_chars is_alnum (strip value)).
        -- split; [intros H; inversion H | intros [_ ?]; discriminate].
        -- rewrite list_elem_of_singleton. tauto.
      * split; [|tauto]. intros H. exfalso.
        repeat match type of H with
               | context [if ?c then _ else _] => destruct c
               end;
          try (apply list_elem_of_singleton in H; discriminate); inversion H.
    + apply nonempty_false in Hne. rewrite Hne.
      split; [intros H; inversion H | intros [_ ?]; discriminate].
  - destruct (nonempty (strip value)) eqn:Hne.
    + assert (Hne' := proj1 (nonempty_true _) Hne).
      destruct (String.eqb_spec (ValidatorNew.type spec) "alpha_numeric") as [E|E].
      * split; [|rewrite E; intros [? _]; discriminate].
        destruct (ValidatorNew.is_alpha_numeric _); intros H;
          [inversion H | apply list_elem_of_singleton in H; discriminate].
      * destruct (String.eqb_spec (ValidatorNew.type spec) "numeric") as [E1|E1].
        -- rewrite is_numeric_trimmed, Hne. cbn [andb].
           destruct (all_chars is_digit (strip value)).
           ++ split; [intros H; inversion H | intros (_ & _ & ?); discriminate].
           ++ rewrite list_elem_of_singleton. tauto.
        -- split; [|tauto]. intros H. exfalso.
           repeat match type of H with
                  | context [if ?c then _ else _] => destruct c
                  end;
             try (apply list_elem_of_singleton in H; discriminate); inversion H.
    + split; [intros H; inversion H|].
      apply nonempty_false in Hne. tauto.
  - destruct (nonempty (strip value)) eqn:Hne.
    + assert (Hne' := proj1 (nonempty_true _) Hne).
      destruct (String.eqb_spec (ValidatorNew.type spec) "alpha_numeric") as [E|E].
      * split; [|rewrite E; intros [? _]; discriminate].
        destruct (ValidatorNew.is_alpha_numeric _); intros H;
          [inversion H | apply list_elem_of_singleton in H; discriminate].
      * destruct (String.eqb_spec (ValidatorNew.type spec) "numeric") as [E1|E1].
        -- split; [|rewrite E1; intros [? _]; discriminate].
           destruct (ValidatorNew.is_numeric _); intros H;
             [inversion H | apply list_elem_of_singleton in H; discriminate].
        -- destruct (String.eqb_spec (ValidatorNew.type spec) "decimal") as [E2|E2].
           ++ destruct (ValidatorNew.is_decimal _ _ _) eqn:Hd.
              ** split; [intros H; inversion H|].
                 intros (_ & -> & -> & _ & Hnot). exfalso. apply Hnot.
                 now apply is_decimal_trimmed.
              ** rewrite list_elem_of_singleton. split.
                 --- intros [= -> ->]. repeat split; try assumption.
                     intros Hw. apply is_decimal_trimmed in Hw. congruence.
                 --- intros (_ & -> & -> & _). reflexivity.
           ++ split; [intros H; inversion H | tauto].
    + split; [intros H; inversion H|].
      apply nonempty_false in Hne. tauto.
Qed.

(** The third row of the sample, whose first field holds an underscore. *)
Lemma type_check_on_trimmed_value_witness :
  ValidatorNew.NotAlphanumeric "FIELD1"
  ∈ ValidatorNew.violations (ValidatorNew.fields ValidatorNew.fixture_json)
      [("FIELD1", "LONG_TEXT_EXCEEDING_LIMIT"); ("FIELD2", "ValidText");
       ("FIELD_DEC1", "12.34"); ("FIELD_NUMERIC1", "5678")].
Proof.
  apply (type_check_on_trimmed_value
           (ValidatorNew.fields ValidatorNew.fixture_json)
           [("FIELD1", "LONG_TEXT_EXCEEDING_LIMIT"); ("FIELD2", "ValidText");
            ("FIELD_DEC1", "12.34"); ("FIELD_NUMERIC1", "5678")]
           "FIELD1" "LONG_TEXT_EXCEEDING_LIMIT"
           {| ValidatorNew.size := 500; ValidatorNew.type := "alpha_numeric";
              ValidatorNew.required := true;
              ValidatorNew.size_before_decimal := None;
              ValidatorNew.size_after_decimal := None;
              ValidatorNew.allowed_values := None;
              ValidatorNew.range := None;
              ValidatorNew.zero_check := false |}).
  - apply (bool_decide_unpack _). vm_compute. exact I.
  - apply list_elem_of_here.
  - reflexivity.
  - split; reflexivity.
Defined.

(** For a field of the record that has a rule: the size violation is
    reported, with the size of the rule, exactly when the trimmed value
    is longer than that size; the zero violation exactly when the rule
    asks for the zero check and the trimmed value is the one character
    0; the invalid-value violation, with the trimmed value and the list
    of the rule, exactly when the rule lists allowed values and the
    trimmed value is neither empty nor in the list. *)
Theorem size_zero_allowed_checks (defs : gmap string ValidatorNew.field_spec)
    (record : ValidatorNew.record) (field value : string)
    (spec : ValidatorNew.field_spec) :
  NoDup (List.map fst record) ->
  (field, value) ∈ record ->
  defs !! field = Some spec ->
  (forall n,
     ValidatorNew.ExceedsMaxSize field n ∈ ValidatorNew.violations defs record
     <-> n = ValidatorNew.size spec
         /\ (Z.of_nat (String.length (strip value)) > ValidatorNew.size spec)%Z)
  /\ (ValidatorNew.IsZero field ∈ ValidatorNew.violations defs record
      <-> ValidatorNew.zero_check spec = true /\ strip value = "0")
  /\ (forall x allowed,
        ValidatorNew.InvalidValue field x allowed ∈ ValidatorNew.violations defs record
        <-> ValidatorNew.allowed_values spec = Some allowed
            /\ x = strip value
            /\ x <> EmptyString
            /\ (x ∉ allowed)).
Proof.
  intros Hnd Hin Hspec.
  assert (Hv : forall v,
            ValidatorNew.field_of v = field ->
            v ∈ ValidatorNew.violations defs record
            <-> v ∈ item_violations defs (field, value)).
  { intros v Hf. exact (violations_of_field defs record field value v Hnd Hin Hf). }
  split; [|split]; intros; rewrite Hv by reflexivity;
    rewrite (item_violations_elem defs field value spec _ Hspec).
  - split.
    + intros H. other_checks.
      match goal with H : ValidatorNew.ExceedsMaxSize _ _ = _ |- _ =>
        injection H as -> end.
      auto.
    + intros [-> H]. right. left. auto.
  - split.
    + intros H. other_checks. auto.
    + intros [? ?]. do 4 right. left. auto.
  - split.
    + intros H. other_checks.
      match goal with H : ValidatorNew.InvalidValue _ _ _ = _ |- _ =>
        injection H as -> -> end.
      auto.
    + intros (Ha & -> & Hne & Hnot). do 5 right. exists allowed. auto.
Qed.

(** The last row of the sample: a zero and a value outside the list. *)
Lemma size_zero_allowed_checks_witness :
  ValidatorNew.IsZero "FIELD_NUMERIC1"
  ∈ ValidatorNew.violations (ValidatorNew.fields ValidatorNew.fixture_json)
      [("FIELD1", "Value123"); ("FIELD2", "InvalidValue");
       ("FIELD_DEC1", "1500.99"); ("FIELD_NUMERIC1", "0")].
Proof.
  apply (size_zero_allowed_checks
           (ValidatorNew.fields ValidatorNew.fixture_json)
           [("FIELD1", "Value123"); ("FIELD2", "InvalidValue");
            ("FIELD_DEC1", "1500.99"); ("FIELD_NUMERIC1", "0")]
           "FIELD_NUMERIC1" "0"
           {| ValidatorNew.size := 21; ValidatorNew.type := "numeric";
              ValidatorNew.required := false;
              ValidatorNew.size_before_decimal := None;
              ValidatorNew.size_after_decimal := None;
              ValidatorNew.allowed_values := None;
              ValidatorNew.range := None;
              ValidatorNew.zero_check := true |}).
  - apply (bool_decide_unpack _). vm_compute. exact I.
  - do 3 apply list_elem_of_further. apply list_elem_of_here.
  - reflexivity.
  - split; reflexivity.
Defined.

(** A field of the record is reported as unexpected exactly when no
    rule exists for it, and then nothing else is reported for it: none
    of the other checks is made. *)
Theorem unexpected_field_spec (defs : gmap string ValidatorNew.field_spec)
    (record : ValidatorNew.record) (field : string) :
  (ValidatorNew.UnexpectedField field ∈ ValidatorNew.violations defs record
   <-> field ∈ List.map fst record /\ defs !! field = None)
  /\ (defs !! field = None ->
      forall v, v ∈ ValidatorNew.violations defs record ->
                ValidatorNew.field_of v = field ->
                v = ValidatorNew.UnexpectedField field).
Proof.
  split.
  - split.
    + intros H. split; [exact (violations_fields defs record _ H)|].
      apply violations_elem in H as ([f x] & Hitem & Hv).
      pose proof (item_violations_field defs (f, x) _ Hv) as Hf.
      simpl in Hf. subst f.
      destruct (defs !! field) as [spec|] eqn:E; [exfalso | reflexivity].
      apply (item_violations_elem defs field x spec _ E) in Hv. other_checks.
    + intros [Hkey Hnone]. apply violations_elem.
      apply list_elem_of_In, in_map_iff in Hkey as ([f x] & Hf & Hitem).
      simpl in Hf. subst f. exists (field, x).
      split; [now apply list_elem_of_In|].
      unfold item_violations, ValidatorNew.validate_item. rewrite Hnone.
      apply list_elem_of_here.
  - intros Hnone v Hv Hf.
    apply violations_elem in Hv as ([f x] & Hitem & Hv).
    pose proof (item_violations_field defs (f, x) _ Hv) as Hf'.
    simpl in Hf'. rewrite Hf in Hf'. subst f.
    unfold item_violations, ValidatorNew.validate_item in Hv. rewrite Hnone in Hv.
    now apply list_elem_of_singleton in Hv.
Qed.

(** ** The standalone validator: records without violations *)

Lemma check_type_nil (field v : string) (spec : ValidatorNew.field_spec) :
  ValidatorNew.check_type field (strip v) spec [] = []
  <-> (strip v <> EmptyString ->
       (ValidatorNew.type spec = "alpha_numeric" ->
        all_chars is_alnum (strip v) = true)
       /\ (ValidatorNew.type spec = "numeric" ->
           all_chars is_digit (strip v) = true)
       /\ (ValidatorNew.type spec = "decimal" ->
           wholly_decimal (strip v)
             (default 10%Z (ValidatorNew.size_before_decimal spec))
             (default 10%Z (ValidatorNew.size_after_decimal spec)))).
Proof.
  rewrite check_type_cases.
  destruct (nonempty (strip v)) eqn:Hne.
  2:{ apply nonempty_false in Hne. split; [intros _ H; contradiction | reflexivity]. }
  assert (Hne' := proj1 (nonempty_true _) Hne).
  destruct (String.eqb_spec (ValidatorNew.type spec) "alpha_numeric") as [E|E].
  { rewrite is_alpha_numeric_trimmed.
    destruct (all_chars is_alnum (strip v)).
    - split; [|reflexivity]. intros _ _.
      split; [reflexivity|]. split; intros E'; rewrite E in E'; discriminate.
    - split; [discriminate|]. intros H. destruct (H Hne') as [H1 _].
      specialize (H1 E). discriminate. }
  destruct (String.eqb_spec (ValidatorNew.type spec) "numeric") as [E1|E1].
  { rewrite is_numeric_trimmed, Hne. cbn [andb].
    destruct (all_chars is_digit (strip v)).
    - split; [|reflexivity]. intros _ _.
      split; [contradiction|]. split; [reflexivity|].
      intros E'; rewrite E1 in E'; discriminate.
    - split; [discriminate|]. intros H. destruct (H Hne') as (_ & H1 & _).
      specialize (H1 E1). discriminate. }
  destruct (String.eqb_spec (ValidatorNew.type spec) "decimal") as [E2|E2].
  { destruct (ValidatorNew.is_decimal _ _ _) eqn:Hd.
    - split; [|reflexivity]. intros _ _.
      split; [contradiction|]. split; [contradiction|].
      intros _. now apply is_decimal_trimmed.
    - split; [discriminate|]. intros H. destruct (H Hne') as (_ & _ & H1).
      apply is_decimal_trimmed in H1; [congruence | exact E2]. }
  split; [|reflexivity]. intros _ _. repeat split; contradiction.
Qed.

Lemma check_range_nil (field t : string) (spec : ValidatorNew.field_spec) :
  ValidatorNew.check_range field t spec [] = []
  <-> (t <> EmptyString ->
       forall lo hi, ValidatorNew.range spec = Some (lo, hi) ->
                     exists x, float t = Ok x /\ inside lo hi x).
Proof.
  unfold ValidatorNew.check_range, ValidatorNew.append_if.
  destruct (ValidatorNew.range spec) as [[lo hi]|].
  2:{ split; [intros _ _ lo hi; discriminate | reflexivity]. }
  destruct (nonempty t) eqn:Hne.
  2:{ apply nonempty_false in Hne. split; [intros _ H; contradiction | reflexivity]. }
  assert (Hne' := proj1 (nonempty_true _) Hne).
  destruct (float t) as [x|e].
  - destruct (ValidatorNew.out_of_range lo hi x) eqn:E; simpl.
    + split; [discriminate|]. intros H.
      destruct (H Hne' lo hi eq_refl) as (x' & [= <-] & Hin).
      apply out_of_range_inside in E. contradiction.
    + split; [|reflexivity]. intros _ _ lo' hi' [= <- <-].
      exists x. split; [reflexivity|].
      unfold ValidatorNew.out_of_range in E. apply negb_false_iff in E.
      apply andb_prop in E. exact E.
  - simpl. split; [discriminate|]. intros H.
    destruct (H Hne' lo hi eq_refl) as (x' & Hx & _). discriminate.
Qed.

(** Nothing is reported for an item exactly when its field has a rule
    and its trimmed value passes every check of the rule. *)
Lemma item_violations_nil (defs : gmap string ValidatorNew.field_spec)
    (item : string * string) :
  item_violations defs item = [] <-> item_ok defs item.
Proof.
  destruct item as [field v]. unfold item_ok. cbn [fst snd].
  destruct (defs !! field) as [spec|] eqn:Hspec.
  2:{ unfold item_violations, ValidatorNew.validate_item. rewrite Hspec.
      split; [discriminate | intros (spec & ? & _); discriminate]. }
  unfold item_violations.
  rewrite (validate_item_known defs [] field v spec Hspec). cbn [app].
  rewrite !app_nil, !if_singleton_nil, check_type_nil, check_range_nil.
  assert (Hallowed :
    match ValidatorNew.allowed_values spec with
    | Some allowed =>
        if nonempty (strip v) && negb (existsb (String.eqb (strip v)) allowed)
        then [ValidatorNew.InvalidValue field (strip v) allowed] else []
    | None => []
    end = []
    <-> (strip v <> EmptyString ->
         forall allowed, ValidatorNew.allowed_values spec = Some allowed ->
                         strip v ∈ allowed)).
  { destruct (ValidatorNew.allowed_values spec) as [allowed|].
    - rewrite if_singleton_nil.
      destruct (nonempty (strip v)) eqn:Hne; cbn [andb].
      + rewrite negb_false_iff, existsb_eqb_elem.
        apply nonempty_true in Hne. split.
        * intros H _ l [= <-]. exact H.
        * intros H. exact (H Hne allowed eq_refl).
      + apply nonempty_false in Hne. split; [intros _ H; contradiction | reflexivity].
    - split; [intros _ _ l; discriminate | reflexivity]. }
  rewrite Hallowed.
  assert (Hreq : ValidatorNew.required spec && negb (nonempty (strip v)) = false
                 <-> (ValidatorNew.required spec = true -> strip v <> EmptyString)).
  { destruct (ValidatorNew.required spec); cbn [andb].
    - rewrite negb_false_iff, nonempty_true. tauto.
    - split; [discriminate | reflexivity]. }
  assert (Hzero : ValidatorNew.zero_check spec && String.eqb (strip v) "0" = false
                  <-> (ValidatorNew.zero_check spec = true -> strip v <> "0")).
  { destruct (ValidatorNew.zero_check spec); cbn [andb].
    - rewrite String.eqb_neq. tauto.
    - split; [discriminate | reflexivity]. }
  assert (Hsize : (ValidatorNew.len (strip v) >? ValidatorNew.size spec)%Z = false
                  <-> (ValidatorNew.len (strip v) <= ValidatorNew.size spec)%Z).
  { rewrite Z.gtb_ltb, Z.ltb_ge. reflexivity. }
  rewrite Hreq, Hzero, Hsize. unfold value_ok. split.
  - intros (H1 & H2 & H3 & H4 & H5 & H6). exists spec. split; [reflexivity|].
    split; [exact H1|]. split; [exact H2|]. split; [|exact H5].
    intros Hne. destruct (H3 Hne) as (Ha & Hn & Hd).
    split; [exact Ha|]. split; [exact Hn|]. split; [exact Hd|].
    split; [exact (H4 Hne) | exact (H6 Hne)].
  - intros (spec' & [= <-] & H1 & H2 & H3 & H5).
    split; [exact H1|]. split; [exact H2|].
    split; [intros Hne; destruct (H3 Hne) as (Ha & Hn & Hd & _); auto|].
    split; [intros Hne; destruct (H3 Hne) as (_ & _ & _ & Hr & _); exact Hr|].
    split; [exact H5|].
    intros Hne; destruct (H3 Hne) as (_ & _ & _ & _ & Hl); exact Hl.
Qed.

Lemma violations_nil (defs : gmap string ValidatorNew.field_spec)
    (record : ValidatorNew.record) :
  ValidatorNew.violations defs record = [] <-> Forall (item_ok defs) record.
Proof.
  rewrite violations_flat_map.
  induction record as [|item record IH]; simpl.
  - split; [constructor | reflexivity].
  - rewrite app_nil, Forall_cons, IH, item_violations_nil. reflexivity.
Qed.

(** [validate_record] returns no message for a record exactly when
    every item of it names a field that has a rule and carries a value
    which, once trimmed, passes every check of the rule: not empty when
    required, no longer than the size, and, unless it is empty, of the
    declared type as a whole, a number within the range, and one of the
    allowed values; and not the one character 0 under the zero check. *)
Theorem validate_record_clean_iff (defs : gmap string ValidatorNew.field_spec)
    (repr_float : spec_float -> string) (repr_str : string -> string)
    (record : ValidatorNew.record) (row_idx : nat) :
  ValidatorNew.validate_record defs repr_float repr_str record row_idx = []
  <-> Forall (item_ok defs) record.
Proof.
  unfold ValidatorNew.validate_record. rewrite <- violations_nil.
  destruct (ValidatorNew.violations defs record); simpl; split; congruence.
Qed.

(** ** The standalone validator: duplicates and the printed result *)

Lemma check_duplicates_positions (records : list ValidatorNew.record) :
  ValidatorNew.check_duplicates records
  = List.map ValidatorNew.duplicate_message (repeat_positions 1 [] records).
Proof.
  unfold ValidatorNew.check_duplicates.
  change (∅ : gset ValidatorNew.record) with (list_to_set [] : gset ValidatorNew.record).
  now rewrite check_duplicates_loop_positions.
Qed.

Lemma repeat_positions_nil (rs : list ValidatorNew.record) :
  forall i pre,
    repeat_positions i pre rs = []
    <-> NoDup rs /\ forall r, r ∈ rs -> r ∉ pre.
Proof.
  induction rs as [|r rs IH]; intros i pre; simpl.
  - split; [|reflexivity]. intros _. split; [constructor|].
    intros r Hr. inversion Hr.
  - rewrite app_nil, IH, NoDup_cons. split.
    + intros (Hr & Hnd & Hpre).
      assert (Hnot : r ∉ pre).
      { destruct (bool_decide (r ∈ pre)) eqn:E; [discriminate|].
        now apply bool_decide_eq_false in E. }
      split; [split; [|exact Hnd]|].
      * intros Hin. apply (Hpre r Hin), elem_of_app. right. apply list_elem_of_here.
      * intros x Hx. apply elem_of_cons in Hx as [-> | Hx]; [exact Hnot|].
        intros Hin. apply (Hpre x Hx), elem_of_app. now left.
    + intros ((Hnotin & Hnd) & Hpre).
      assert (Hnot : r ∉ pre) by (apply Hpre, list_elem_of_here).
      split; [|split; [exact Hnd|]].
      * destruct (bool_decide (r ∈ pre)) eqn:E; [|reflexivity].
        apply bool_decide_eq_true in E. contradiction.
      * intros x Hx Hin. apply elem_of_app in Hin as [Hin | Hin].
        -- apply (Hpre x); [now apply list_elem_of_further | exact Hin].
        -- apply list_elem_of_singleton in Hin. now subst x.
Qed.

Lemma repeat_positions_count (rs : list ValidatorNew.record) :
  forall i pre,
    length (repeat_positions i pre rs)
    + size (list_to_set (pre ++ rs) : gset ValidatorNew.record)
    = length rs + size (list_to_set pre : gset ValidatorNew.record).
Proof.
  induction rs as [|r rs IH]; intros i pre; simpl.
  - now rewrite app_nil_r.
  - rewrite length_app. specialize (IH (S i) (pre ++ [r])).
    rewrite <- app_assoc in IH. simpl in IH.
    assert (Hset : list_to_set (pre ++ [r])
                   =@{gset ValidatorNew.record} {[r]} ∪ list_to_set pre).
    { apply set_eq. intros x.
      rewrite elem_of_union, !elem_of_list_to_set, elem_of_app,
        elem_of_singleton, list_elem_of_singleton. tauto. }
    rewrite Hset in IH.
    destruct (bool_decide (r ∈ pre)) eqn:E; simpl.
    + apply bool_decide_eq_true in E.
      assert (Hsub : {[r]} ∪ list_to_set pre =@{gset ValidatorNew.record} list_to_set pre).
      { apply set_eq. intros x.
        rewrite elem_of_union, elem_of_singleton, elem_of_list_to_set.
        split; [intros [-> | ?]; assumption | tauto]. }
      rewrite Hsub in IH. lia.
    + apply bool_decide_eq_false in E.
      rewrite size_union in IH.
      * rewrite size_singleton in IH. lia.
      * apply disjoint_singleton_l. now rewrite elem_of_list_to_set.
Qed.

Lemma check_duplicates_nil (records : list ValidatorNew.record) :
  ValidatorNew.check_duplicates records = [] <-> NoDup records.
Proof.
  rewrite check_duplicates_positions.
  assert (H : forall l : list nat,
             List.map ValidatorNew.duplicate_message l = [] <-> l = []).
  { intros [|x l]; simpl; split; congruence. }
  rewrite H, repeat_positions_nil. split; [tauto|].
  intros Hnd. split; [exact Hnd|]. intros r _ Hr. inversion Hr.
Qed.

(** [check_duplicates] returns no message exactly when the records are
    pairwise different. *)
Theorem check_duplicates_none_iff_distinct (records : list ValidatorNew.record) :
  ValidatorNew.check_duplicates records = [] <-> NoDup records.
Proof. apply check_duplicates_nil. Qed.

(** The number of messages of [check_duplicates] is the number of
    records less the number of different records: every record but the
    first of each content is reported. *)
Theorem check_duplicates_count (records : list ValidatorNew.record) :
  length (ValidatorNew.check_duplicates records)
  + size (list_to_set records : gset ValidatorNew.record)
  = length records.
Proof.
  rewrite check_duplicates_positions, length_map.
  pose proof (repeat_positions_count records 1 []) as H.
  cbn [app] in H.
  change (list_to_set [] : gset ValidatorNew.record) with (∅ : gset ValidatorNew.record) in H.
  rewrite size_empty in H. lia.
Qed.

Lemma validate_all_nil (defs : gmap string ValidatorNew.field_spec)
    (repr_float : spec_float -> string) (repr_str : string -> string)
    (records : list ValidatorNew.record) :
  forall row_idx,
    ValidatorNew.validate_all defs repr_float repr_str row_idx records = []
    <-> Forall (fun record => Forall (item_ok defs) record) records.
Proof.
  induction records as [|record records IH]; intros row_idx; simpl.
  - split; [constructor | reflexivity].
  - rewrite app_nil, Forall_cons, IH.
    unfold ValidatorNew.validate_record.
    assert (H : List.map (ValidatorNew.message repr_float repr_str row_idx)
                  (ValidatorNew.violations defs record) = []
                <-> ValidatorNew.violations defs record = []).
    { destruct (ValidatorNew.violations defs record); simpl; split; congruence. }
    rewrite H, violations_nil. reflexivity.
Qed.

(** [main] prints the one line that the table is valid exactly when
    every item of every record passes its rule and, if the duplicate
    check is switched on, the records are pairwise different; in every
    other case the first line printed is the heading of the errors. *)
Theorem main_prints_valid_iff (json_data : ValidatorNew.json_data)
    (repr_float : spec_float -> string) (repr_str : string -> string)
    (table_records : list ValidatorNew.record) :
  (ValidatorNew.main json_data repr_float repr_str table_records
   = ["Table data is valid according to JSON specifications."]
   <-> Forall (fun record => Forall (item_ok (ValidatorNew.fields json_data)) record)
         table_records
       /\ (ValidatorNew.duplicate_field_check json_data = true -> NoDup table_records))
  /\ (ValidatorNew.main json_data repr_float repr_str table_records
      = ["Table data is valid according to JSON specifications."]
      \/ exists error errors,
           ValidatorNew.main json_data repr_float repr_str table_records
           = "Validation Errors:" :: error :: errors).
Proof.
  unfold ValidatorNew.main. cbv zeta.
  rewrite <- (validate_all_nil _ repr_float repr_str table_records 1).
  rewrite <- check_duplicates_nil.
  destruct (ValidatorNew.validate_all _ _ _ _ _) as [|e l].
  - destruct (ValidatorNew.duplicate_field_check json_data); cbn [app].
    + destruct (ValidatorNew.check_duplicates table_records) as [|d ds].
      * split; [tauto | now left].
      * split; [|right; eauto].
        split; [discriminate | intros [_ H]; specialize (H eq_refl); discriminate].
    + split; [|now left]. split; [|reflexivity].
      intros _. split; [reflexivity | discriminate].
  - split; [|right; destruct (ValidatorNew.duplicate_field_check json_data); eauto].
    destruct (ValidatorNew.duplicate_field_check json_data); cbn [app];
      (split; [discriminate | intros [? _]; discriminate]).
Qed.

(** ** The standalone validator: lines and headers *)

(** With pairwise different headers, a line becomes the pairing of the
    headers with its cells, position by position, as far as both reach:
    the cells beyond the last header are dropped, and no message tells. *)
Theorem record_of_line_zip (headers : list string) (line : string) :
  NoDup headers ->
  ValidatorNew.record_of_line headers line = combine headers (split "," line)
  /\ List.map snd (ValidatorNew.record_of_line headers line)
     = take (length headers) (split "," line)
  /\ length (ValidatorNew.record_of_line headers line)
     = Nat.min (length headers) (length (split "," line)).
Proof.
  intros Hnd.
  assert (H : ValidatorNew.record_of_line headers line
              = combine headers (split "," line)).
  { unfold ValidatorNew.record_of_line. apply dict_distinct.
    rewrite combine_keys.
    rewrite <- (take_drop (length (split "," line)) headers) in Hnd.
    now apply NoDup_app in Hnd as (Hk & _ & _). }
  rewrite H. split; [reflexivity|]. split; [|apply length_combine].
  clear. generalize (split "," line). intros cells. revert cells.
  induction headers as [|h headers IH]; intros [|c cells]; simpl;
    try reflexivity.
  now rewrite IH.
Qed.

(** A line with one cell more than the sample has headers. *)
Lemma record_of_line_zip_witness :
  ValidatorNew.record_of_line ["FIELD1"; "FIELD2"] "a,b,c" = [("FIELD1", "a"); ("FIELD2", "b")].
Proof.
  rewrite (proj1 (record_of_line_zip ["FIELD1"; "FIELD2"] "a,b,c"
                    ltac:(apply (bool_decide_unpack _); vm_compute; exact I))).
  reflexivity.
Defined.

(** ** [validate_data]: the checks that are never reached *)

Lemma text_errors_of_text (field : string) (rule : FileValidation.field_rule)
    (s : string) :
  Forall (fun e => of_text e = true) (text_errors field rule s).
Proof.
  unfold text_errors.
  repeat match goal with
         | |- context [if ?c then _ else _] => destruct c
         end; cbn [app]; repeat constructor.
Qed.

Lemma validate_fields_of_text (r : FileValidation.row)
    (rules : list (string * FileValidation.field_rule)) :
  forall errors errors',
    FileValidation.validate_fields r rules errors = Ok errors' ->
    Forall (fun e => of_text e = true) errors ->
    Forall (fun e => of_text e = true) errors'.
Proof.
  induction rules as [|[f rule] rules IH]; intros errors errors'; simpl.
  - now intros [= <-].
  - destruct (FileValidation.validate_field r errors f rule) as [e1|x] eqn:E;
      simpl; [|discriminate].
    intros H Hall. apply (IH e1 errors' H).
    apply validate_field_ok in E as [[_ ->] | (s & _ & ->)]; [exact Hall|].
    apply Forall_app. split; [exact Hall | apply text_errors_of_text].
Qed.

Lemma validate_rows_of_text (rules : list (string * FileValidation.field_rule))
    (rows : list FileValidation.row) :
  forall errors errors',
    FileValidation.validate_rows rows rules errors = Ok errors' ->
    Forall (fun e => of_text e = true) errors ->
    Forall (fun e => of_text e = true) errors'.
Proof.
  induction rows as [|r rows IH]; intros errors errors'; simpl.
  - now intros [= <-].
  - destruct (FileValidation.validate_fields r rules errors) as [e1|x] eqn:E;
      simpl; [|discriminate].
    intros H Hall. apply (IH e1 errors' H).
    exact (validate_fields_of_text r rules errors e1 E Hall).
Qed.

(** Whenever [validate_data] returns, its messages are the texts of
    errors among which there is none about a zero value and none about
    the digits before or after the decimal point: those checks need a
    number, and the pattern check before them faults on every value that
    is no text. *)
Theorem zero_and_digit_checks_never_report (s : FileValidation.session)
    (data : FileValidation.dataframe) (rules : FileValidation.validation_rules)
    (snowpark_table : string) (messages : list string) :
  FileValidation.validate_data s data rules snowpark_table = Ok messages ->
  exists errors,
    messages = List.map FileValidation.message errors
    /\ forall field,
         (FileValidation.ZeroValue field ∉ errors)
         /\ (FileValidation.DigitsBefore field ∉ errors)
         /\ (FileValidation.DigitsAfter field ∉ errors).
Proof.
  unfold FileValidation.validate_data, FileValidation.violations.
  destruct (FileValidation.table s snowpark_table) as [t|x]; cbn [bind]; [|discriminate].
  destruct (FileValidation.validate_rows _ _ _) as [errors|x] eqn:H; cbn [bind];
    [|discriminate].
  intros [= <-]. exists errors. split; [reflexivity|]. intros field.
  apply validate_rows_of_text in H; [|constructor].
  rewrite Forall_forall in H.
  repeat split; intros Hin; apply H in Hin; discriminate.
Qed.

(** A numeric rule over the text 0: nothing is reported. *)
Lemma zero_and_digit_checks_never_report_witness :
  exists errors,
    [] = List.map FileValidation.message errors
    /\ forall field,
         (FileValidation.ZeroValue field ∉ errors)
         /\ (FileValidation.DigitsBefore field ∉ errors)
         /\ (FileValidation.DigitsAfter field ∉ errors).
Proof.
  apply (zero_and_digit_checks_never_report
           {| FileValidation.tables :=
                <["T" := {| FileValidation.df_columns := ["N"];
                            FileValidation.df_rows := [] |}]> ∅;
              FileValidation.writes := [] |}
           {| FileValidation.df_columns := ["N"];
              FileValidation.df_rows := [[("N", FileValidation.VStr "0")]] |}
           {| FileValidation.duplicate_field_check := false;
              FileValidation.columns := ["N"];
              FileValidation.fields :=
                [("N", {| FileValidation.type := "numeric";
                          FileValidation.required := true;
                          FileValidation.size := None;
                          FileValidation.size_before_decimal := None;
                          FileValidation.size_after_decimal := None |})] |}
           "T" []).
  vm_compute. reflexivity.
Defined.

(** ** [validate_csv_against_table] (structural validator) *)

Lemma elem_of_list_filter {A : Type} (p : A -> bool) (l : list A) (x : A) :
  x ∈ List.filter p l <-> x ∈ l /\ p x = true.
Proof. rewrite !list_elem_of_In. apply filter_In. Qed.

Lemma filter_nil_iff {A : Type} (p : A -> bool) (l : list A) :
  List.filter p l = [] <-> forall x, x ∈ l -> p x = false.
Proof.
  induction l as [|a l IH]; simpl.
  - split; [intros _ x H; inversion H | reflexivity].
  - destruct (p a) eqn:E.
    + split; [discriminate|]. intros H.
      rewrite (H a) in E by apply list_elem_of_here. discriminate.
    + rewrite IH. split.
      * intros H x Hx. apply elem_of_cons in Hx as [-> | Hx]; auto.
      * intros H x Hx. apply H. now apply list_elem_of_further.
Qed.

(** A count of filtered rows is zero when no row meets the condition. *)
Lemma count_filter_zero (p : Validator.row -> option bool) (df : Validator.dataframe) :
  (0 <? Validator.count (Validator.filter p df))%nat = false
  <-> forall r, r ∈ Validator.df_rows df -> default false (p r) = false.
Proof.
  unfold Validator.count, Validator.filter. cbn [Validator.df_rows].
  rewrite <- filter_nil_iff, Nat.ltb_ge.
  destruct (List.filter _ _); simpl; split; try congruence; lia.
Qed.

Lemma not_rlike_false (c : string) (pattern : regex) (r : Validator.row) :
  default false (Validator.not_rlike c pattern r) = false
  <-> forall s, Validator.cell r c = Some s -> rlike pattern s = true.
Proof.
  unfold Validator.not_rlike. destruct (Validator.cell r c) as [s|]; simpl.
  - rewrite negb_false_iff. split; [intros H s' [= <-]; exact H | auto].
  - split; [intros _ s; discriminate | reflexivity].
Qed.

(** The count of the values that a pattern does not cover is positive
    when there is such a value. *)
Lemma count_mismatch (c : string) (pattern : regex) (df : Validator.dataframe) :
  (0 <? Validator.count (Validator.filter (Validator.not_rlike c pattern) df))%nat = true
  <-> mismatch c pattern df.
Proof.
  unfold mismatch. split.
  - unfold Validator.count, Validator.filter. cbn [Validator.df_rows].
    destruct (List.filter _ _) as [|r l] eqn:E; [discriminate|]. intros _.
    assert (Hr : r ∈ List.filter
                   (fun r => default false (Validator.not_rlike c pattern r))
                   (Validator.df_rows df)) by (rewrite E; apply list_elem_of_here).
    apply elem_of_list_filter in Hr as [Hr Hp].
    unfold Validator.not_rlike in Hp.
    destruct (Validator.cell r c) as [s|] eqn:Hs; [|discriminate].
    simpl in Hp. apply negb_true_iff in Hp. eauto.
  - intros (r & s & Hr & Hs & Hbad).
    apply Bool.not_false_iff_true. intros H.
    pose proof (proj1 (count_filter_zero _ _) H r Hr) as H'.
    rewrite not_rlike_false in H'. rewrite (H' s Hs) in Hbad. discriminate.
Qed.

(** The rows without a NULL in the column hold every value of it. *)
Lemma mismatch_not_null (c : string) (pattern : regex) (df : Validator.dataframe) :
  mismatch c pattern (Validator.filter (Validator.isNotNull c) df)
  <-> mismatch c pattern df.
Proof.
  unfold mismatch, Validator.filter, Validator.isNotNull.
  cbn [Validator.df_rows default]. split.
  - intros (r & s & Hr & Hs & Hbad). apply elem_of_list_filter in Hr as [Hr _]. eauto.
  - intros (r & s & Hr & Hs & Hbad). exists r, s. split; [|auto].
    apply elem_of_list_filter. split; [exact Hr|].
    apply bool_decide_eq_true. rewrite Hs. eauto.
Qed.

(** Step 3a by cases: a column of type alpha_numeric or decimal either
    fails the pattern check or faults at the size check; a column of
    another type passes with the data frame as it was. *)
Lemma check_type_cases_of (c : string) (f : Validator.field) (df : Validator.dataframe) :
  (Validator.type f = "alpha_numeric"
   /\ ((mismatch c Validator.re_alpha_numeric df
        /\ Validator.check_type c f df = Ok (inl (Validator.InvalidAlphaNumeric c)))
       \/ (~ mismatch c Validator.re_alpha_numeric df
           /\ Validator.check_type c f df = Raise AttributeError)))
  \/ (Validator.type f = "decimal"
      /\ ((mismatch c (Validator.re_decimal
                         (default 0 (Validator.size_before_decimal f))
                         (default 0 (Validator.size_after_decimal f))) df
           /\ Validator.check_type c f df
              = Ok (inl (Validator.BadDecimalFormat c
                           (default 0 (Validator.size_before_decimal f))
                           (default 0 (Validator.size_after_decimal f)))))
          \/ (~ mismatch c (Validator.re_decimal
                              (default 0 (Validator.size_before_decimal f))
                              (default 0 (Validator.size_after_decimal f))) df
              /\ Validator.check_type c f df = Raise AttributeError)))
  \/ (unchecked f /\ Validator.check_type c f df = Ok (inr df)).
Proof.
  unfold Validator.check_type, unchecked. cbv zeta.
  destruct (String.eqb_spec (Validator.type f) "alpha_numeric") as [E|E].
  - left. split; [exact E|].
    destruct (0 <? Validator.count _)%nat eqn:Hc.
    + left. split; [|reflexivity].
      apply (proj1 (count_mismatch _ _ _)) in Hc.
      exact (proj1 (mismatch_not_null _ _ _) Hc).
    + right. split; [|reflexivity]. intros Hm.
      apply (proj2 (mismatch_not_null _ _ _)) in Hm.
      apply (proj2 (count_mismatch _ _ _)) in Hm. congruence.
  - destruct (String.eqb_spec (Validator.type f) "decimal") as [Ed|Ed].
    + right. left. split; [exact Ed|].
      destruct (0 <? Validator.count _)%nat eqn:Hc.
      * left. split; [|reflexivity]. exact (proj1 (count_mismatch _ _ _) Hc).
      * right. split; [|reflexivity]. intros Hm.
        apply (proj2 (count_mismatch _ _ _)) in Hm. congruence.
    + right. right. auto.
Qed.

(** The type and size checks of a column pass only for a type other
    than alpha_numeric and decimal, and then with the frame unchanged. *)
Lemma check_type_passes (c : string) (f : Validator.field)
    (df df1 : Validator.dataframe) :
  Validator.check_type c f df = Ok (inr df1) <-> unchecked f /\ df1 = df.
Proof.
  destruct (check_type_cases_of c f df)
    as [[E [[_ H] | [_ H]]] | [[E [[_ H] | [_ H]]] | [Hu H]]]; rewrite H.
  - split; [discriminate | intros [[? _] _]; contradiction].
  - split; [discriminate | intros [[? _] _]; contradiction].
  - split; [discriminate | intros [[_ ?] _]; contradiction].
  - split; [discriminate | intros [[_ ?] _]; contradiction].
  - split; [intros [= <-]; auto | intros [_ ->]; reflexivity].
Qed.

Lemma null_count_rows (c : string) (df : Validator.dataframe) :
  Validator.count (Validator.filter (Validator.isNull c) df) = null_rows c df.
Proof. reflexivity. Qed.

Lemma null_rows_zero (c : string) (df : Validator.dataframe) :
  (0 <? null_rows c df)%nat = false
  <-> forall r, r ∈ Validator.df_rows df -> Validator.cell r c <> None.
Proof.
  rewrite <- null_count_rows, count_filter_zero.
  unfold Validator.isNull. cbn [default].
  split; intros H r Hr; specialize (H r Hr).
  - now apply bool_decide_eq_false in H.
  - now apply bool_decide_eq_false.
Qed.

(** The column has a rule of a type that is not checked, it is a CSV
    column, and if it is required no row has a NULL in it. *)
Lemma check_columns_passes (fields : gmap string Validator.field)
    (csv_columns : list string) (cols : list string) :
  forall df df',
    Validator.check_columns fields csv_columns cols df = Ok (inr df')
    <-> df' = df
        /\ forall c, c ∈ cols ->
             exists f,
               fields !! c = Some f /\ c ∈ csv_columns /\ unchecked f
               /\ (Validator.required f = true ->
                   forall r, r ∈ Validator.df_rows df -> Validator.cell r c <> None).
Proof.
  induction cols as [|c cols IH]; intros df df'.
  - simpl. split.
    + intros [= <-]. split; [reflexivity|]. intros c H. inversion H.
    + intros [-> _]. reflexivity.
  - cbn [Validator.check_columns]. split.
    + destruct (fields !! c) as [f|] eqn:Hf; [|discriminate].
      destruct (bool_decide (c ∈ csv_columns)) eqn:Hc; [|discriminate].
      apply bool_decide_eq_true in Hc. cbn [negb].
      destruct (Validator.check_type c f df) as [[failed|df1]|e] eqn:Hty;
        [discriminate | | discriminate].
      apply check_type_passes in Hty as [Hu ->].
      rewrite null_count_rows.
      destruct (Validator.required f && _) eqn:Hreq; [discriminate|].
      intros H. apply IH in H as [-> Htail]. split; [reflexivity|].
      intros c' Hc'. apply elem_of_cons in Hc' as [-> | Hc']; [|auto].
      exists f. split; [exact Hf|]. split; [exact Hc|]. split; [exact Hu|].
      intros Hr. rewrite Hr in Hreq. cbn [andb] in Hreq.
      now apply null_rows_zero.
    + intros [-> Hall].
      destruct (Hall c (list_elem_of_here _ _)) as (f & Hf & Hc & Hu & Hnull).
      rewrite Hf, (bool_decide_eq_true_2 _ Hc). cbn [negb].
      rewrite (proj2 (check_type_passes c f df df) (conj Hu eq_refl)).
      rewrite null_count_rows.
      assert (Hreq : Validator.required f && (0 <? null_rows c df)%nat = false).
      { destruct (Validator.required f); [|reflexivity]. cbn [andb].
        apply null_rows_zero. now apply Hnull. }
      rewrite Hreq. apply IH. split; [reflexivity|].
      intros c' Hc'. apply Hall. now apply list_elem_of_further.
Qed.

(** What a failed column reports.  The size-limit report is not among
    the cases. *)
Lemma check_columns_fails (fields : gmap string Validator.field)
    (csv_columns : list string) (cols : list string) (failed : Validator.report) :
  forall df,
    Validator.check_columns fields csv_columns cols df = Ok (inl failed) ->
    exists c,
      c ∈ cols
      /\ ((failed = Validator.NotInTemplate c /\ fields !! c = None)
          \/ (failed = Validator.MissingColumn c /\ (c ∉ csv_columns))
          \/ exists f,
               fields !! c = Some f
               /\ ((failed = Validator.InvalidAlphaNumeric c
                    /\ Validator.type f = "alpha_numeric")
                   \/ (failed = Validator.BadDecimalFormat c
                                  (default 0 (Validator.size_before_decimal f))
                                  (default 0 (Validator.size_after_decimal f))
                       /\ Validator.type f = "decimal")
                   \/ (failed = Validator.RequiredHasNulls c (null_rows c df)
                       /\ 0 < null_rows c df
                       /\ Validator.required f = true
                       /\ unchecked f))).
Proof.
  induction cols as [|c cols IH]; intros df; [discriminate|].
  cbn [Validator.check_columns].
  destruct (fields !! c) as [f|] eqn:Hf.
  2:{ intros [= <-]. exists c. split; [apply list_elem_of_here | auto]. }
  destruct (bool_decide (c ∈ csv_columns)) eqn:Hc; cbn [negb].
  2:{ apply bool_decide_eq_false in Hc. intros [= <-].
      exists c. split; [apply list_elem_of_here | auto]. }
  destruct (check_type_cases_of c f df)
    as [[E [[_ H] | [_ H]]] | [[E [[_ H] | [_ H]]] | [Hu H]]]; rewrite H;
    try discriminate.
  - intros [= <-]. exists c. split; [apply list_elem_of_here|].
    do 2 right. exists f. auto.
  - intros [= <-]. exists c. split; [apply list_elem_of_here|].
    do 2 right. exists f. auto.
  - rewrite null_count_rows.
    destruct (Validator.required f) eqn:Hreq; cbn [andb].
    + destruct (0 <? null_rows c df)%nat eqn:Hn.
      * intros [= <-]. exists c. split; [apply list_elem_of_here|].
        do 2 right. exists f. split; [exact Hf|]. do 2 right.
        apply Nat.ltb_lt in Hn. auto.
      * intros H'. apply IH in H' as (c' & Hc' & H').
        exists c'. split; [now apply list_elem_of_further | exact H'].
    + intros H'. apply IH in H' as (c' & Hc' & H').
      exists c'. split; [now apply list_elem_of_further | exact H'].
Qed.

(** The loop faults only at the size check of a column of type
    alpha_numeric or decimal. *)
Lemma check_columns_raises (fields : gmap string Validator.field)
    (csv_columns : list string) (cols : list string) (e : exn) :
  forall df,
    Validator.check_columns fields csv_columns cols df = Raise e ->
    e = AttributeError
    /\ exists c f,
         c ∈ cols /\ fields !! c = Some f
         /\ (Validator.type f = "alpha_numeric" \/ Validator.type f = "decimal").
Proof.
  induction cols as [|c cols IH]; intros df; [discriminate|].
  cbn [Validator.check_columns].
  destruct (fields !! c) as [f|] eqn:Hf; [|discriminate].
  destruct (bool_decide (c ∈ csv_columns)); cbn [negb]; [|discriminate].
  destruct (check_type_cases_of c f df)
    as [[E [[_ H] | [_ H]]] | [[E [[_ H] | [_ H]]] | [Hu H]]]; rewrite H;
    try discriminate.
  - intros [= <-]. split; [reflexivity|]. exists c, f.
    split; [apply list_elem_of_here | auto].
  - intros [= <-]. split; [reflexivity|]. exists c, f.
    split; [apply list_elem_of_here | auto].
  - destruct (_ && _); [discriminate|].
    intros H'. apply IH in H' as (-> & c' & f' & Hc' & H').
    split; [reflexivity|]. exists c', f'.
    split; [now apply list_elem_of_further | exact H'].
Qed.


(** No group of equal rows has more than one member when the rows are
    pairwise different. *)
Lemma duplicate_count_zero (df : Validator.dataframe) :
  (0 <? Validator.duplicate_count df)%nat = false
  <-> NoDup (Validator.df_rows df).
Proof.
  unfold Validator.duplicate_count. rewrite Nat.ltb_ge.
  rewrite NoDup_ListNoDup, (NoDup_count_occ Validator.row_eq_dec).
  assert (H : length (List.filter
                        (fun r => (1 <? count_occ Validator.row_eq_dec
                                          (Validator.df_rows df) r)%nat)
                        (nodup Validator.row_eq_dec (Validator.df_rows df))) <= 0
              <-> List.filter
                    (fun r => (1 <? count_occ Validator.row_eq_dec
                                      (Validator.df_rows df) r)%nat)
                    (nodup Validator.row_eq_dec (Validator.df_rows df)) = []).
  { destruct (List.filter _ _); simpl; split; try congruence; lia. }
  rewrite H, filter_nil_iff. split.
  - intros Hall r.
    destruct (in_dec Validator.row_eq_dec r (Validator.df_rows df)) as [Hin|Hout].
    + apply Nat.ltb_ge. apply Hall. apply list_elem_of_In, nodup_In, Hin.
    + apply (count_occ_not_In Validator.row_eq_dec) in Hout. lia.
  - intros Hall r _. apply Nat.ltb_ge. apply Hall.
Qed.

Lemma same_set_true (a b : list string) :
  Validator.same_set a b = true
  <-> list_to_set a =@{gset string} list_to_set b.
Proof. unfold Validator.same_set. apply bool_decide_eq_true. Qed.

(** Where a verdict can come from. *)
Lemma verdict_cases (file_name table_name : string)
    (template : Validator.template) (s : Validator.session)
    (verdict : bool) (report : Validator.report) :
  Validator.validate_csv_against_table file_name table_name template s
  = Ok (verdict, report) ->
  exists csv_df,
    Validator.files s !! file_name = Some csv_df
    /\ ((verdict = false
         /\ report = Validator.ColumnsDoNotMatch (Validator.df_columns csv_df)
                       (Validator.columns template))
        \/ (list_to_set (Validator.columns template)
            =@{gset string} list_to_set (Validator.df_columns csv_df)
            /\ ((verdict = false
                 /\ Validator.check_columns (Validator.fields template)
                      (Validator.df_columns csv_df) (Validator.columns template) csv_df
                    = Ok (inl report))
                \/ (verdict = false /\ report = Validator.DuplicateRows)
                \/ (verdict = false
                    /\ exists snowflake_columns,
                         report = Validator.TableColumnsDoNotMatch snowflake_columns
                                    (Validator.df_columns csv_df))
                \/ (verdict = true /\ report = Validator.Valid)))).
Proof.
  unfold Validator.validate_csv_against_table, Validator.read_csv,
    Validator.table_columns. cbv zeta.
  destruct (Validator.columns template) as [|c0 cols] eqn:Hcols; [discriminate|].
  destruct (Validator.files s !! file_name) as [csv_df|]; cbn [bind]; [|discriminate].
  intros H. exists csv_df. split; [reflexivity|].
  destruct (Validator.same_set (c0 :: cols) (Validator.df_columns csv_df)) eqn:Hset;
    cbn [negb] in H.
  2:{ injection H as <- <-. left. auto. }
  right. split; [now apply same_set_true|].
  destruct (Validator.check_columns _ _ _ _) as [[failed|df']|e]; cbn [bind] in H;
    [| |discriminate].
  { injection H as <- <-. left. auto. }
  destruct (_ && _).
  { injection H as <- <-. right. left. auto. }
  destruct (Validator.tables s !! table_name) as [sc|]; cbn [bind] in H; [|discriminate].
  destruct (negb _); injection H as <- <-.
  - right. right. left. eauto.
  - right. right. right. auto.
Qed.



(** The verdict is true exactly when: the template lists columns; the
    file can be read and its columns are, as a set, the listed ones;
    every listed column has a rule whose type is neither alpha_numeric
    nor decimal and, if the rule marks it required, no row of the file
    has a NULL in it; if duplicates are checked, the rows of the file
    are pairwise different; and the table exists with, as a set, the
    columns of the file.  A true verdict comes with the success line
    and no other. *)
Theorem valid_verdict_iff (file_name table_name : string)
    (template : Validator.template) (s : Validator.session) :
  (Validator.validate_csv_against_table file_name table_name template s
   = Ok (true, Validator.Valid)
   <-> Validator.columns template <> []
       /\ exists csv_df snowflake_columns,
            Validator.files s !! file_name = Some csv_df
            /\ Validator.tables s !! table_name = Some snowflake_columns
            /\ list_to_set (Validator.columns template)
               =@{gset string} list_to_set (Validator.df_columns csv_df)
            /\ list_to_set (Validator.df_columns csv_df)
               =@{gset string} list_to_set snowflake_columns
            /\ (forall c, c ∈ Validator.columns template ->
                  exists f,
                    Validator.fields template !! c = Some f
                    /\ unchecked f
                    /\ (Validator.required f = true ->
                        forall r, r ∈ Validator.df_rows csv_df ->
                                  Validator.cell r c <> None))
            /\ (Validator.duplicate_field_check template = true ->
                NoDup (Validator.df_rows csv_df)))
  /\ (forall verdict report,
        Validator.validate_csv_against_table file_name table_name template s
        = Ok (verdict, report) ->
        verdict = true <-> report = Validator.Valid).
Proof.
  split.
  2:{ intros verdict report H. apply verdict_cases in H as (csv_df & _ & H).
      destruct H as [[-> ->] | (_ & [[-> H] | [[-> ->] | [(-> & sc & ->) | [-> ->]]]])];
        try (split; discriminate); [|tauto].
      split; [discriminate|]. intros ->.
      apply check_columns_fails in H as (c & _ & H).
      destruct H as [[? _] | [[? _] | (f & _ & [[? _] | [[? _] | [? _]]])]];
        discriminate. }
  unfold Validator.validate_csv_against_table, Validator.read_csv,
    Validator.table_columns. cbv zeta.
  destruct (Validator.columns template) as [|c0 cols] eqn:Hcols.
  { split; [discriminate | intros [H _]; congruence]. }
  destruct (Validator.files s !! file_name) as [csv_df|] eqn:Hfile; cbn [bind].
  2:{ split; [discriminate | intros (_ & ? & ? & ? & _); discriminate]. }
  destruct (Validator.same_set (c0 :: cols) (Validator.df_columns csv_df)) eqn:Hset;
    cbn [negb].
  2:{ split; [discriminate|]. intros (_ & df & sc & [= <-] & _ & H & _).
      apply same_set_true in H. congruence. }
  assert (Hset' := proj1 (same_set_true _ _) Hset).
  destruct (Validator.check_columns _ _ _ _) as [[failed|df']|e] eqn:Hloop; cbn [bind].
  { split; [intros [= ? ?]; discriminate|].
    intros (_ & df & sc & [= <-] & _ & _ & _ & Hall & _). exfalso.
    assert (Hpass : Validator.check_columns (Validator.fields template)
                      (Validator.df_columns csv_df) (c0 :: cols) csv_df
                    = Ok (inr csv_df)).
    { apply check_columns_passes. split; [reflexivity|].
      intros c Hc. destruct (Hall c Hc) as (f & Hf & Hu & Hnull).
      exists f. split; [exact Hf|]. split; [|auto].
      apply (elem_of_list_to_set (C:=gset string)). rewrite <- Hset'.
      now apply elem_of_list_to_set. }
    congruence. }
  2:{ split; [discriminate|].
      intros (_ & df & sc & [= <-] & _ & _ & _ & Hall & _). exfalso.
      apply check_columns_raises in Hloop as (_ & c & f & Hc & Hf & Hty).
      destruct (Hall c Hc) as (f' & Hf' & [Ha Hd] & _).
      rewrite Hf in Hf'. injection Hf' as <-. destruct Hty; contradiction. }
  apply check_columns_passes in Hloop as [-> Hall].
  assert (Hrules : forall c, c ∈ c0 :: cols ->
            exists f,
              Validator.fields template !! c = Some f /\ unchecked f
              /\ (Validator.required f = true ->
                  forall r, r ∈ Validator.df_rows csv_df -> Validator.cell r c <> None)).
  { intros c Hc. destruct (Hall c Hc) as (f & Hf & _ & Hu & Hnull). eauto. }
  destruct (Validator.duplicate_field_check template) eqn:Hdup; cbn [andb].
  - destruct (0 <? Validator.duplicate_count csv_df)%nat eqn:Hcount.
    { split; [discriminate|]. intros (_ & df & sc & [= <-] & _ & _ & _ & _ & Hnd).
      specialize (Hnd eq_refl). apply duplicate_count_zero in Hnd. congruence. }
    apply duplicate_count_zero in Hcount.
    destruct (Validator.tables s !! table_name) as [sc|] eqn:Htable; cbn [bind].
    2:{ split; [discriminate | intros (_ & ? & ? & _ & ? & _); discriminate]. }
    destruct (Validator.same_set (Validator.df_columns csv_df) sc) eqn:Hset2;
      cbn [negb].
    2:{ split; [discriminate|]. intros (_ & df & sc' & [= <-] & [= <-] & _ & H & _).
        apply same_set_true in H. congruence. }
    split; [|reflexivity]. intros _. split; [discriminate|].
    exists csv_df, sc. split; [reflexivity|]. split; [reflexivity|].
    split; [exact Hset'|]. split; [now apply same_set_true|].
    split; [exact Hrules | intros _; exact Hcount].
  - destruct (Validator.tables s !! table_name) as [sc|] eqn:Htable; cbn [bind].
    2:{ split; [discriminate | intros (_ & ? & ? & _ & ? & _); discriminate]. }
    destruct (Validator.same_set (Validator.df_columns csv_df) sc) eqn:Hset2;
      cbn [negb].
    2:{ split; [discriminate|]. intros (_ & df & sc' & [= <-] & [= <-] & _ & H & _).
        apply same_set_true in H. congruence. }
    split; [|reflexivity]. intros _. split; [discriminate|].
    exists csv_df, sc. split; [reflexivity|]. split; [reflexivity|].
    split; [exact Hset'|]. split; [now apply same_set_true|].
    split; [exact Hrules | discriminate].
Qed.

(** Whenever the function reports that a required column has NULLs, the
    verdict is false, the column is a listed one whose rule marks it
    required and has a type other than alpha_numeric and decimal, and
    the count reported is the positive number of the rows of the file
    that have a NULL in that column. *)
Theorem required_nulls_report_sound (file_name table_name : string)
    (template : Validator.template) (s : Validator.session)
    (verdict : bool) (column : string) (null_count : nat) :
  Validator.validate_csv_against_table file_name table_name template s
  = Ok (verdict, Validator.RequiredHasNulls column null_count) ->
  verdict = false
  /\ 0 < null_count
  /\ column ∈ Validator.columns template
  /\ exists csv_df f,
       Validator.files s !! file_name = Some csv_df
       /\ null_count = null_rows column csv_df
       /\ Validator.fields template !! column = Some f
       /\ Validator.required f = true
       /\ unchecked f.
Proof.
  intros H. apply verdict_cases in H as (csv_df & Hfile & H).
  destruct H as [[_ ?] | (_ & [[-> H] | [[_ ?] | [(_ & ? & ?) | [_ ?]]]])];
    try discriminate.
  split; [reflexivity|].
  apply check_columns_fails in H as (c & Hc & H).
  destruct H as [[? _] | [[? _] | (f & Hf & [[? _] | [[? _] | (Heq & Hn & Hr & Hu)]])]];
    try discriminate.
  injection Heq as <- ->.
  split; [exact Hn|]. split; [exact Hc|]. exists csv_df, f. auto.
Qed.

(** A required column of type numeric in a file of three rows, two of
    them with a NULL in it. *)
Lemma required_nulls_report_sound_witness :
  let template :=
    {| Validator.fields :=
         <["N" := {| Validator.type := "numeric";
                     Validator.required := true;
                     Validator.size := 5%Z;
                     Validator.size_before_decimal := None;
                     Validator.size_after_decimal := None |}]> ∅;
       Validator.columns := ["N"];
       Validator.duplicate_field_check := false |} in
  let s :=
    {| Validator.files :=
         <["in.csv" := {| Validator.df_columns := ["N"];
                          Validator.df_rows :=
                            [[("N", None)]; [("N", Some "7")]; [("N", None)]] |}]> ∅;
       Validator.tables := <["T" := ["N"]]> ∅ |} in
  Validator.validate_csv_against_table "in.csv" "T" template s
  = Ok (false, Validator.RequiredHasNulls "N" 2)
  /\ false = false
  /\ 0 < 2
  /\ "N" ∈ Validator.columns template
  /\ exists csv_df f,
       Validator.files s !! "in.csv" = Some csv_df
       /\ 2 = null_rows "N" csv_df
       /\ Validator.fields template !! "N" = Some f
       /\ Validator.required f = true
       /\ unchecked f.
Proof.
  intros template s.
  assert (H : Validator.validate_csv_against_table "in.csv" "T" template s
              = Ok (false, Validator.RequiredHasNulls "N" 2))
    by (vm_compute; reflexivity).
  split; [exact H|].
  exact (required_nulls_report_sound "in.csv" "T" template s false "N" 2 H).
Defined.

(** The report that an expected column is missing from the file is
    never made: the comparison of the column sets has already ended the
    function when a column is missing. *)
Theorem missing_column_never_reported (file_name table_name : string)
    (template : Validator.template) (s : Validator.session)
    (verdict : bool) (report : Validator.report) :
  Validator.validate_csv_against_table file_name table_name template s
  = Ok (verdict, report) ->
  forall column, report <> Validator.MissingColumn column.
Proof.
  intros H column ->. apply verdict_cases in H as (csv_df & _ & H).
  destruct H as [[_ ?] | (Hset & [[_ H] | [[_ ?] | [(_ & ? & ?) | [_ ?]]]])];
    try discriminate.
  apply check_columns_fails in H as (c & Hc & H).
  destruct H as [[? _] | [[Heq Hnot] | (f & Hf & [[? _] | [[? _] | [? _]]])]];
    try discriminate.
  injection Heq as <-. apply Hnot.
  apply (elem_of_list_to_set (C:=gset string)). rewrite <- Hset.
  now apply elem_of_list_to_set.
Qed.

(** A file that lacks the expected column: the sets differ. *)
Lemma missing_column_never_reported_witness :
  Validator.validate_csv_against_table "in.csv" "T"
    {| Validator.fields :=
         <["A" := {| Validator.type := "alpha_numeric";
                     Validator.required := true;
                     Validator.size := 5%Z;
                     Validator.size_before_decimal := None;
                     Validator.size_after_decimal := None |}]> ∅;
       Validator.columns := ["A"];
       Validator.duplicate_field_check := false |}
    {| Validator.files :=
         <["in.csv" := {| Validator.df_columns := ["B"];
                          Validator.df_rows := [[("B", Some "x")]] |}]> ∅;
       Validator.tables := <["T" := ["A"]]> ∅ |}
  = Ok (false, Validator.ColumnsDoNotMatch ["B"] ["A"])
  /\ Validator.ColumnsDoNotMatch ["B"] ["A"] <> Validator.MissingColumn "A".
Proof.
  split; [vm_compute; reflexivity|].
  apply (missing_column_never_reported "in.csv" "T"
           {| Validator.fields :=
                <["A" := {| Validator.type := "alpha_numeric";
                            Validator.required := true;
                            Validator.size := 5%Z;
                            Validator.size_before_decimal := None;
                            Validator.size_after_decimal := None |}]> ∅;
              Validator.columns := ["A"];
              Validator.duplicate_field_check := false |}
           {| Validator.files :=
                <["in.csv" := {| Validator.df_columns := ["B"];
                                 Validator.df_rows := [[("B", Some "x")]] |}]> ∅;
              Validator.tables := <["T" := ["A"]]> ∅ |}
           false).
  vm_compute. reflexivity.
Defined.

(** When the template lists a column whose rule has the type
    alpha_numeric or decimal, the function never returns true: it
    returns false with a report, or it faults, and a fault that is not
    the missing file is the [AttributeError] of the size check.  The
    report that a column exceeds its size limit is never made. *)
Theorem size_check_never_passes (file_name table_name : string)
    (template : Validator.template) (s : Validator.session)
    (column : string) (f : Validator.field) :
  column ∈ Validator.columns template ->
  Validator.fields template !! column = Some f ->
  Validator.type f = "alpha_numeric" \/ Validator.type f = "decimal" ->
  (Validator.validate_csv_against_table file_name table_name template s
   = Raise AttributeError
   \/ (Validator.files s !! file_name = None
       /\ Validator.validate_csv_against_table file_name table_name template s
          = Raise SQLError)
   \/ exists report,
        Validator.validate_csv_against_table file_name table_name template s
        = Ok (false, report)
        /\ report <> Validator.Valid)
  /\ forall verdict c n,
       Validator.validate_csv_against_table file_name table_name template s
       <> Ok (verdict, Validator.ExceedsSizeLimit c n).
Proof.
  intros Hc Hf Hty. split.
  2:{ intros verdict c n H. apply verdict_cases in H as (csv_df & _ & H).
      destruct H as [[_ ?] | (_ & [[_ H] | [[_ ?] | [(_ & ? & ?) | [_ ?]]]])];
        try discriminate.
      apply check_columns_fails in H as (c' & _ & H).
      destruct H as [[? _] | [[? _] | (f' & _ & [[? _] | [[? _] | [? _]]])]];
        discriminate. }
  unfold Validator.validate_csv_against_table, Validator.read_csv. cbv zeta.
  destruct (Validator.columns template) as [|c0 cols] eqn:Hcols; [inversion Hc|].
  destruct (Validator.files s !! file_name) as [csv_df|]; cbn [bind].
  2:{ right. left. auto. }
  destruct (negb _).
  { right. right. eexists. split; [reflexivity | discriminate]. }
  destruct (Validator.check_columns _ _ _ _) as [[failed|df']|e'] eqn:Hloop;
    cbn [bind].
  - right. right. exists failed. split; [reflexivity|]. intros ->.
    apply check_columns_fails in Hloop as (c' & _ & H).
    destruct H as [[? _] | [[? _] | (f' & _ & [[? _] | [[? _] | [? _]]])]];
      discriminate.
  - exfalso. apply check_columns_passes in Hloop as [_ Hall].
    destruct (Hall column Hc) as (f' & Hf' & _ & [Ha Hd] & _).
    rewrite Hf in Hf'. injection Hf' as <-. destruct Hty; contradiction.
  - apply check_columns_raises in Hloop as [-> _]. now left.
Qed.

(** An alpha_numeric column whose values are all alphanumeric: the
    size check is reached and faults. *)
Lemma size_check_never_passes_witness :
  Validator.validate_csv_against_table "in.csv" "T"
    {| Validator.fields :=
         <["A" := {| Validator.type := "alpha_numeric";
                     Validator.required := true;
                     Validator.size := 5%Z;
                     Validator.size_before_decimal := None;
                     Validator.size_after_decimal := None |}]> ∅;
       Validator.columns := ["A"];
       Validator.duplicate_field_check := false |}
    {| Validator.files :=
         <["in.csv" := {| Validator.df_columns := ["A"];
                          Validator.df_rows := [[("A", Some "x")]; [("A", None)]] |}]> ∅;
       Validator.tables := <["T" := ["A"]]> ∅ |}
  = Raise AttributeError
  /\ (Validator.validate_csv_against_table "in.csv" "T"
        {| Validator.fields :=
             <["A" := {| Validator.type := "alpha_numeric";
                         Validator.required := true;
                         Validator.size := 5%Z;
                         Validator.size_before_decimal := None;
                         Validator.size_after_decimal := None |}]> ∅;
           Validator.columns := ["A"];
           Validator.duplicate_field_check := false |}
        {| Validator.files :=
             <["in.csv" := {| Validator.df_columns := ["A"];
                              Validator.df_rows := [[("A", Some "x")]; [("A", None)]] |}]> ∅;
           Validator.tables := <["T" := ["A"]]> ∅ |}
      <> Ok (true, Validator.ExceedsSizeLimit "A" 5)).
Proof.
  split; [vm_compute; reflexivity|].
  apply (size_check_never_passes "in.csv" "T"
           {| Validator.fields :=
                <["A" := {| Validator.type := "alpha_numeric";
                            Validator.required := true;
                            Validator.size := 5%Z;
                            Validator.size_before_decimal := None;
                            Validator.size_after_decimal := None |}]> ∅;
              Validator.columns := ["A"];
              Validator.duplicate_field_check := false |}
           {| Validator.files :=
                <["in.csv" := {| Validator.df_columns := ["A"];
                                 Validator.df_rows :=
                                   [[("A", Some "x")]; [("A", None)]] |}]> ∅;
              Validator.tables := <["T" := ["A"]]> ∅ |}
           "A"
           {| Validator.type := "alpha_numeric";
              Validator.required := true;
              Validator.size := 5%Z;
              Validator.size_before_decimal := None;
              Validator.size_after_decimal := None |}).
  - apply list_elem_of_here.
  - vm_compute. reflexivity.
  - now left.
Defined.

(** ** [validate_data]: what the duplicate flags look at *)

(** The flag columns are computed row by row: each row of the flagged
    frame is a function of the same row of the data, fixed by the
    listed columns and the columns of the frame.  Whether a row repeats
    another row has no influence on its flags, and no row is added or
    dropped. *)
Theorem flag_duplicates_row_by_row (cols : list string) :
  forall (df_columns : list string) (seen : list FileValidation.column),
  exists g : FileValidation.row -> FileValidation.row,
    forall rows : list FileValidation.row,
      FileValidation.df_rows
        (FileValidation.flag_duplicates cols
           {| FileValidation.df_columns := df_columns;
              FileValidation.df_rows := rows |} seen)
      = List.map g rows.
Proof.
  induction cols as [|c cols IH]; intros columns seen; simpl.
  - exists (fun r => r). intros rows. now rewrite map_id.
  - destruct (bool_decide (c ∈ columns)).
    + unfold FileValidation.withColumn.
      cbn [FileValidation.df_columns FileValidation.df_rows].
      destruct (IH (List.filter
                      (fun n => negb (String.eqb n
                                        (FileValidation.column_name (flag_name c))))
                      columns
                    ++ [FileValidation.column_name (flag_name c)])
                   (seen ++ [FileValidation.Col c])) as [g Hg].
      exists (fun r => g (FileValidation.without (flag_name c) r
                          ++ [(flag_name c,
                               FileValidation.eval
                                 (FileValidation.IsIn (FileValidation.Col c) seen) r)])).
      intros rows. unfold flag_name in Hg |- *. rewrite Hg. now rewrite map_map.
    + apply IH.
Qed.

(** ** The standalone validator: from the header check to the records *)

Lemma dict_set_keys (d : ValidatorNew.record) (k v f : string) :
  f ∈ List.map fst (ValidatorNew.dict_set d k v) <-> f = k \/ f ∈ List.map fst d.
Proof.
  induction d as [|[k' v'] d IH]; simpl.
  - rewrite list_elem_of_singleton. split; [auto | intros [? | H]; [auto | inversion H]].
  - destruct (String.eqb_spec k' k) as [-> | Hne]; simpl.
    + rewrite !elem_of_cons. tauto.
    + rewrite !elem_of_cons, IH. tauto.
Qed.

Lemma dict_keys (items : list (string * string)) (f : string) :
  f ∈ List.map fst (ValidatorNew.dict items) -> f ∈ List.map fst items.
Proof.
  unfold ValidatorNew.dict.
  assert (H : forall d,
             f ∈ List.map fst (fold_left (fun d kv => ValidatorNew.dict_set d (fst kv) (snd kv))
                                 items d) ->
             f ∈ List.map fst d \/ f ∈ List.map fst items).
  { induction items as [|[k v] items IH]; intros d; simpl; [auto|].
    intros Hf. apply IH in Hf as [Hf | Hf].
    - apply dict_set_keys in Hf as [-> | Hf]; [|auto].
      right. apply list_elem_of_here.
    - right. now apply list_elem_of_further. }
  intros Hf. apply H in Hf as [Hf | Hf]; [inversion Hf | exact Hf].
Qed.

Lemma combine_keys_subset (headers values : list string) (f : string) :
  f ∈ List.map fst (combine headers values) -> f ∈ headers.
Proof.
  rewrite combine_keys. apply (subseteq_take (length values) headers).
Qed.

(** When the header check passes and every listed column has a rule,
    no record of the table is ever reported for an unexpected field,
    whatever its line holds: the keys of a record are header names, and
    the header names are listed columns. *)
Theorem no_unexpected_field_after_header_check (table_data_str : string)
    (json_data : ValidatorNew.json_data) (records : list ValidatorNew.record) :
  ValidatorNew.table_records table_data_str (ValidatorNew.columns json_data)
  = Ok records ->
  (forall column, column ∈ ValidatorNew.columns json_data ->
                  is_Some (ValidatorNew.fields json_data !! column)) ->
  forall record field,
    record ∈ records ->
    ValidatorNew.UnexpectedField field
    ∉ ValidatorNew.violations (ValidatorNew.fields json_data) record.
Proof.
  unfold ValidatorNew.table_records. cbv zeta.
  destruct (bool_decide _) eqn:Hset; [discriminate|].
  apply bool_decide_eq_false in Hset.
  assert (Hsame : list_to_set (split "," (hd EmptyString (split LF (strip table_data_str))))
                  =@{gset string} list_to_set (ValidatorNew.columns json_data)).
  { destruct (decide (list_to_set (split "," (hd EmptyString (split LF (strip table_data_str))))
                      =@{gset string} list_to_set (ValidatorNew.columns json_data)));
      [assumption | contradiction]. }
  intros [= <-] Hrules record field Hrec Hin.
  apply list_elem_of_In, in_map_iff in Hrec as (line & <- & _).
  apply violations_elem in Hin as ([f x] & Hitem & Hv).
  pose proof (item_violations_field _ (f, x) _ Hv) as Hf. simpl in Hf. subst f.
  assert (Hkey : field ∈ ValidatorNew.columns json_data).
  { apply (elem_of_list_to_set (C:=gset string)). rewrite <- Hsame.
    apply elem_of_list_to_set.
    apply (combine_keys_subset _ (split "," line)).
    apply dict_keys. apply list_elem_of_In.
    change field with (fst (field, x)). apply in_map. now apply list_elem_of_In. }
  destruct (Hrules field Hkey) as [spec Hspec].
  apply (item_violations_elem _ field x spec _ Hspec) in Hv. other_checks.
Qed.

(** The sample table under the sample rules. *)
Lemma no_unexpected_field_after_header_check_witness :
  ValidatorNew.table_records ValidatorNew.table_data_str
    (ValidatorNew.columns ValidatorNew.fixture_json)
  = Ok [[("FIELD1", "ABC123"); ("FIELD2", "XYZ789"); ("FIELD_DEC1", "123.45");
         ("FIELD_NUMERIC1", "9876543210")];
        [("FIELD1", "ABC123"); ("FIELD2", "XYZ789"); ("FIELD_DEC1", "123.45");
         ("FIELD_NUMERIC1", "9876543210")];
        [("FIELD1", "LONG_TEXT_EXCEEDING_LIMIT"); ("FIELD2", "ValidText");
         ("FIELD_DEC1", "12.34"); ("FIELD_NUMERIC1", "5678")];
        [("FIELD1", ""); ("FIELD2", ""); ("FIELD_DEC1", "456.78");
         ("FIELD_NUMERIC1", "90")];
        [("FIELD1", "Value123"); ("FIELD2", "InvalidValue"); ("FIELD_DEC1", "1500.99");
         ("FIELD_NUMERIC1", "0")]]
  /\ (ValidatorNew.UnexpectedField "FIELD1"
      ∉ ValidatorNew.violations (ValidatorNew.fields ValidatorNew.fixture_json)
          [("FIELD1", ""); ("FIELD2", ""); ("FIELD_DEC1", "456.78");
           ("FIELD_NUMERIC1", "90")]).
Proof.
  assert (Hrecords :
    ValidatorNew.table_records ValidatorNew.table_data_str
      (ValidatorNew.columns ValidatorNew.fixture_json)
    = Ok [[("FIELD1", "ABC123"); ("FIELD2", "XYZ789"); ("FIELD_DEC1", "123.45");
           ("FIELD_NUMERIC1", "9876543210")];
          [("FIELD1", "ABC123"); ("FIELD2", "XYZ789"); ("FIELD_DEC1", "123.45");
           ("FIELD_NUMERIC1", "9876543210")];
          [("FIELD1", "LONG_TEXT_EXCEEDING_LIMIT"); ("FIELD2", "ValidText");
           ("FIELD_DEC1", "12.34"); ("FIELD_NUMERIC1", "5678")];
          [("FIELD1", ""); ("FIELD2", ""); ("FIELD_DEC1", "456.78");
           ("FIELD_NUMERIC1", "90")];
          [("FIELD1", "Value123"); ("FIELD2", "InvalidValue"); ("FIELD_DEC1", "1500.99");
           ("FIELD_NUMERIC1", "0")]]) by (vm_compute; reflexivity).
  split; [exact Hrecords|].
  apply (no_unexpected_field_after_header_check _ _ _ Hrecords).
  - intros column Hc. simpl in Hc.
    repeat (apply elem_of_cons in Hc as [-> | Hc]);
      [vm_compute; eauto .. | inversion Hc].
  - do 3 apply list_elem_of_further. apply list_elem_of_here.
Defined.
